(** * Style-calibrated decision engine and outcome analytics

    A shallow embedding of the decision and statistics code of the poker
    scenario analyzer's bot directory:

    - [OmahaTestRunner.py]: hand scoring, the style-driven Omaha player;
    - [StyleBasedTestRunner.py]: the style-based player, sample-size and
      confidence-interval computations;
    - [TrajectoryAnalyzer.py]: per-player trajectory metrics;
    - [HandDataCapture.py]: the session summary's head-to-head table.

    Number model.  Python [int] is [Z].  The sample-size computation, whose
    result depends on how each floating-point operation rounds, is modelled
    on IEEE 754 binary64 numbers ([Py64]).  Elsewhere Python [float] is
    modelled by exact rationals [Q] where the code only adds, multiplies,
    divides, compares and truncates (scorer, decision policy), which keeps
    those definitions executable, and by real numbers [R] where the code
    calls [math.sqrt] (trajectory metrics, confidence interval); there the
    rounding error of binary floating point is outside the model.  Python
    exceptions are explicit: a computation that can raise returns an
    [outcome]. *)

From Stdlib Require Import ZArith QArith Qminmax Qround Qpower Qreals Reals Psatz Lia.
From Stdlib Require Import List String Ascii SpecFloat.
From stdpp Require Import base option list strings gmap.
Import ListNotations.

(* ===================================================================== *)
(** * Python values, exceptions and arithmetic *)
(* ===================================================================== *)

Module Py.

(** The exception classes that the modelled code can raise. *)
Inductive exn : Set :=
| ZeroDivisionError
| ValueError
| IndexError
| AttributeError
| TypeError
| OverflowError
| RequestException.

(** Result of running a piece of Python: a value, or a raised exception. *)
Inductive outcome (A : Type) : Type :=
| Ret (a : A)
| Raise (e : exn).
Arguments Ret {A} a.
Arguments Raise {A} e.

Definition bind {A B} (m : outcome A) (k : A -> outcome B) : outcome B :=
  match m with
  | Ret a => k a
  | Raise e => Raise e
  end.

Definition returns {A} (m : outcome A) : Prop := exists a, m = Ret a.

(** [a / b] on floats: raises [ZeroDivisionError] when [b] is zero. *)
Definition truediv (a b : Q) : outcome Q :=
  if Qeq_bool b 0 then Raise ZeroDivisionError else Ret (a / b)%Q.

(** [int(x)] on a float: truncation towards zero. *)
Definition int_of (x : Q) : Z := Z.quot (Qnum x) (Z.pos (Qden x)).

(** [math.ceil(x)]. *)
Definition ceil (x : Q) : Z := Qceiling x.

(** [sum(l)] on integers. *)
Definition sum (l : list Z) : Z := fold_left Z.add l 0%Z.

(** [max(l)] on a list: raises [ValueError] on the empty list. *)
Definition max_of (l : list Z) : outcome Z :=
  match l with
  | [] => Raise ValueError
  | x :: t => Ret (fold_left Z.max t x)
  end.

(** [min(l)] on a list: raises [ValueError] on the empty list. *)
Definition min_of (l : list Z) : outcome Z :=
  match l with
  | [] => Raise ValueError
  | x :: t => Ret (fold_left Z.min t x)
  end.

(** [float(n)] for an integer [n]. *)
Definition fl (n : Z) : Q := inject_Z n.

(** [len(l)] as a Python integer. *)
Definition len {A} (l : list A) : Z := Z.of_nat (length l).

(** Comparisons on floats, as booleans. *)
Definition ltb (a b : Q) : bool :=
  match Qcompare a b with Lt => true | _ => false end.
Definition leb (a b : Q) : bool := Qle_bool a b.
Definition geb (a b : Q) : bool := Qle_bool b a.
Definition gtb (a b : Q) : bool := ltb b a.

(** A [dict.get(key, default)] on an association list kept in insertion
    order. *)
Fixpoint assoc_get {V} (d : list (string * V)) (k : string) : option V :=
  match d with
  | [] => None
  | (k', v) :: t => if String.eqb k k' then Some v else assoc_get t k
  end.

(** A [defaultdict(int)] used as a counter, kept in insertion order. *)
Section Counter.
Context {K : Type} (eqb : K -> K -> bool).

Fixpoint bump (k : K) (d : list (K * Z)) : list (K * Z) :=
  match d with
  | [] => [(k, 1%Z)]
  | (k', c) :: t => if eqb k k' then (k', (c + 1)%Z) :: t
                    else (k', c) :: bump k t
  end.

Definition counter (l : list K) : list (K * Z) :=
  fold_left (fun d k => bump k d) l [].

(** Reading a counter at a key ([0] when absent). *)
Definition cget (k : K) (d : list (K * Z)) : Z :=
  match find (fun p => eqb k (fst p)) d with
  | Some p => snd p
  | None => 0%Z
  end.

(** Number of occurrences of [k] in [l]. *)
Fixpoint occ (k : K) (l : list K) : Z :=
  match l with
  | [] => 0%Z
  | x :: t => ((if eqb k x then 1 else 0) + occ k t)%Z
  end.
End Counter.

End Py.

Import Py.

#[global] Instance outcome_bind : MBind outcome := fun A B k m => Py.bind m k.
#[global] Instance outcome_ret : MRet outcome := fun A a => Ret a.

(* ===================================================================== *)
(** * Cards and the Omaha hand scorer ([OmahaTestRunner.py]) *)
(* ===================================================================== *)

Module Scorer.

(** A card object of the game engine: [str(card.rank)] and
    [str(card.suit)].  [NotACard] is any object without these attributes;
    reading it raises. *)
Inductive pycard : Type :=
| Card (rank suit : string)
| NotACard.

Definition RANK_VALUES : list (string * Z) :=
  [("2", 2); ("3", 3); ("4", 4); ("5", 5); ("6", 6); ("7", 7); ("8", 8);
   ("9", 9); ("T", 10); ("J", 11); ("Q", 12); ("K", 13); ("A", 14);
   ("10", 10)]%Z.

Definition SUIT_CONVERT : list (string * string) :=
  [("♣", "c"); ("♦", "d"); ("♥", "h"); ("♠", "s");
   ("c", "c"); ("d", "d"); ("h", "h"); ("s", "s")].

Definition card_rank_num (card : pycard) : outcome Z :=
  match card with
  | Card r _ => Ret (default 7%Z (assoc_get RANK_VALUES r))
  | NotACard => Raise AttributeError
  end.

Definition card_suit_char (card : pycard) : outcome string :=
  match card with
  | Card _ s => Ret (default "c" (assoc_get SUIT_CONVERT s))
  | NotACard => Raise AttributeError
  end.

(** The reading loop of [score_omaha_hand]: [None] when some card raises,
    in which case the scorer returns 25. *)
Fixpoint read_cards (hole_cards : list pycard)
  : option (list Z * list string) :=
  match hole_cards with
  | [] => Some ([], [])
  | c :: t =>
      match card_rank_num c, card_suit_char c with
      | Ret r, Ret s =>
          match read_cards t with
          | Some (rs, ss) => Some (r :: rs, s :: ss)
          | None => None
          end
      | _, _ => None
      end
  end.

(** [sorted(set(ranks))]. *)
Fixpoint insert_sorted (x : Z) (l : list Z) : list Z :=
  match l with
  | [] => [x]
  | y :: t => if (x <=? y)%Z then x :: l else y :: insert_sorted x t
  end.

Definition sorted (l : list Z) : list Z := fold_right insert_sorted [] l.

Definition set_of (l : list Z) : list Z := map fst (counter Z.eqb l).

(** [[uniq[i+1]-uniq[i] for i in range(len(uniq)-1)]]. *)
Fixpoint gaps_of (uniq : list Z) : list Z :=
  match uniq with
  | a :: (b :: _) as t => (b - a)%Z :: gaps_of t
  | _ => []
  end.

(** The double loop that sets [suited_ace]: some rank-14 position shares
    its suit with another position. *)
Definition suited_ace_of (ranks : list Z) (suits : list string) : bool :=
  existsb (fun i =>
    (nth i ranks 0 =? 14)%Z &&
    existsb (fun j =>
      negb (Nat.eqb j i) && String.eqb (nth i suits "") (nth j suits ""))
      (seq 0 (length ranks)))
    (seq 0 (length ranks)).

Definition clamp100 (score : Q) : Q := Qmin 100 (Qmax 0 score).

Open Scope Q_scope.

(** High card value (0-25). *)
Definition add_high (score : Q) (ranks : list Z) : outcome Q :=
  avg_rank ← truediv (fl (Py.sum ranks)) (fl (len ranks));
  Ret (score + (avg_rank / 14) * 25).

(** Pairs (0-20). *)
Definition pairs_of (ranks : list Z) : list Z :=
  map fst (List.filter (fun rc => (2 <=? snd rc)%Z) (counter Z.eqb ranks)).

Definition add_pairs (score : Q) (ranks : list Z) : outcome Q :=
  match pairs_of ranks with
  | [] => Ret score
  | pairs => m ← max_of pairs; Ret (score + (10 + (fl m / 14) * 10))
  end.

(** Suitedness (0-15). *)
Definition add_suited (score : Q) (suits : list string) : outcome Q :=
  let sc := counter String.eqb suits in
  let suited_groups := len (List.filter (fun kc => (2 <=? snd kc)%Z) sc) in
  if (2 <=? suited_groups)%Z then Ret (score + 15)
  else
    m ← max_of (map snd sc);
    if (3 <=? m)%Z then Ret (score + 12)
    else
      m' ← max_of (map snd sc);
      if (2 <=? m')%Z then Ret (score + 8) else Ret score.

(** Connectivity (0-20). *)
Definition add_connectivity (score : Q) (ranks : list Z) : outcome Q :=
  let uniq := sorted (set_of ranks) in
  if (2 <=? len uniq)%Z then
    let gaps := gaps_of uniq in
    avg_gap ← truediv (fl (Py.sum gaps)) (fl (len gaps));
    Ret (score + Qmax 0 (20 - (avg_gap - 1) * 5))
  else Ret score.

(** Nut potential (0-20). *)
Definition add_nut (score : Q) (ranks : list Z) (suits : list string) : Q :=
  let has_ace := existsb (Z.eqb 14) ranks in
  let suited_ace := suited_ace_of ranks suits in
  let score :=
    if suited_ace then score + 15
    else if has_ace then score + 8 else score in
  if (3 <=? len (List.filter (fun r => (10 <=? r)%Z) ranks))%Z
  then score + 5 else score.

Definition score_omaha_hand (hole_cards : list pycard) : outcome Q :=
  match hole_cards with
  | [] => Ret 25
  | _ =>
      match read_cards hole_cards with
      | None => Ret 25
      | Some (ranks, suits) =>
          let score := 0 in
          score ← add_high score ranks;
          score ← add_pairs score ranks;
          score ← add_suited score suits;
          score ← add_connectivity score ranks;
          let score := add_nut score ranks suits in
          Ret (clamp100 score)
      end
  end.

Close Scope Q_scope.

End Scorer.

(** ** Predicates used to state properties of the scorer *)

Module ScorerSpec.
Import Scorer.

(** Each rank-only step adds an amount that depends on the ranks alone. *)
Definition adds (step : Q -> outcome Q) : Prop :=
  exists d : Q, forall s, exists v, step s = Ret v /\ (v == s + d)%Q.

(** Two different positions of the hand hold the same suit. *)
Definition shares_suit (suits : list string) : Prop :=
  exists i j, (i < length suits)%nat /\ (j < length suits)%nat /\ i <> j /\
              nth i suits "" = nth j suits "".

End ScorerSpec.

(* ===================================================================== *)
(** * Python floats as IEEE 754 binary64 numbers *)
(* ===================================================================== *)

Module Py64.
Import Py.

Abbreviation float := spec_float.

Definition prec : Z := 53.
Definition emax : Z := 1024.

(** [a + b], [a * b] and the quotient of [a / b], each rounded to the
    nearest float, ties to even. *)
Definition add : float -> float -> float := SFadd prec emax.
Definition mul : float -> float -> float := SFmul prec emax.
Definition quotient : float -> float -> float := SFdiv prec emax.

(** [a == b]: false when either is NaN; the two zeros are equal. *)
Definition eqb : float -> float -> bool := SFeqb.

(** [float(z)] for an integer below the overflow threshold: the nearest
    float. *)
Definition of_int (z : Z) : float := binary_normalize prec emax z 0 false.

(** The float that the decimal literal with value [n / d] denotes, for
    integers [n] and [d] that are floats themselves: Python reads a
    literal as the float nearest to its decimal value, which is what the
    rounded quotient of the two is. *)
Definition decimal (n d : Z) : float := quotient (of_int n) (of_int d).

Definition is_zero (x : float) : bool :=
  match x with S754_zero _ => true | _ => false end.

Definition is_nan (x : float) : bool :=
  match x with S754_nan => true | _ => false end.

(** [a / b]: raises [ZeroDivisionError] when [b] is a zero, whatever [a]
    is. *)
Definition truediv (a b : float) : outcome float :=
  if is_zero b then Raise ZeroDivisionError else Ret (quotient a b).

(** The rational number that a finite float is. *)
Definition value (x : float) : Q :=
  match x with
  | S754_finite s m e => inject_Z (cond_Zopp s (Z.pos m)) * 2 ^ e
  | _ => 0
  end.

(** [math.ceil(x)]: an integer; raises on NaN and on the infinities. *)
Definition ceil (x : float) : outcome Z :=
  match x with
  | S754_nan => Raise ValueError
  | S754_infinity _ => Raise OverflowError
  | _ => Ret (Qceiling (value x))
  end.

(** [x ** 2].  Python settles NaN, the infinities and the zeros itself
    and hands every other square to the [pow] of the C library, which
    need not round to the nearest float; [sq] is what that function
    returns for a positive base and the exponent 2.  A result that is
    infinite is turned into an [OverflowError]. *)
Definition pow2 (sq : float -> float) (x : float) : outcome float :=
  match x with
  | S754_nan => Ret S754_nan
  | S754_infinity _ => Ret (S754_infinity false)
  | S754_zero _ => Ret (S754_zero false)
  | S754_finite _ _ _ =>
      match sq (SFabs x) with
      | S754_infinity _ => Raise OverflowError
      | r => Ret r
      end
  end.

(** What is assumed of the C library: its square is the exact one when
    that is a float, is never further than one float away from the
    nearest float to the exact square, and is not negative. *)
Definition exact_square (x : float) : bool :=
  Qeq_bool (value (mul x x)) (value x * value x).

Definition within_one_ulp (sq : float -> float) : Prop :=
  forall s m e,
    let x := S754_finite s m e in
    (exact_square x = true -> sq x = mul x x) /\
    (sq x = SFpred prec emax (mul x x) \/ sq x = mul x x \/
     sq x = SFsucc prec emax (mul x x)) /\
    SFltb (sq x) (S754_zero false) = false.

(** The square rounded to the nearest float, as a correctly rounding
    library computes it. *)
Definition nearest_square (x : float) : float := mul x x.

End Py64.

(* ===================================================================== *)
(** * Sample size ([StyleBasedTestRunner.py], [calculate_sample_size_needed]) *)
(* ===================================================================== *)

Module SampleSize.
Import Py Py64.

(** The four arguments are floats, as the signature says and as the
    defaults are; an integer passed instead takes part in the arithmetic
    as [of_int] of it.  [sq] is the square of the C library (see
    [pow2]).  The steps are those of the source, in its order: the two
    z-values, their sum, the product with the deviation, the division,
    the square, the product with 2, and [math.ceil]. *)
Definition calculate_sample_size_needed (sq : float -> float)
  (expected_effect_bb100 std_dev_bb100 confidence power : float)
  : outcome Z :=
  let z_alpha :=
    if eqb confidence (decimal 95 100) then decimal 196 100
    else if eqb confidence (decimal 99 100) then decimal 258 100
         else decimal 1645 1000 in
  let z_beta :=
    if eqb power (decimal 80 100) then decimal 84 100
    else if eqb power (decimal 90 100) then decimal 128 100
         else decimal 52 100 in
  q ← truediv (mul (add z_alpha z_beta) std_dev_bb100) expected_effect_bb100;
  s ← pow2 sq q;
  let n := mul (of_int 2) s in
  ceil n.

(** The formula in the words of the specification, on exact numbers: the
    two-sample mean-comparison size, rounded up. *)
Definition required_sample_size (z_conf z_power stdDev effectSize : Q) : Z :=
  Qceiling (2 * ((z_conf + z_power) * stdDev / effectSize) ^ 2)%Q.

(** The same formula with every operation carried out on floats. *)
Definition required_sample_size_in_floats (sq : float -> float)
  (z_conf z_power stdDev effectSize : float) : outcome Z :=
  q ← truediv (mul (add z_conf z_power) stdDev) effectSize;
  s ← pow2 sq q;
  ceil (mul (of_int 2) s).

(** The z-values that the specification lists. *)
Inductive z_conf_of : float -> float -> Prop :=
| conf_95 c : eqb c (decimal 95 100) = true -> z_conf_of c (decimal 196 100)
| conf_99 c : eqb c (decimal 99 100) = true -> z_conf_of c (decimal 258 100).

Inductive z_power_of : float -> float -> Prop :=
| power_80 p : eqb p (decimal 80 100) = true -> z_power_of p (decimal 84 100)
| power_90 p : eqb p (decimal 90 100) = true -> z_power_of p (decimal 128 100).

End SampleSize.

(* ===================================================================== *)
(** * Floats as real numbers *)
(* ===================================================================== *)

Module PyR.
Import Py.
Open Scope R_scope.

(** [a / b]: raises [ZeroDivisionError] when [b] is zero. *)
Definition truediv (a b : R) : outcome R :=
  if Req_dec_T b 0 then Raise ZeroDivisionError else Ret (a / b).

(** [math.sqrt(x)]: raises [ValueError] on a negative argument. *)
Definition math_sqrt (x : R) : outcome R :=
  if Rlt_dec x 0 then Raise ValueError else Ret (sqrt x).

(** [sum(l)] on floats. *)
Definition sum (l : list R) : R := fold_right Rplus 0 l.

(** [float(n)]. *)
Definition fl (n : Z) : R := IZR n.

(** [sum((x - m) ** 2 for x in l)] for integers [l] and a float [m]. *)
Definition sum_sq_dev (l : list Z) (m : R) : R :=
  sum (map (fun x => (fl x - m) ^ 2) l).

Close Scope R_scope.
End PyR.

(* ===================================================================== *)
(** * Trajectory metrics ([TrajectoryAnalyzer.py], [PlayerTrajectory]) *)
(* ===================================================================== *)

Module Trajectory.
Import Py.

Record PlayerTrajectory : Type := {
  name : string;
  strategy : string;
  initial_stack : Z;
  stack_history : list Z;
  profit_history : list Z;
  hand_results : list Z;
  final_stack : Z;
  total_profit : Z;
  peak_stack : Z;
  min_stack : Z;
  max_drawdown : Z;
  max_drawdown_pct : R;
  volatility : R;
  sharpe_ratio : R;
  longest_win_streak : Z;
  longest_lose_streak : Z;
  hands_won : Z;
  hands_lost : Z
}.

(** The object on which [run_trajectory_test] calls [compute_metrics]:
    built by the constructor, so with every computed metric at its
    default, and with the three histories filled in during the session. *)
Definition recorded (nm strat : string) (initial : Z)
  (stacks profits results : list Z) : PlayerTrajectory :=
  {| name := nm; strategy := strat; initial_stack := initial;
     stack_history := stacks; profit_history := profits;
     hand_results := results;
     final_stack := 0; total_profit := 0; peak_stack := 0; min_stack := 0;
     max_drawdown := 0; max_drawdown_pct := 0; volatility := 0;
     sharpe_ratio := 0; longest_win_streak := 0; longest_lose_streak := 0;
     hands_won := 0; hands_lost := 0 |}.

(** [l[-1]]. *)
Definition last_of (l : list Z) : outcome Z :=
  match l with
  | [] => Raise IndexError
  | x :: t => Ret (List.last t x)
  end.

(** One turn of the drawdown loop on the pair [(peak, max_dd)]. *)
Definition drawdown_step (st : Z * Z) (stack : Z) : Z * Z :=
  let '(peak, max_dd) := st in
  let peak := if (peak <? stack)%Z then stack else peak in
  let dd := (peak - stack)%Z in
  let max_dd := if (max_dd <? dd)%Z then dd else max_dd in
  (peak, max_dd).

Definition drawdown_scan (initial : Z) (stacks : list Z) : Z * Z :=
  fold_left drawdown_step stacks (initial, 0%Z).

(** The state of the streak loop. *)
Record streak_state : Type := {
  current_streak : Z;
  is_winning : option bool;
  max_win : Z;
  max_lose : Z;
  won : Z;
  lost : Z
}.

Definition streak_step (st : streak_state) (result : Z) : streak_state :=
  if (0 <? result)%Z then
    let '(cur, flag) :=
      match is_winning st with
      | Some true => ((current_streak st + 1)%Z, is_winning st)
      | _ => (1%Z, Some true)
      end in
    {| current_streak := cur; is_winning := flag;
       max_win := Z.max (max_win st) cur; max_lose := max_lose st;
       won := (won st + 1)%Z; lost := lost st |}
  else if (result <? 0)%Z then
    let '(cur, flag) :=
      match is_winning st with
      | Some false => ((current_streak st + 1)%Z, is_winning st)
      | _ => (1%Z, Some false)
      end in
    {| current_streak := cur; is_winning := flag;
       max_win := max_win st; max_lose := Z.max (max_lose st) cur;
       won := won st; lost := (lost st + 1)%Z |}
  else st.

Definition streak_scan (won0 lost0 : Z) (results : list Z) : streak_state :=
  fold_left streak_step results
    {| current_streak := 0; is_winning := None; max_win := 0; max_lose := 0;
       won := won0; lost := lost0 |}.

Open Scope R_scope.

(** [compute_metrics]: the object after the call.  A metric that the call
    does not assign keeps the value it had. *)
Definition compute_metrics (self : PlayerTrajectory)
  : outcome PlayerTrajectory :=
  match stack_history self with
  | [] => Ret self
  | _ =>
      final ← last_of (stack_history self);
      let total := (final - initial_stack self)%Z in
      peak_s ← max_of (stack_history self);
      min_s ← min_of (stack_history self);
      let '(peak, max_dd) :=
        drawdown_scan (initial_stack self) (stack_history self) in
      pct ← (if (0 <? peak)%Z
             then q ← PyR.truediv (PyR.fl max_dd) (PyR.fl peak); Ret (q * 100)
             else Ret 0);
      vol ← (if (1 <? len (hand_results self))%Z
             then
               mean ← PyR.truediv (PyR.fl (Py.sum (hand_results self)))
                                  (PyR.fl (len (hand_results self)));
               variance ← PyR.truediv (PyR.sum_sq_dev (hand_results self) mean)
                                      (PyR.fl (len (hand_results self)));
               PyR.math_sqrt variance
             else Ret (volatility self));
      sharpe ← (if Rlt_dec 0 vol
                then if (0 <? len (hand_results self))%Z
                     then
                       avg_profit ← PyR.truediv (PyR.fl total)
                                       (PyR.fl (len (hand_results self)));
                       PyR.truediv avg_profit vol
                     else Ret (sharpe_ratio self)
                else Ret (sharpe_ratio self));
      let st := streak_scan (hands_won self) (hands_lost self)
                            (hand_results self) in
      Ret {| name := name self; strategy := strategy self;
             initial_stack := initial_stack self;
             stack_history := stack_history self;
             profit_history := profit_history self;
             hand_results := hand_results self;
             final_stack := final; total_profit := total;
             peak_stack := peak_s; min_stack := min_s;
             max_drawdown := max_dd; max_drawdown_pct := pct;
             volatility := vol; sharpe_ratio := sharpe;
             longest_win_streak := max_win st;
             longest_lose_streak := max_lose st;
             hands_won := won st; hands_lost := lost st |}
  end.

(** The running peak with which the drawdown loop ends. *)
Definition running_peak (initial : Z) (stacks : list Z) : Z :=
  fst (drawdown_scan initial stacks).

(** The population standard deviation, in the words of the specification:
    the square root of the mean squared deviation from the mean. *)
Definition population_stddev (l : list Z) : R :=
  let n := INR (length l) in
  let mean := PyR.sum (map IZR l) / n in
  sqrt (PyR.sum (map (fun x => (IZR x - mean) ^ 2) l) / n).

(** The largest fall below the highest stack of the whole history: the
    drawdown that the specification tells apart from the running one. *)
Definition global_peak_drawdown (initial : Z) (stacks : list Z) : Z :=
  let peak := fold_left Z.max stacks initial in
  fold_left Z.max (map (fun s => (peak - s)%Z) stacks) 0%Z.

Close Scope R_scope.
End Trajectory.

(* ===================================================================== *)
(** * Head-to-head table of the session summary ([HandDataCapture.py]) *)
(* ===================================================================== *)

Module Summary.
Import Py.

(** The attributes of [PlayerHandResult] and [HandRecord] that the
    head-to-head loop of [generate_session_summary] reads. *)
Record PlayerHandResult : Type := {
  seat : Z;
  name : string;
  strategy : string;
  stack_change : Z
}.

Record HandRecord : Type := {
  hand_id : Z;
  players : list PlayerHandResult
}.

(** [defaultdict(lambda: defaultdict(int))]. *)
Abbreviation table := (gmap string (gmap string Z)).

(** [h2h[a][b] += x]. *)
Definition add_to (a b : string) (x : Z) (h2h : table) : table :=
  let row := default ∅ (h2h !! a) in
  <[a := <[b := (default 0 (row !! b) + x)%Z]> row]> h2h.

(** The body of the innermost loop. *)
Definition against (player : PlayerHandResult) (h2h : table)
  (opponent : PlayerHandResult) : table :=
  if negb (String.eqb (name opponent) (name player))
  then add_to (strategy player) (strategy opponent) (stack_change player) h2h
  else h2h.

Definition for_player (hand : HandRecord) (h2h : table)
  (player : PlayerHandResult) : table :=
  fold_left (against player) (players hand) h2h.

Definition for_hand (h2h : table) (hand : HandRecord) : table :=
  fold_left (for_player hand) (players hand) h2h.

(** [summary.head_to_head] for the recorded hands. *)
Definition head_to_head (hands : list HandRecord) : table :=
  fold_left for_hand hands ∅.

(** Reading [head_to_head[s1][s2]]; [None] when there is no such entry. *)
Definition entry (h2h : table) (s1 s2 : string) : option Z :=
  row ← h2h !! s1; row !! s2.

(** The stack deltas that the loop attributes to the ordered pair of styles
    [(s1, s2)]: one per ordered pair of differently named players of a hand
    with these styles. *)
Definition attributed (hands : list HandRecord) (s1 s2 : string) : list Z :=
  hand ← hands;
  player ← players hand;
  opponent ← players hand;
  if negb (String.eqb (name opponent) (name player))
     && String.eqb (strategy player) s1 && String.eqb (strategy opponent) s2
  then [stack_change player] else [].

(** The attribution in the words of the specification: for distinct styles
    present together in a hand, the first style's stack delta in that hand,
    summed over those hands; nothing for a style against itself. *)
Definition style_delta (hand : HandRecord) (s : string) : Z :=
  Py.sum (stack_change <$> List.filter (fun p => String.eqb (strategy p) s)
                                       (players hand)).

Definition present (hand : HandRecord) (s : string) : bool :=
  existsb (fun p => String.eqb (strategy p) s) (players hand).

Definition together (hands : list HandRecord) (s1 s2 : string)
  : list HandRecord :=
  List.filter (fun hand => present hand s1 && present hand s2) hands.

Definition specified_entry (hands : list HandRecord) (s1 s2 : string)
  : option Z :=
  if String.eqb s1 s2 then None
  else match together hands s1 s2 with
       | [] => None
       | hs => Some (Py.sum ((fun hand => style_delta hand s1) <$> hs))
       end.

Definition as_specified (hands : list HandRecord) : Prop :=
  forall s1 s2, entry (head_to_head hands) s1 s2 = specified_entry hands s1 s2.

(** The updates made by the loops, in the order in which they are made,
    and the amounts among them that go to one entry. *)
Definition attributions (hands : list HandRecord)
  : list (string * string * Z) :=
  hand ← hands;
  player ← players hand;
  opponent ← players hand;
  if negb (String.eqb (name opponent) (name player))
  then [(strategy player, strategy opponent, stack_change player)] else [].

Definition goes_to (s1 s2 : string) (u : string * string * Z) : bool :=
  String.eqb (fst (fst u)) s1 && String.eqb (snd (fst u)) s2.

Definition update (h2h : table) (u : string * string * Z) : table :=
  add_to (fst (fst u)) (snd (fst u)) (snd u) h2h.

(** In every hand, no two players share a name or a style. *)
Definition one_seat_per_style (hands : list HandRecord) : Prop :=
  Forall (fun hand => NoDup (strategy <$> players hand) /\
                      NoDup (name <$> players hand)) hands.

End Summary.

(* ===================================================================== *)
(** * Decisions of the policy *)
(* ===================================================================== *)

Module Policy.

(** A decision is an action name and an integer amount.  It is legal for a
    call amount and a raise range when it is a fold carrying the fold
    amount [fold_amount], a call carrying exactly [call], or a raise whose
    amount lies in the range. *)
Definition legal (fold_amount call mnr mxr : Z) (d : string * Z) : Prop :=
  (fst d = "fold" /\ snd d = fold_amount) \/
  (fst d = "call" /\ snd d = call) \/
  (fst d = "raise" /\ (mnr <= snd d)%Z /\ (snd d <= mxr)%Z).

(** The property in the words of the specification: a fold carries 0. *)
Definition as_specified (call mnr mxr : Z) (d : string * Z) : Prop :=
  legal 0 call mnr mxr d.

End Policy.

(* ===================================================================== *)
(** * The advisory service: requests and the sizing hint of a reply *)
(* ===================================================================== *)

Module Advisor.

(** The game state posted to the advisor.  [gameVariant] holds the number
    that the code formats as [omaha<variant>]. *)
Record request : Type := {
  gameVariant : nat;
  rq_street : string;
  holeCards : list string;
  board : list string;
  rq_position : string;
  playersInHand : Z;
  potSize : Z;
  toCall : Z;
  stackSize : Z;
  rq_style : string
}.

(** The value under ["optimal"] in the sizing object. *)
Inductive optimal_val : Type :=
| OptMissing                 (* no such key: the default [mnr] is used *)
| OptInt (z : Z)             (* [int(opt)] is [z] *)
| OptInvalid.                (* [int(opt)] raises *)

(** The value of [rec.get("sizing", {})]. *)
Inductive sizing_hint : Type :=
| SizingEmpty                (* key missing, or an empty object *)
| SizingNull                 (* falsy and not a dict: null, 0, empty text *)
| SizingDict (o : optimal_val)  (* a non-empty object *)
| SizingOther.               (* truthy and not a dict: [sizing.get] raises *)

End Advisor.

(* ===================================================================== *)
(** * The Omaha player ([OmahaTestRunner.py], class [OmahaPlayer]) *)
(* ===================================================================== *)

Module Omaha.
Import Py Scorer Advisor.

(** One entry of [STYLES].  [raise_sizing] and [postflop_agg] are read with
    [dict.get] and a default, so they are optional here. *)
Record style_def : Type := {
  sd_name : string;
  vpip_target : Q;
  pfr_ratio : Q;
  aggression : Q;
  cbet : Q;
  fold_cbet : Q;
  raise_sizing : option Q;
  postflop_agg : option Q;
  barrel_turn : Q;
  barrel_river : Q;
  sd_threshold : option Q
}.

(** The built-in tables, used when the shared JSON file is unavailable. *)
Definition mk_style (n : string) (vt pr ag cb fc rs pa bt br : Q) : style_def :=
  {| sd_name := n; vpip_target := vt; pfr_ratio := pr; aggression := ag;
     cbet := cb; fold_cbet := fc; raise_sizing := Some rs;
     postflop_agg := Some pa; barrel_turn := bt; barrel_river := br;
     sd_threshold := None |}.

Definition STYLES : list (string * style_def) :=
  [("nit",  mk_style "Nit (Ultra-Tight)" 0.20 0.70 0.45 0.50 0.55 0.5 0.35 0.40 0.30);
   ("rock", mk_style "Rock (Tight-Passive)" 0.20 0.45 0.25 0.45 0.55 0.5 0.15 0.35 0.25);
   ("reg",  mk_style "Reg (Solid Regular)" 0.25 0.75 0.60 0.58 0.42 0.75 0.30 0.50 0.40);
   ("tag",  mk_style "TAG (Tight-Aggressive)" 0.28 0.72 0.65 0.62 0.38 0.75 0.35 0.55 0.42);
   ("lag",  mk_style "LAG (Loose-Aggressive)" 0.35 0.65 0.75 0.65 0.30 1.0 0.40 0.60 0.50);
   ("fish", mk_style "Fish (Loose-Passive)" 0.50 0.25 0.20 0.40 0.25 0.5 0.10 0.30 0.20)]%Q.

Definition by_variant (t4 t5 t6 : Q) : list (nat * Q) :=
  [(4%nat, t4); (5%nat, t5); (6%nat, t6)].

Definition STYLE_THRESHOLDS : list (string * list (nat * Q)) :=
  [("nit",  by_variant 55.0 65.5 73.0);
   ("rock", by_variant 55.0 65.5 73.0);
   ("reg",  by_variant 53.6 63.9 71.3);
   ("tag",  by_variant 52.0 62.0 69.5);
   ("lag",  by_variant 50.5 61.0 68.5);
   ("fish", by_variant 46.5 56.7 64.3)]%Q.

Definition POS_ADJ : list (string * Q) :=
  [("BTN", 12); ("CO", 6); ("HJ", 2); ("MP", -3); ("EP", -8); ("UTG", -12);
   ("SB", -5); ("BB", 0)]%Q.

Definition STREET_NAMES (street_idx : Z) : option string :=
  match street_idx with
  | 0 => Some "preflop"
  | 1 => Some "flop"
  | 2 => Some "turn"
  | 3 => Some "river"
  | _ => None
  end%Z.

(** The attributes of an [OmahaPlayer] object.  [actions] and [streets] are
    [defaultdict(int)] counters keyed by strings. *)
Record player : Type := {
  idx : nat;
  style : string;
  sd : style_def;
  variant : nat;
  fast_mode : bool;
  threshold : Q;
  hands : Z;
  wins : Z;
  profit : Z;
  advisor_calls : Z;
  api_errors : Z;
  actions : gmap string Z;
  streets : gmap string Z;
  per_hand : list Z;
  vpip_hands : Z;
  vpip_this_hand : bool
}.

Definition nat_assoc_get {V} (d : list (nat * V)) (k : nat) : option V :=
  snd <$> find (fun kv => Nat.eqb k (fst kv)) d.

(** [OmahaPlayer.__init__] followed by [reset_stats], for a style of the
    built-in table ([STYLES[style]] raises [KeyError] otherwise; modelled
    as [None]). *)
Definition new_player (i : nat) (st : string) (v : nat) (fast : bool)
  : option player :=
  s ← assoc_get STYLES st;
  Some {| idx := i; style := st; sd := s; variant := v; fast_mode := fast;
          threshold :=
            default (default 50%Q (sd_threshold s))
              (nat_assoc_get (default [] (assoc_get STYLE_THRESHOLDS st)) v);
          hands := 0; wins := 0; profit := 0;
          advisor_calls := 0; api_errors := 0;
          actions := ∅; streets := ∅; per_hand := [];
          vpip_hands := 0; vpip_this_hand := false |}.

(** Field updates. *)
Definition set_actions (f : gmap string Z -> gmap string Z) (p : player) :=
  {| idx := idx p; style := style p; sd := sd p; variant := variant p;
     fast_mode := fast_mode p; threshold := threshold p; hands := hands p;
     wins := wins p; profit := profit p; advisor_calls := advisor_calls p;
     api_errors := api_errors p; actions := f (actions p);
     streets := streets p; per_hand := per_hand p;
     vpip_hands := vpip_hands p; vpip_this_hand := vpip_this_hand p |}.

Definition set_streets (f : gmap string Z -> gmap string Z) (p : player) :=
  {| idx := idx p; style := style p; sd := sd p; variant := variant p;
     fast_mode := fast_mode p; threshold := threshold p; hands := hands p;
     wins := wins p; profit := profit p; advisor_calls := advisor_calls p;
     api_errors := api_errors p; actions := actions p;
     streets := f (streets p); per_hand := per_hand p;
     vpip_hands := vpip_hands p; vpip_this_hand := vpip_this_hand p |}.

Definition set_advisor_calls (f : Z -> Z) (p : player) :=
  {| idx := idx p; style := style p; sd := sd p; variant := variant p;
     fast_mode := fast_mode p; threshold := threshold p; hands := hands p;
     wins := wins p; profit := profit p; advisor_calls := f (advisor_calls p);
     api_errors := api_errors p; actions := actions p;
     streets := streets p; per_hand := per_hand p;
     vpip_hands := vpip_hands p; vpip_this_hand := vpip_this_hand p |}.

Definition set_api_errors (f : Z -> Z) (p : player) :=
  {| idx := idx p; style := style p; sd := sd p; variant := variant p;
     fast_mode := fast_mode p; threshold := threshold p; hands := hands p;
     wins := wins p; profit := profit p; advisor_calls := advisor_calls p;
     api_errors := f (api_errors p); actions := actions p;
     streets := streets p; per_hand := per_hand p;
     vpip_hands := vpip_hands p; vpip_this_hand := vpip_this_hand p |}.

Definition set_vpip (n : Z) (flag : bool) (p : player) :=
  {| idx := idx p; style := style p; sd := sd p; variant := variant p;
     fast_mode := fast_mode p; threshold := threshold p; hands := hands p;
     wins := wins p; profit := profit p; advisor_calls := advisor_calls p;
     api_errors := api_errors p; actions := actions p;
     streets := streets p; per_hand := per_hand p;
     vpip_hands := n; vpip_this_hand := flag |}.

Definition set_fast_mode (b : bool) (p : player) :=
  {| idx := idx p; style := style p; sd := sd p; variant := variant p;
     fast_mode := b; threshold := threshold p; hands := hands p;
     wins := wins p; profit := profit p; advisor_calls := advisor_calls p;
     api_errors := api_errors p; actions := actions p;
     streets := streets p; per_hand := per_hand p;
     vpip_hands := vpip_hands p; vpip_this_hand := vpip_this_hand p |}.

(** [d[k] += 1] on a [defaultdict(int)]. *)
Definition incr (k : string) (d : gmap string Z) : gmap string Z :=
  <[k := (default 0 (d !! k) + 1)%Z]> d.

(** ** The advisory service, as seen by the player *)

(** What one HTTP exchange produces. *)
Inductive reply : Type :=
| Failed (e : exn)           (* timeout, transport or HTTP error, body that
                                is not a JSON object: raised before the
                                advisor-call counter is touched *)
| Garbled (e : exn)          (* a recommendation whose action cannot be
                                read and lower-cased *)
| Advice (action : string) (sizing : sizing_hint).

(** ** State threaded through a decision

    [self] is the player object; [rnd] counts the calls made to
    [random.random()] so far and [net] the HTTP requests sent so far. *)
Record ctx : Type := { self : player; rnd : nat; net : nat }.

Definition M (A : Type) : Type := ctx -> outcome A * ctx.

#[global] Instance M_ret : MRet M := fun A a s => (Ret a, s).
#[global] Instance M_bind : MBind M := fun A B k m s =>
  match m s with
  | (Ret a, s') => k a s'
  | (Raise e, s') => (Raise e, s')
  end.

Definition raise {A} (e : exn) : M A := fun s => (Raise e, s).

Definition lift {A} (o : outcome A) : M A := fun s => (o, s).

(** [try: body  except: handler] (a bare [except] catches everything;
    what the body changed before raising stays changed). *)
Definition try_except {A} (body handler : M A) : M A := fun s =>
  match body s with
  | (Ret a, s') => (Ret a, s')
  | (Raise _, s') => handler s'
  end.

Definition get_self : M player := fun s => (Ret (self s), s).

Definition modify (f : player -> player) : M unit := fun s =>
  (Ret tt, {| self := f (self s); rnd := rnd s; net := net s |}).

(** A decision: the key of [self.actions] that is incremented, and the
    integer that the method returns to the caller in the same statement. *)
Definition decision : Type := string * Z.

Definition act (label : string) (amount : Z) : M decision :=
  _ ← modify (set_actions (incr label));
  mret (label, amount).

Section WithWorld.

(** The values returned by successive calls of [random.random()], and the
    outcome of the [n]-th HTTP request on a given game state. *)
Variable draws : nat -> Q.
Variable advisor : nat -> request -> reply.

Definition random : M Q := fun s =>
  (Ret (draws (rnd s)), {| self := self s; rnd := S (rnd s); net := net s |}).

Definition post (gs : request) : M reply := fun s =>
  (Ret (advisor (net s) gs),
   {| self := self s; rnd := rnd s; net := S (net s) |}).

Definition position_table (num_p : Z) : list string :=
  if (num_p <=? 3)%Z then ["BTN"; "SB"; "BB"]
  else if (num_p <=? 6)%Z then ["UTG"; "MP"; "CO"; "BTN"; "SB"; "BB"]
  else ["UTG"; "UTG"; "EP"; "MP"; "HJ"; "CO"; "BTN"; "SB"; "BB"].

Definition position (p : player) (num_p hand_num : Z) : outcome string :=
  let pos := position_table num_p in
  if (num_p =? 0)%Z then Raise ZeroDivisionError
  else
    let rotated_idx := ((Z.of_nat (idx p) - hand_num) mod num_p)%Z in
    (* [pos[k]] with a possibly negative [k], at most [len(pos)] away *)
    let k := (rotated_idx mod len pos)%Z in
    match pos !! Z.to_nat k with
    | Some s => Ret s
    | None => Raise IndexError
    end.

Definition new_hand : M unit :=
  modify (fun p => set_vpip (vpip_hands p) false p).

Definition mark_vpip : M unit :=
  modify (fun p =>
    if vpip_this_hand p then p else set_vpip (vpip_hands p + 1)%Z true p).

Definition in_list (s : string) (l : list string) : bool :=
  existsb (String.eqb s) l.

Definition _preflop (hole : list pycard) (call pot stk mnr mxr num_p hand_num : Z)
  : M decision :=
  p ← get_self;
  score ← lift (score_omaha_hand hole);
  pos ← lift (position p num_p hand_num);
  let adj := (score + default 0 (assoc_get POS_ADJ pos))%Q in
  let thresh := threshold p in
  let pfr := pfr_ratio (sd p) in
  let sizing := default 0.75%Q (raise_sizing (sd p)) in
  if geb adj thresh then
    _ ← mark_vpip;
    r ← random;
    if ltb r pfr && (mnr <=? mxr)%Z then
      let amt := Z.max mnr (Z.min mxr (int_of (fl pot * sizing)%Q)) in
      act "raise" amt
    else act "call" call
  else if (call =? 0)%Z then act "call" 0%Z
  else
    let margin :=
      if in_list (style p) ["lag"; "fish"] then 5%Q
      else if in_list (style p) ["tag"; "reg"] then 3%Q else 0%Q in
    let max_call_pct :=
      default 0.03%Q
        (assoc_get [("fish", 0.08); ("lag", 0.05); ("tag", 0.03); ("reg", 0.03)]%Q
                   (style p)) in
    if gtb margin 0 && geb adj (thresh - margin)%Q
       && leb (fl call) (fl stk * max_call_pct)%Q
    then _ ← mark_vpip; act "call" call
    else act "fold" (-1)%Z.

(** [sizing.get("optimal", mnr) if sizing else mnr], then [int(opt)]; the
    two can raise at different moments, before and after the counter. *)
Definition read_optimal (sizing : sizing_hint) (mnr : Z) : outcome optimal_val :=
  match sizing with
  | SizingEmpty | SizingNull => Ret (OptInt mnr)
  | SizingDict OptMissing => Ret (OptInt mnr)
  | SizingDict o => Ret o
  | SizingOther => Raise AttributeError
  end.

Definition int_optimal (o : optimal_val) (mnr : Z) : outcome Z :=
  match o with
  | OptInt z => Ret z
  | OptMissing => Ret mnr
  | OptInvalid => Raise ValueError
  end.

Definition raise_to_optimal (sizing : sizing_hint) (mnr mxr : Z) : M decision :=
  opt ← lift (read_optimal sizing mnr);
  _ ← modify (set_actions (incr "raise"));
  z ← lift (int_optimal opt mnr);
  mret ("raise", Z.max mnr (Z.min z mxr)).

Definition _style_action (action : string) (sizing : sizing_hint)
  (call pot stk mnr mxr : Z) : M decision :=
  p ← get_self;
  let agg := aggression (sd p) in
  if String.eqb action "fold" then
    if String.eqb (style p) "lag" && leb (fl call) (fl pot * 0.3)%Q then
      r ← random;
      if ltb r 0.3%Q then act "call" call else act "fold" (-1)%Z
    else act "fold" (-1)%Z
  else if in_list action ["call"; "check"] then
    r ← random;
    if ltb r (agg * 0.3)%Q && (mnr <=? mxr)%Z
    then raise_to_optimal sizing mnr mxr
    else act "call" call
  else if in_list action ["raise"; "bet"] then
    back_off ←
      (if String.eqb (style p) "rock"
       then r ← random; mret (gtb r agg)
       else mret false);
    if back_off : bool then act "call" call
    else if (mnr <=? mxr)%Z then raise_to_optimal sizing mnr mxr
    else act "call" call
  else act "call" call.

Definition _heuristic (call pot stk mnr mxr : Z) : M decision :=
  p ← get_self;
  let cbet := cbet (sd p) in
  let fold_cbet := fold_cbet (sd p) in
  let postflop_agg :=
    default (aggression (sd p) * 0.4)%Q (postflop_agg (sd p)) in
  if (call =? 0)%Z then
    r ← random;
    if ltb r cbet && (mnr <=? mxr)%Z then
      let sizing := (0.5 + default 0.75 (raise_sizing (sd p)) * 0.25)%Q in
      act "raise" (Z.max mnr (Z.min (int_of (fl pot * sizing)%Q) mxr))
    else act "call" 0%Z
  else
    r ← random;
    if ltb r fold_cbet then act "fold" (-1)%Z
    else
      r' ← random;
      if ltb r' postflop_agg && (mnr <=? mxr)%Z
      then act "raise" (Z.max mnr (Z.min (int_of (fl pot * 0.75)%Q) mxr))
      else act "call" call.

(** [card_str]: the advisor's spelling of a card. *)
Definition card_str (card : pycard) : outcome string :=
  match card with
  | Card r _ =>
      s ← card_suit_char card;
      Ret ((if String.eqb r "T" then "10" else r) ++ s)%string
  | NotACard => Raise AttributeError
  end.

Fixpoint card_strs (cards : list pycard) : outcome (list string) :=
  match cards with
  | [] => Ret []
  | c :: t => s ← card_str c; ss ← card_strs t; Ret (s :: ss)
  end.

(** The body of the [try] block of [_postflop]: [Some d] when it returns
    [d], [None] when control falls through to the code after the block. *)
Definition ask_advisor (hole board : list pycard)
  (call pot stk mnr mxr : Z) (street : string) (num_p hand_num : Z)
  : M (option decision) :=
  p ← get_self;
  if (3 <=? len board)%Z then
    hs ← lift (card_strs (take (variant p) hole));
    bs ← lift (card_strs board);
    pos ← lift (position p num_p hand_num);
    let gs := {| gameVariant := variant p; rq_street := street;
                 holeCards := hs; board := bs; rq_position := pos;
                 playersInHand := num_p; potSize := pot; toCall := call;
                 stackSize := stk; rq_style := style p |} in
    resp ← post gs;
    match resp with
    | Failed e => raise e
    | Garbled e => _ ← modify (set_advisor_calls (Z.add 1)); raise e
    | Advice action sizing =>
        _ ← modify (set_advisor_calls (Z.add 1));
        d ← _style_action action sizing call pot stk mnr mxr;
        mret (Some d)
    end
  else mret None.

Definition _postflop (hole board : list pycard)
  (call pot stk mnr mxr : Z) (street : string) (num_p hand_num : Z)
  : M decision :=
  p ← get_self;
  if fast_mode p then _heuristic call pot stk mnr mxr
  else
    r ← try_except
          (ask_advisor hole board call pot stk mnr mxr street num_p hand_num)
          (_ ← modify (set_api_errors (Z.add 1)); mret None);
    match r with
    | Some d => mret d
    | None => _heuristic call pot stk mnr mxr
    end.

(** The observation handed over by the game engine. *)
Record observation : Type := {
  o_call : Z;
  o_pot : Z;
  o_stacks : list Z;
  o_min_raise : Z;
  o_max_raise : Z;
  o_hole_cards : list pycard;
  o_community_cards : list pycard
}.

Definition decide (obs : observation) (street_idx num_p hand_num : Z)
  : M decision :=
  p ← get_self;
  let street := default "preflop" (STREET_NAMES street_idx) in
  _ ← modify (set_streets (incr street));
  let call := o_call obs in
  let pot := o_pot obs in
  stk ← (match o_stacks obs !! idx p with
         | Some z => mret z
         | None => raise IndexError
         end);
  let mnr := o_min_raise obs in
  let mxr := o_max_raise obs in
  let hole := o_hole_cards obs in
  let board := o_community_cards obs in
  if (street_idx =? 0)%Z
  then _preflop hole call pot stk mnr mxr num_p hand_num
  else _postflop hole board call pot stk mnr mxr street num_p hand_num.

(** ** One hand, seen from the table

    [play_hand] calls [new_hand] on every player and then asks the player
    whose turn it is for a decision, one decision point after the other;
    all players draw from the same [random] module.  A decision point is
    the acting seat, the observation and the street. *)
Record table : Type := { seats : list player; t_rnd : nat; t_net : nat }.

Definition point : Type := nat * observation * Z.

(** The value passed on to [dealer.step]: [max(bet, -1)]. *)
Definition bet_of (d : decision) : Z := Z.max (snd d) (-1).

Definition reset_flags (t : table) : table :=
  {| seats := (fun p => set_vpip (vpip_hands p) false p) <$> seats t;
     t_rnd := t_rnd t; t_net := t_net t |}.

(** One turn of the loop of [play_hand]: the decision of the acting player,
    or [None] when the acting seat is not one of [players] (the loop then
    passes [obs['call']] on without asking anyone). *)
Definition decide_at (num_p hand_num : Z) (pt : point) (t : table)
  : outcome (option decision) * table :=
  let '(i, obs, street_idx) := pt in
  match seats t !! i with
  | None => (Ret None, t)
  | Some p =>
      let '(r, c) := decide obs street_idx num_p hand_num
                       {| self := p; rnd := t_rnd t; net := t_net t |} in
      (match r with Ret d => Ret (Some d) | Raise e => Raise e end,
       {| seats := <[i := self c]> (seats t);
          t_rnd := rnd c; t_net := net c |})
  end.

(** The decisions taken at a sequence of decision points, in order; an
    exception raised by a decision leaves the loop. *)
Fixpoint decisions (num_p hand_num : Z) (pts : list point) (t : table)
  : outcome (list decision) * table :=
  match pts with
  | [] => (Ret [], t)
  | pt :: rest =>
      match decide_at num_p hand_num pt t with
      | (Ret d, t') =>
          match decisions num_p hand_num rest t' with
          | (Ret ds, t'') => (Ret (from_option (fun x => [x]) [] d ++ ds), t'')
          | (Raise e, t'') => (Raise e, t'')
          end
      | (Raise e, t') => (Raise e, t')
      end
  end.

Definition hand (num_p hand_num : Z) (pts : list point) (t : table)
  : outcome (list decision) * table :=
  decisions num_p hand_num pts (reset_flags t).

End WithWorld.

(** The same table with every player in oracle mode ([false]) or in
    heuristic mode ([true]). *)
Definition with_mode (fast : bool) (t : table) : table :=
  {| seats := set_fast_mode fast <$> seats t;
     t_rnd := t_rnd t; t_net := t_net t |}.

(** An advisor none of whose exchanges succeeds. *)
Definition always_fails (advisor : nat -> request -> reply) : Prop :=
  forall n gs, exists e, advisor n gs = Failed e.

(** A decision point at which a player in oracle mode turns to the
    advisor: a street after the first, with at least three board cards. *)
Definition consults_at (i : nat) (pt : point) : bool :=
  let '(j, obs, street_idx) := pt in
  Nat.eqb i j && negb (street_idx =? 0)%Z
  && (3 <=? len (o_community_cards obs))%Z.

Definition consultations (i : nat) (pts : list point) : Z :=
  len (List.filter (consults_at i) pts).

End Omaha.

(** ** Predicates used to state properties of the Omaha player *)

Module OmahaSpec.
Import Py Scorer Policy Advisor Omaha.

(** A weakest-precondition reading of [M]. *)
Definition wp {A} (m : M A) (Q : outcome A -> ctx -> Prop) (s : ctx) : Prop :=
  Q (fst (m s)) (snd (m s)).

(** A returned decision is legal, the fold being the engine's sentinel -1. *)
Definition returns_legal (call mnr mxr : Z) : outcome decision -> ctx -> Prop :=
  fun r _ => match r with
             | Ret d => legal (-1) call mnr mxr d
             | Raise _ => True
             end.

(** The voluntary-entry counter stands at [v0], plus one if the per-hand
    flag is set. *)
Definition vpip_inv (v0 : Z) (p : player) : Prop :=
  vpip_hands p = (v0 + (if vpip_this_hand p then 1 else 0))%Z.

Definition keeps_vpip (v0 : Z) {A} : outcome A -> ctx -> Prop :=
  fun _ s' => vpip_inv v0 (self s').

(** Changing the mode, the error counter and the request counter only. *)
Definition tweak (b : bool) (g : Z -> Z) (n : nat -> nat) (s : ctx) : ctx :=
  {| self := set_fast_mode b (set_api_errors g (self s));
     rnd := rnd s; net := n (net s) |}.

(** A computation that neither reads nor writes the mode, the error
    counter and the request counter. *)
Definition blind {A} (m : M A) : Prop :=
  forall b g n s, m (tweak b g n s) = (fst (m s), tweak b g n (snd (m s))).

(** The mode of the player is [b] afterwards. *)
Definition keeps_mode (b : bool) {A} : outcome A -> ctx -> Prop :=
  fun _ s' => fast_mode (self s') = b.

(** [o] is the heuristic-mode player [h] put in oracle mode, up to the
    error counter. *)
Definition oracle_twin (o h : player) : Prop :=
  fast_mode h = true /\
  o = set_fast_mode false (set_api_errors (fun _ => api_errors o) h).

(** Two tables that differ in the mode and the error counters of the
    players and in the number of requests sent. *)
Definition twin_tables (t_o t_h : table) : Prop :=
  Forall2 oracle_twin (seats t_o) (seats t_h) /\ t_rnd t_o = t_rnd t_h.

(** The state in which a failed consultation leaves the player. *)
Definition failed_once (n' : nat) (s : ctx) : ctx :=
  {| self := set_api_errors (Z.add 1) (self s); rnd := rnd s; net := n' |}.

End OmahaSpec.

(* ===================================================================== *)
(** * The style-based player ([StyleBasedTestRunner.py]) *)
(* ===================================================================== *)

Module StyleBased.
Import Py Advisor.

(** One entry of [STYLE_DEFINITIONS]. *)
Record style_definition : Type := {
  sd_name : string;
  threshold : Z;
  vpip : Q;
  aggression : Q
}.

Definition STYLE_DEFINITIONS : list (string * style_definition) :=
  [("rock", {| sd_name := "Rock (Tight-Passive)"; threshold := 75;
               vpip := 0.15; aggression := 0.3 |});
   ("tag",  {| sd_name := "TAG (Tight-Aggressive)"; threshold := 55;
               vpip := 0.25; aggression := 0.7 |});
   ("lag",  {| sd_name := "LAG (Loose-Aggressive)"; threshold := 40;
               vpip := 0.38; aggression := 0.8 |})]%Q.

Definition HAND_SCORE_APPROXIMATIONS : list (string * Z) :=
  [("high_pair", 90); ("medium_pair", 60); ("low_pair", 35);
   ("suited_connectors", 55); ("suited_broadway", 70); ("random", 25)]%Z.

Definition POSITION_MODIFIERS : list (string * Z) :=
  [("UTG", -15); ("EP", -15); ("MP", -8); ("CO", 0); ("BTN", 12);
   ("button", 12); ("SB", -5); ("blind", -5); ("BB", -2)]%Z.

(** ** What the game engine hands over *)

(** An entry of [valid_actions]: the engine offers a fold, a call with its
    amount, and a raise with the range of its amount. *)
Inductive valid_action : Type :=
| ValidFold
| ValidCall (amount : Z)
| ValidRaise (min max : Z).

(** [next((a for a in valid_actions if a["action"] == "call"), None)],
    read at ["amount"]. *)
Fixpoint call_action (valid_actions : list valid_action) : option Z :=
  match valid_actions with
  | [] => None
  | ValidCall amount :: _ => Some amount
  | _ :: t => call_action t
  end.

Fixpoint raise_action (valid_actions : list valid_action) : option (Z * Z) :=
  match valid_actions with
  | [] => None
  | ValidRaise mn mx :: _ => Some (mn, mx)
  | _ :: t => raise_action t
  end.

(** The truth value of the entry found ([None] when there is none). *)
Definition found {A} (o : option A) : bool :=
  match o with Some _ => true | None => false end.

Record seat : Type := {
  seat_uuid : string;
  seat_name : string;
  seat_stack : Z;
  seat_state : string
}.

Record round_state : Type := {
  rs_street : string;
  community_card : list string;
  pot_main_amount : Z;
  seats : list seat
}.

(** ** The player object *)

Record SessionStats : Type := {
  hands_played : Z;
  hands_won : Z;
  total_profit : Z;
  advisor_calls : Z;
  api_errors : Z;
  actions : gmap string Z;
  streets_reached : gmap string Z;
  profits_by_street : gmap string Z
}.

(** The keys of [current_hand] that are read back. *)
Record hand_notes : Type := {
  note_street : option string;
  note_stack_before : option Z
}.

(** The attributes of a [HandRecord] that the analysis reads. *)
Record HandRecord : Type := {
  street_reached : string;
  stack_before : Z;
  stack_after : Z;
  profit_loss : Z;
  won : bool
}.

Record player : Type := {
  uuid : string;
  style : string;
  style_def : style_definition;
  stats : SessionStats;
  current_hand : hand_notes;
  hand_records : list HandRecord;
  initial_stack : Z
}.

(** [StyleBasedPlayer(style)]: raises [ValueError] for an unknown style. *)
Definition new_player (id st : string) : outcome player :=
  match assoc_get STYLE_DEFINITIONS st with
  | None => Raise ValueError
  | Some d =>
      Ret {| uuid := id; style := st; style_def := d;
             stats := {| hands_played := 0; hands_won := 0; total_profit := 0;
                         advisor_calls := 0; api_errors := 0; actions := ∅;
                         streets_reached := ∅; profits_by_street := ∅ |};
             current_hand := {| note_street := None;
                                note_stack_before := None |};
             hand_records := []; initial_stack := 10000 |}
  end.

Definition with_stats (f : SessionStats -> SessionStats) (p : player) : player :=
  {| uuid := uuid p; style := style p; style_def := style_def p;
     stats := f (stats p); current_hand := current_hand p;
     hand_records := hand_records p; initial_stack := initial_stack p |}.

Definition with_notes (n : hand_notes) (p : player) : player :=
  {| uuid := uuid p; style := style p; style_def := style_def p;
     stats := stats p; current_hand := n;
     hand_records := hand_records p; initial_stack := initial_stack p |}.

Definition with_records (l : list HandRecord) (p : player) : player :=
  {| uuid := uuid p; style := style p; style_def := style_def p;
     stats := stats p; current_hand := current_hand p;
     hand_records := l; initial_stack := initial_stack p |}.

Definition incr (k : string) (d : gmap string Z) : gmap string Z :=
  <[k := (default 0 (d !! k) + 1)%Z]> d.

Definition add_at (k : string) (x : Z) (d : gmap string Z) : gmap string Z :=
  <[k := (default 0 (d !! k) + x)%Z]> d.

Definition count_action (a : string) (s : SessionStats) : SessionStats :=
  {| hands_played := hands_played s; hands_won := hands_won s;
     total_profit := total_profit s; advisor_calls := advisor_calls s;
     api_errors := api_errors s; actions := incr a (actions s);
     streets_reached := streets_reached s;
     profits_by_street := profits_by_street s |}.

Definition count_street (st : string) (s : SessionStats) : SessionStats :=
  {| hands_played := hands_played s; hands_won := hands_won s;
     total_profit := total_profit s; advisor_calls := advisor_calls s;
     api_errors := api_errors s; actions := actions s;
     streets_reached := incr st (streets_reached s);
     profits_by_street := profits_by_street s |}.

Definition count_advisor_call (s : SessionStats) : SessionStats :=
  {| hands_played := hands_played s; hands_won := hands_won s;
     total_profit := total_profit s;
     advisor_calls := (advisor_calls s + 1)%Z;
     api_errors := api_errors s; actions := actions s;
     streets_reached := streets_reached s;
     profits_by_street := profits_by_street s |}.

Definition count_api_error (s : SessionStats) : SessionStats :=
  {| hands_played := hands_played s; hands_won := hands_won s;
     total_profit := total_profit s; advisor_calls := advisor_calls s;
     api_errors := (api_errors s + 1)%Z; actions := actions s;
     streets_reached := streets_reached s;
     profits_by_street := profits_by_street s |}.

Definition count_hand (s : SessionStats) : SessionStats :=
  {| hands_played := (hands_played s + 1)%Z; hands_won := hands_won s;
     total_profit := total_profit s; advisor_calls := advisor_calls s;
     api_errors := api_errors s; actions := actions s;
     streets_reached := streets_reached s;
     profits_by_street := profits_by_street s |}.

Definition count_result (is_won : bool) (profit : Z) (street : string)
  (s : SessionStats) : SessionStats :=
  {| hands_played := hands_played s;
     hands_won := if is_won then (hands_won s + 1)%Z else hands_won s;
     total_profit := (total_profit s + profit)%Z;
     advisor_calls := advisor_calls s;
     api_errors := api_errors s; actions := actions s;
     streets_reached := streets_reached s;
     profits_by_street := add_at street profit (profits_by_street s) |}.

(** ** The advisor's reply *)

Inductive reply : Type :=
| Failed (e : exn)           (* the exchange raises: timeout, transport or
                                HTTP error, body that is not JSON *)
| Garbled (e : exn)          (* a payload from which the recommendation
                                cannot be read: raised after the
                                advisor-call counter is incremented *)
| Advice (action : string) (confidence : Q) (sizing : sizing_hint).

(** ** State threaded through a decision *)

Record ctx : Type := { self : player; rnd : nat; net : nat }.

Definition M (A : Type) : Type := ctx -> outcome A * ctx.

#[global] Instance M_ret : MRet M := fun A a s => (Ret a, s).
#[global] Instance M_bind : MBind M := fun A B k m s =>
  match m s with
  | (Ret a, s') => k a s'
  | (Raise e, s') => (Raise e, s')
  end.

Definition raise {A} (e : exn) : M A := fun s => (Raise e, s).
Definition lift {A} (o : outcome A) : M A := fun s => (o, s).

Definition try_except {A} (body handler : M A) : M A := fun s =>
  match body s with
  | (Ret a, s') => (Ret a, s')
  | (Raise _, s') => handler s'
  end.

Definition get_self : M player := fun s => (Ret (self s), s).

Definition modify (f : player -> player) : M unit := fun s =>
  (Ret tt, {| self := f (self s); rnd := rnd s; net := net s |}).

Definition decision : Type := string * Z.

Section WithWorld.

Variable draws : nat -> Q.
Variable advisor : nat -> request -> reply.

Definition random : M Q := fun s =>
  (Ret (draws (rnd s)), {| self := self s; rnd := S (rnd s); net := net s |}).

Definition post (gs : request) : M reply := fun s =>
  (Ret (advisor (net s) gs),
   {| self := self s; rnd := rnd s; net := S (net s) |}).

(** [_record_action]: the counter of the action; the two keys it writes
    into [current_hand] are not read by the code modelled here. *)
Definition _record_action (action : string) (amount : Z) : M unit :=
  modify (with_stats (count_action action)).

(** [c[0]] and [c[1:]] on a card such as ["SA"]. *)
Definition head_char (c : string) : outcome string :=
  match c with
  | EmptyString => Raise IndexError
  | String a _ => Ret (String a EmptyString)
  end.

Definition tail_chars (c : string) : string :=
  match c with
  | EmptyString => EmptyString
  | String _ t => t
  end.

Fixpoint each {A B} (f : A -> outcome B) (l : list A) : outcome (list B) :=
  match l with
  | [] => Ret []
  | x :: t => y ← f x; ys ← each f t; Ret (y :: ys)
  end.

Definition in_list (s : string) (l : list string) : bool :=
  existsb (String.eqb s) l.

Definition distinct (l : list string) : Z := len (counter String.eqb l).

(** [HAND_SCORE_APPROXIMATIONS[k]] for a key of the table. *)
Definition approximation (k : string) : Z :=
  default 0%Z (assoc_get HAND_SCORE_APPROXIMATIONS k).

Definition _estimate_hand_score (hole_card : list string) : outcome Z :=
  let ranks := map tail_chars hole_card in
  suits ← each head_char hole_card;
  if (distinct ranks <? len ranks)%Z then
    if in_list "A" ranks || in_list "K" ranks
    then Ret (approximation "high_pair")
    else if in_list "Q" ranks || in_list "J" ranks
    then Ret (approximation "medium_pair")
    else Ret (approximation "low_pair")
  else
    let is_suited := (distinct suits <? len suits)%Z in
    let broadway := ["A"; "K"; "Q"; "J"; "T"] in
    let broadway_count :=
      len (List.filter (fun r => in_list r broadway) ranks) in
    if is_suited && (2 <=? broadway_count)%Z
    then Ret (approximation "suited_broadway")
    else if is_suited then Ret (approximation "suited_connectors")
    else if (2 <=? broadway_count)%Z then Ret 50%Z
    else Ret (approximation "random").

(** The index of the first seat with the player's [uuid]. *)
Fixpoint seat_index (id : string) (l : list seat) (i : Z) : option (Z * seat) :=
  match l with
  | [] => None
  | s :: t => if String.eqb (seat_uuid s) id then Some (i, s)
              else seat_index id t (i + 1)%Z
  end.

Definition _get_position (p : player) (rs : round_state) : string :=
  let num_players := len (seats rs) in
  match seat_index (uuid p) (seats rs) 0 with
  | Some (i, _) =>
      if (i =? 0)%Z then "BTN"
      else if (i =? num_players - 1)%Z then "BB"
      else if (i =? num_players - 2)%Z then "SB"
      else if (i <=? num_players / 3)%Z then "EP"
      else if (i <=? 2 * num_players / 3)%Z then "MP"
      else "CO"
  | None => "MP"
  end.

Definition _get_my_stack (p : player) (rs : round_state) : Z :=
  match seat_index (uuid p) (seats rs) 0 with
  | Some (_, s) => seat_stack s
  | None => initial_stack p
  end.

Definition _preflop_action (valid_actions : list valid_action)
  (hole_card : list string) (rs : round_state) : M decision :=
  p ← get_self;
  hand_score ← lift (_estimate_hand_score hole_card);
  let position := _get_position p rs in
  let position_mod := default 0%Z (assoc_get POSITION_MODIFIERS position) in
  let adjusted_score := (hand_score + position_mod)%Z in
  let threshold := threshold (style_def p) in
  let aggression := aggression (style_def p) in
  let call_amount := default 0%Z (call_action valid_actions) in
  let below :=
    if found (call_action valid_actions) && (call_amount =? 0)%Z then
      _ ← _record_action "call" 0; mret ("call", 0%Z)
    else if found (call_action valid_actions) && (call_amount <=? 10)%Z
            && (threshold - 20 <=? adjusted_score)%Z then
      _ ← _record_action "call" call_amount; mret ("call", call_amount)
    else
      _ ← _record_action "fold" 0; mret ("fold", 0%Z) in
  let or_call :=
    if found (call_action valid_actions) then
      _ ← _record_action "call" call_amount; mret ("call", call_amount)
    else below in
  if (threshold <=? adjusted_score)%Z then
    match raise_action valid_actions with
    | Some (min_raise, max_raise) =>
        r ← random;
        if ltb r aggression then
          let raise_mult :=
            if String.eqb (style p) "rock" then 2.5%Q
            else if String.eqb (style p) "tag" then 3.0%Q else 3.5%Q in
          let raise_amt :=
            Z.min (int_of (fl call_amount * raise_mult + 10)%Q) max_raise in
          let raise_amt := Z.max raise_amt min_raise in
          _ ← _record_action "raise" raise_amt;
          mret ("raise", raise_amt)
        else or_call
    | None => or_call
    end
  else below.

(** [sizing.get("optimal", min_r)] with no test of [sizing] before it, as
    the branch for the style [lag] has it. *)
Definition get_optimal (sizing : sizing_hint) (min_r : Z) : outcome optimal_val :=
  match sizing with
  | SizingEmpty => Ret (OptInt min_r)
  | SizingDict OptMissing => Ret (OptInt min_r)
  | SizingDict o => Ret o
  | SizingNull | SizingOther => Raise AttributeError
  end.

(** [sizing.get("optimal", min_r) if sizing else min_r]. *)
Definition get_optimal_if (sizing : sizing_hint) (min_r : Z) : outcome optimal_val :=
  match sizing with
  | SizingEmpty | SizingNull => Ret (OptInt min_r)
  | SizingDict OptMissing => Ret (OptInt min_r)
  | SizingDict o => Ret o
  | SizingOther => Raise AttributeError
  end.

(** [int(opt)]. *)
Definition int_optimal (o : optimal_val) (min_r : Z) : outcome Z :=
  match o with
  | OptInt z => Ret z
  | OptMissing => Ret min_r
  | OptInvalid => Raise ValueError
  end.

Definition _execute_action (action : string) (sizing : sizing_hint)
  (valid_actions : list valid_action) : outcome decision :=
  let call_or_fold :=
    match call_action valid_actions with
    | Some amount => Ret ("call", amount)
    | None => Ret ("fold", 0%Z)
    end in
  if String.eqb action "fold" then Ret ("fold", 0%Z)
  else if in_list action ["call"; "check"] then call_or_fold
  else if in_list action ["raise"; "bet"] then
    match raise_action valid_actions with
    | Some (min_r, max_r) =>
        opt ← get_optimal_if sizing min_r;
        z ← int_optimal opt min_r;
        Ret ("raise", Z.max min_r (Z.min z max_r))
    | None => call_or_fold
    end
  else
    match call_action valid_actions with
    | Some 0%Z => Ret ("call", 0%Z)
    | _ => Ret ("fold", 0%Z)
    end.

Definition _apply_style_adjustment (advisor_action : string) (confidence : Q)
  (sizing : sizing_hint) (valid_actions : list valid_action) : M decision :=
  p ← get_self;
  let aggression := aggression (style_def p) in
  let default_action :=
    lift (_execute_action advisor_action sizing valid_actions) in
  if String.eqb (style p) "rock" && in_list advisor_action ["raise"; "bet"]
  then
    soften ← (if ltb confidence 0.7%Q then mret true
              else r ← random; mret (gtb r aggression));
    match soften : bool, call_action valid_actions with
    | true, Some amount => mret ("call", amount)
    | _, _ => default_action
    end
  else if String.eqb (style p) "lag" && String.eqb advisor_action "call"
  then
    push ← (if gtb confidence 0.4%Q
            then r ← random; mret (ltb r aggression)
            else mret false);
    match push : bool, raise_action valid_actions with
    | true, Some (min_r, max_r) =>
        opt ← lift (get_optimal sizing min_r);
        z ← lift (int_optimal opt min_r);
        mret ("raise", Z.max (Z.min z max_r) min_r)
    | _, _ => default_action
    end
  else if String.eqb (style p) "tag" && in_list advisor_action ["raise"; "bet"]
          && gtb confidence 0.6%Q
  then
    match raise_action valid_actions with
    | Some (min_r, max_r) =>
        opt ← lift (get_optimal_if sizing min_r);
        z ← lift (int_optimal opt min_r);
        mret ("raise", Z.max min_r (Z.min z max_r))
    | None => default_action
    end
  else default_action.

(** [convert_card] of [_build_request]. *)
Definition lower_ascii (a : ascii) : ascii :=
  let n := nat_of_ascii a in
  if (65 <=? n)%nat && (n <=? 90)%nat then ascii_of_nat (n + 32) else a.

Fixpoint lower (s : string) : string :=
  match s with
  | EmptyString => EmptyString
  | String a t => String (lower_ascii a) (lower t)
  end.

Definition convert_card (card : string) : outcome string :=
  c0 ← head_char card;
  let suit :=
    default (lower c0)
      (assoc_get [("C", "c"); ("D", "d"); ("H", "h"); ("S", "s")] c0) in
  let rank :=
    if String.eqb (tail_chars card) "T" then "10" else tail_chars card in
  Ret (rank ++ suit)%string.

(** [while len(hole_cards) < 4: hole_cards.append("2c")]. *)
Definition pad4 (l : list string) : list string :=
  l ++ repeat "2c" (4 - length l).

Definition _build_request (p : player) (hole_card : list string)
  (rs : round_state) (valid_actions : list valid_action) : outcome request :=
  let my_stack := _get_my_stack p rs in
  hole_cards ← each convert_card hole_card;
  board ← each convert_card (community_card rs);
  let hole_cards := pad4 hole_cards in
  let call_amount := default 0%Z (call_action valid_actions) in
  let active :=
    len (List.filter (fun s => String.eqb (seat_state s) "participating")
                     (seats rs)) in
  Ret {| gameVariant := 4; rq_street := rs_street rs;
         holeCards := hole_cards; Advisor.board := board;
         rq_position := _get_position p rs; playersInHand := active;
         potSize := pot_main_amount rs; toCall := call_amount;
         stackSize := my_stack; rq_style := style p |}.

(** The body of the [try] block of [_postflop_action]. *)
Definition consult (valid_actions : list valid_action)
  (hole_card : list string) (rs : round_state) : M decision :=
  p ← get_self;
  game_state ← lift (_build_request p hole_card rs valid_actions);
  resp ← post game_state;
  match resp with
  | Failed e => raise e
  | Garbled e => _ ← modify (with_stats count_advisor_call); raise e
  | Advice action confidence sizing =>
      _ ← modify (with_stats count_advisor_call);
      d ← _apply_style_adjustment action confidence sizing valid_actions;
      _ ← _record_action (fst d) (snd d);
      mret d
  end.

(** The [except] block: one more error, then call if free, else fold. *)
Definition handle_failure (valid_actions : list valid_action) : M decision :=
  _ ← modify (with_stats count_api_error);
  match call_action valid_actions with
  | Some 0%Z => mret ("call", 0%Z)
  | _ => mret ("fold", 0%Z)
  end.

Definition _postflop_action (valid_actions : list valid_action)
  (hole_card : list string) (rs : round_state) : M decision :=
  try_except (consult valid_actions hole_card rs) (handle_failure valid_actions).

Definition declare_action (valid_actions : list valid_action)
  (hole_card : list string) (rs : round_state) : M decision :=
  p ← get_self;
  let street := rs_street rs in
  let my_stack := _get_my_stack p rs in
  _ ← modify (with_notes {| note_street := Some street;
                            note_stack_before := Some my_stack |});
  _ ← modify (with_stats (count_street street));
  if (len (community_card rs) <? 3)%Z
  then _preflop_action valid_actions hole_card rs
  else _postflop_action valid_actions hole_card rs.

End WithWorld.

(** ** The callbacks that keep the books *)

Definition receive_round_start_message (p : player) : player :=
  with_notes {| note_street := None; note_stack_before := None |}
    (with_stats count_hand p).

Definition receive_round_result_message (is_won : bool) (rs : round_state)
  (p : player) : player :=
  let final_stack := _get_my_stack p rs in
  let before :=
    default (initial_stack p) (note_stack_before (current_hand p)) in
  let profit := (final_stack - before)%Z in
  let street := default "preflop" (note_street (current_hand p)) in
  let record := {| street_reached := street; stack_before := before;
                   stack_after := final_stack; profit_loss := profit;
                   won := is_won |} in
  with_records (hand_records p ++ [record])
    (with_stats (count_result is_won profit street) p).

End StyleBased.

(** ** Predicates used to state properties of the style-based player *)

Module StyleBasedSpec.
Import Py Advisor StyleBased.

(** What a computation returns satisfies [P]; nothing is said when it
    raises. *)
Definition returned {A} (P : A -> Prop) (r : outcome A * ctx) : Prop :=
  match fst r with
  | Ret a => P a
  | Raise _ => True
  end.

(** An advisor none of whose exchanges succeeds. *)
Definition every_exchange_fails (advisor : nat -> request -> reply) : Prop :=
  forall n gs, exists e, advisor n gs = Failed e.

(** A decision is legal for the offered actions: a fold carrying 0, a call
    carrying the amount of the offered call, or a raise within the offered
    range. *)
Definition legal_for (valid_actions : list valid_action) (d : decision) : Prop :=
  (fst d = "fold" /\ snd d = 0%Z) \/
  (fst d = "call" /\ call_action valid_actions = Some (snd d)) \/
  (fst d = "raise" /\
   exists mn mx, raise_action valid_actions = Some (mn, mx) /\
                 (mn <= snd d)%Z /\ (snd d <= mx)%Z).

(** The offered raise range is not empty. *)
Definition range_ok (valid_actions : list valid_action) : Prop :=
  forall mn mx, raise_action valid_actions = Some (mn, mx) -> (mn <= mx)%Z.

(** The books agree with the records: one hand counted per record, and
    the total profit is the sum of the recorded profits. *)
Definition consistent (p : player) : Prop :=
  hands_played (stats p) = len (hand_records p) /\
  total_profit (stats p) = Py.sum (profit_loss <$> hand_records p).

End StyleBasedSpec.

(* ===================================================================== *)
(** * The Omaha test run ([OmahaTestRunner.py], [run_omaha_test]) *)
(* ===================================================================== *)

Module OmahaRun.
Import Py Scorer Advisor Omaha.

(** [[OmahaPlayer(i, styles[i], variant, fast_mode=fast_mode)
      for i in range(num_p)]] with one style per seat; [None] when a
    style is not in [STYLES]. *)
Fixpoint players_from (i : nat) (styles : list string) (variant : nat)
  (fast : bool) : option (list player) :=
  match styles with
  | [] => Some []
  | st :: rest =>
      p ← new_player i st variant fast;
      ps ← players_from (S i) rest variant fast;
      Some (p :: ps)
  end.

(** The table at which such players sit down, nothing drawn or sent yet. *)
Definition table_of (ps : list player) : table :=
  {| seats := ps; t_rnd := 0; t_net := 0 |}.

(** The player has the same counters of advisor calls and errors as [p],
    and is in heuristic mode. *)
Definition quiet (p p' : player) : Prop :=
  fast_mode p' = true /\
  advisor_calls p' = advisor_calls p /\
  api_errors p' = api_errors p.

(** The voluntary-entry counter of [p'] is that of [p], plus one if the
    flag of the hand is set. *)
Definition entered_at_most_once (p p' : player) : Prop :=
  vpip_hands p' = (vpip_hands p + (if vpip_this_hand p' then 1 else 0))%Z.

(** The counters that [decide] may touch: the action just taken and the
    street just played. *)
Definition counted (street : string) (d : decision) (p p' : player) : Prop :=
  actions p' = incr (fst d) (actions p) /\
  streets p' = incr street (streets p).

(** Between [s] and [s'] no request was sent, no advisor call and no
    error was counted, and the mode was not changed. *)
Definition sends_nothing (s s' : ctx) : Prop :=
  net s' = net s /\
  advisor_calls (self s') = advisor_calls (self s) /\
  api_errors (self s') = api_errors (self s) /\
  fast_mode (self s') = fast_mode (self s).

End OmahaRun.

(* ===================================================================== *)
(** * A round as the style-based player sees it *)
(* ===================================================================== *)

Module StyleBasedRun.
Import Py Advisor StyleBased.

(** The state in which a freshly built player starts. *)
Definition seated (o : outcome player) : option ctx :=
  match o with
  | Ret p => Some {| self := p; rnd := 0; net := 0 |}
  | Raise _ => None
  end.

(** One call of [declare_action] by the engine: the offered actions, the
    hole cards and the round state. *)
Definition call : Type := list valid_action * list string * round_state.

Section WithWorld.
Variable draws : nat -> Q.
Variable advisor : nat -> request -> reply.

(** The state after the engine's calls of [declare_action] in a round. *)
Definition declare_all (calls : list call) (s : ctx) : ctx :=
  fold_left
    (fun s c => snd (declare_action draws advisor (fst (fst c)) (snd (fst c))
                       (snd c) s))
    calls s.

(** One round: [receive_round_start_message], the player's decisions,
    [receive_round_result_message]. *)
Definition play_round (calls : list call) (is_won : bool)
  (final : round_state) (s : ctx) : ctx :=
  let s1 := {| self := receive_round_start_message (self s);
               rnd := rnd s; net := net s |} in
  let s2 := declare_all calls s1 in
  {| self := receive_round_result_message is_won final (self s2);
     rnd := rnd s2; net := net s2 |}.

(** A session: one round after the other.  A round is the engine's calls
    of [declare_action], whether the player is among the winners, and the
    round state at the end. *)
Definition play_session (rounds : list (list call * bool * round_state))
  (s : ctx) : ctx :=
  fold_left (fun s r => play_round (fst (fst r)) (snd (fst r)) (snd r) s)
            rounds s.

End WithWorld.

(** What a decision leaves alone: the identity of the player, the records
    and the counters of hands, wins and profit. *)
Definition books_kept (p p' : player) : Prop :=
  uuid p' = uuid p /\ initial_stack p' = initial_stack p /\
  style p' = style p /\ style_def p' = style_def p /\
  hand_records p' = hand_records p /\
  hands_played (stats p') = hands_played (stats p) /\
  hands_won (stats p') = hands_won (stats p) /\
  total_profit (stats p') = total_profit (stats p) /\
  profits_by_street (stats p') = profits_by_street (stats p).

(** The player is who it was. *)
Definition books_kept_id (p p' : player) : Prop :=
  uuid p' = uuid p /\ initial_stack p' = initial_stack p.

(** The same, and the notes on the current hand are kept too. *)
Definition untouched (s s' : ctx) : Prop :=
  books_kept (self s) (self s') /\
  current_hand (self s') = current_hand (self s).

(** The stack from which [receive_round_result_message] measures the
    profit of a round: the one seen at the last decision of the round, or
    the initial stack of the game when the player made no decision. *)
Definition measured_from (p : player) (calls : list call) : Z :=
  match last calls with
  | Some c => _get_my_stack p (snd c)
  | None => initial_stack p
  end.

(** The values that [_estimate_hand_score] can return. *)
Definition hand_scores : list Z := [90; 60; 35; 70; 55; 50; 25]%Z.

End StyleBasedRun.

(* ===================================================================== *)
(** * Analysis of the results ([analyze_results], [run_omaha_test]) *)
(* ===================================================================== *)

Module Analysis.
Import Py.

Section WithRounding.

(** [round(x, ndigits)]: the rounding of a float to a number of decimals.
    Only its being non-decreasing matters in what follows. *)
Variable round_ : nat -> R -> R.

Open Scope R_scope.

(** ** [SessionStats] and [analyze_results] of the style-based runner *)

(** The property [win_rate]. *)
Definition win_rate (s : StyleBased.SessionStats) : outcome R :=
  if (0 <? StyleBased.hands_played s)%Z
  then PyR.truediv (PyR.fl (StyleBased.hands_won s))
                   (PyR.fl (StyleBased.hands_played s))
  else Ret 0.

(** The property [bb_per_100]. *)
Definition bb_per_100 (s : StyleBased.SessionStats) : outcome R :=
  if (StyleBased.hands_played s =? 0)%Z then Ret 0
  else PyR.truediv (PyR.fl (StyleBased.total_profit s) / 20)
                   (PyR.fl (StyleBased.hands_played s) / 100).

(** The standard deviation and the two bounds of the interval, in big
    blinds per 100 hands, before they are rounded. *)
Definition interval_bb100 (profits : list Z) (bb100 : R)
  : outcome (R * R * R) :=
  if (1 <? len profits)%Z then
    mean_profit ← PyR.truediv (PyR.fl (Py.sum profits)) (PyR.fl (len profits));
    variance ← PyR.truediv (PyR.sum_sq_dev profits mean_profit)
                           (PyR.fl (len profits - 1));
    std_dev ← PyR.math_sqrt variance;
    root ← PyR.math_sqrt (PyR.fl (len profits));
    std_error ← PyR.truediv std_dev root;
    let ci_lower := mean_profit - 1.96 * std_error in
    let ci_upper := mean_profit + 1.96 * std_error in
    let ci_lower_bb100 := (ci_lower / 20) * 100 in
    let ci_upper_bb100 := (ci_upper / 20) * 100 in
    Ret (std_dev, ci_lower_bb100, ci_upper_bb100)
  else Ret (0, bb100, bb100).

(** The numbers of one entry of the result (the style name and the
    formatted win rate are left out; [win_rate_pct] is the number that is
    formatted). *)
Record analysis : Type := {
  a_hands : Z;
  a_wins : Z;
  a_win_rate_pct : R;
  a_total_profit : Z;
  a_bb_per_100 : R;
  a_ci_lower : R;
  a_ci_upper : R;
  a_std_dev : R;
  a_advisor_calls : Z;
  a_api_errors : Z;
  a_actions : gmap string Z;
  a_streets_reached : gmap string Z;
  a_profits_by_street : gmap string Z
}.

Definition analyze_player (p : StyleBased.player) : outcome analysis :=
  let stats := StyleBased.stats p in
  let records := StyleBased.hand_records p in
  bb100 ← bb_per_100 stats;
  sdci ← interval_bb100 (StyleBased.profit_loss <$> records) bb100;
  wr ← win_rate stats;
  Ret {| a_hands := StyleBased.hands_played stats;
         a_wins := StyleBased.hands_won stats;
         a_win_rate_pct := wr * 100;
         a_total_profit := StyleBased.total_profit stats;
         a_bb_per_100 := round_ 2 bb100;
         a_ci_lower := round_ 2 (snd (fst sdci));
         a_ci_upper := round_ 2 (snd sdci);
         a_std_dev := round_ 2 (fst (fst sdci));
         a_advisor_calls := StyleBased.advisor_calls stats;
         a_api_errors := StyleBased.api_errors stats;
         a_actions := StyleBased.actions stats;
         a_streets_reached := StyleBased.streets_reached stats;
         a_profits_by_street := StyleBased.profits_by_street stats |}.

(** [analyze_results]: one entry per style, written player after
    player. *)
Fixpoint analyze_results (players : list StyleBased.player)
  (results : gmap string analysis) : outcome (gmap string analysis) :=
  match players with
  | [] => Ret results
  | p :: rest =>
      a ← analyze_player p;
      analyze_results rest (<[StyleBased.style p := a]> results)
  end.

(** ** The books of [run_omaha_test] *)

(** The loop over the players after a hand: for each seat the hand is
    counted, then the profit of the seat is read and entered in the
    player's books.  A seat without a profit ends the loop with an
    IndexError after its hand was counted; [run_omaha_test] swallows the
    exception, and what was written before stays. *)
Definition count_hand (p : Omaha.player) : Omaha.player :=
  {| Omaha.idx := Omaha.idx p; Omaha.style := Omaha.style p;
     Omaha.sd := Omaha.sd p; Omaha.variant := Omaha.variant p;
     Omaha.fast_mode := Omaha.fast_mode p;
     Omaha.threshold := Omaha.threshold p;
     Omaha.hands := (Omaha.hands p + 1)%Z;
     Omaha.wins := Omaha.wins p;
     Omaha.profit := Omaha.profit p;
     Omaha.advisor_calls := Omaha.advisor_calls p;
     Omaha.api_errors := Omaha.api_errors p;
     Omaha.actions := Omaha.actions p; Omaha.streets := Omaha.streets p;
     Omaha.per_hand := Omaha.per_hand p;
     Omaha.vpip_hands := Omaha.vpip_hands p;
     Omaha.vpip_this_hand := Omaha.vpip_this_hand p |}.

Definition enter_profit (pr : Z) (p : Omaha.player) : Omaha.player :=
  {| Omaha.idx := Omaha.idx p; Omaha.style := Omaha.style p;
     Omaha.sd := Omaha.sd p; Omaha.variant := Omaha.variant p;
     Omaha.fast_mode := Omaha.fast_mode p;
     Omaha.threshold := Omaha.threshold p;
     Omaha.hands := Omaha.hands p;
     Omaha.wins := if (0 <? pr)%Z then (Omaha.wins p + 1)%Z
                   else Omaha.wins p;
     Omaha.profit := (Omaha.profit p + pr)%Z;
     Omaha.advisor_calls := Omaha.advisor_calls p;
     Omaha.api_errors := Omaha.api_errors p;
     Omaha.actions := Omaha.actions p; Omaha.streets := Omaha.streets p;
     Omaha.per_hand := Omaha.per_hand p ++ [pr];
     Omaha.vpip_hands := Omaha.vpip_hands p;
     Omaha.vpip_this_hand := Omaha.vpip_this_hand p |}.

Definition enter (pr : Z) (p : Omaha.player) : Omaha.player :=
  enter_profit pr (count_hand p).

Fixpoint settle (profits : list Z) (players : list Omaha.player)
  {struct players} : list Omaha.player :=
  match players with
  | [] => []
  | p :: ps =>
      match profits with
      | pr :: prs => enter pr p :: settle prs ps
      | [] => count_hand p :: ps
      end
  end.

(** The entry of [agg] for one style. *)
Record row : Type := {
  r_hands : Z;
  r_wins : Z;
  r_profit : Z;
  r_actions : gmap string Z;
  r_per_hand : list Z;
  r_streets : gmap string Z;
  r_advisor_calls : Z;
  r_api_errors : Z;
  r_vpip_hands : Z
}.

Definition empty_row : row :=
  {| r_hands := 0; r_wins := 0; r_profit := 0; r_actions := ∅;
     r_per_hand := []; r_streets := ∅; r_advisor_calls := 0;
     r_api_errors := 0; r_vpip_hands := 0 |}.

(** [for k,v in d.items(): a[k] += v] on counters. *)
Definition add_counts (d a : gmap string Z) : gmap string Z :=
  union_with (fun x y => Some (x + y)%Z) a d.

Definition add_player (a : row) (p : Omaha.player) : row :=
  {| r_hands := (r_hands a + Omaha.hands p)%Z;
     r_wins := (r_wins a + Omaha.wins p)%Z;
     r_profit := (r_profit a + Omaha.profit p)%Z;
     r_actions := add_counts (Omaha.actions p) (r_actions a);
     r_per_hand := r_per_hand a ++ Omaha.per_hand p;
     r_streets := add_counts (Omaha.streets p) (r_streets a);
     r_advisor_calls := (r_advisor_calls a + Omaha.advisor_calls p)%Z;
     r_api_errors := (r_api_errors a + Omaha.api_errors p)%Z;
     r_vpip_hands := (r_vpip_hands a + Omaha.vpip_hands p)%Z |}.

(** [agg[style]] after the loop over the players. *)
Definition aggregate (style : string) (players : list Omaha.player) : row :=
  fold_left add_player
    (List.filter (fun p => String.eqb (Omaha.style p) style) players)
    empty_row.

(** The numbers of the result for one style. *)
Record style_result : Type := {
  s_hands : Z;
  s_bb100 : R;
  s_ci_lower : R;
  s_ci_upper : R;
  s_win_rate : R;
  s_flop_pct : R;
  s_vpip : R
}.

(** The body of the loop over the styles: [None] for a style without
    hands, which the loop skips. *)
Definition style_line (a : row) : outcome (option style_result) :=
  let n := r_hands a in
  if (n =? 0)%Z then Ret None
  else
    bb100 ← PyR.truediv (PyR.fl (r_profit a) / 2) (PyR.fl n / 100);
    w ← PyR.truediv (PyR.fl (r_wins a)) (PyR.fl n);
    f ← PyR.truediv (PyR.fl (default 0%Z (r_streets a !! "flop"))) (PyR.fl n);
    v ← PyR.truediv (PyR.fl (r_vpip_hands a)) (PyR.fl n);
    let profs := r_per_hand a in
    ci ← (if (1 <? len profs)%Z then
            m ← PyR.truediv (PyR.fl (Py.sum profs)) (PyR.fl (len profs));
            var ← PyR.truediv (PyR.sum_sq_dev profs m)
                              (PyR.fl (len profs - 1));
            sd ← PyR.math_sqrt var;
            root ← PyR.math_sqrt (PyR.fl (len profs));
            se ← PyR.truediv sd root;
            Ret ((m - 1.96 * se) / 2 * 100, (m + 1.96 * se) / 2 * 100)
          else Ret (bb100, bb100));
    Ret (Some {| s_hands := n; s_bb100 := round_ 1 bb100;
                 s_ci_lower := round_ 1 (fst ci);
                 s_ci_upper := round_ 1 (snd ci);
                 s_win_rate := round_ 1 (w * 100);
                 s_flop_pct := round_ 1 (f * 100);
                 s_vpip := round_ 1 (v * 100) |}).

Close Scope R_scope.
End WithRounding.

(** ** Predicates used to state properties of the analysis *)

(** The books of an Omaha player agree: one hand counted per entry of
    [per_hand], a profit that is the sum of the entries, and a win counted
    per positive entry. *)
Definition tallied (p : Omaha.player) : Prop :=
  Omaha.hands p = len (Omaha.per_hand p) /\
  Omaha.profit p = Py.sum (Omaha.per_hand p) /\
  Omaha.wins p = len (List.filter (fun pr => (0 <? pr)%Z) (Omaha.per_hand p)).

Definition row_tallied (a : row) : Prop :=
  r_hands a = len (r_per_hand a) /\
  r_profit a = Py.sum (r_per_hand a) /\
  r_wins a = len (List.filter (fun pr => (0 <? pr)%Z) (r_per_hand a)).

(** The mean of the samples, in the unit of the interval: a profit of [bb]
    chips is one big blind. *)
Definition mean_bb100 (bb : R) (profits : list Z) : R :=
  (IZR (Py.sum profits) / INR (length profits) / bb * 100)%R.

(** A rounding function is non-decreasing. *)
Definition monotone (round_ : nat -> R -> R) : Prop :=
  forall d x y, (x <= y)%R -> (round_ d x <= round_ d y)%R.

End Analysis.

(* ===================================================================== *)
(** * The loop of [run_omaha_test] over the hands *)
(* ===================================================================== *)

Module OmahaSession.
Import Py Advisor Omaha.

(** What [decide] never writes: who the player is, and the books that
    [run_omaha_test] keeps after each hand. *)
Definition ledger (p : player)
  : nat * string * style_def * nat * bool * Q * (Z * Z * Z * list Z) :=
  (idx p, style p, sd p, variant p, fast_mode p, threshold p,
   (hands p, wins p, profit p, per_hand p)).

(** After the computation the reading [f] of the player is [v]. *)
Definition reads {A} (f : player -> A) (v : A) {B}
  : outcome B -> ctx -> Prop :=
  fun _ s' => f (self s') = v.

(** The action counters after a decision: the key of the decision that
    was returned has been incremented once in the counters [a0], and
    nothing was counted when no decision was returned. *)
Definition acted (a0 : gmap string Z) (r : outcome decision) (s' : ctx)
  : Prop :=
  actions (self s')
  = match r with Ret d => incr (fst d) a0 | Raise _ => a0 end.

(** The action counters after an attempt that did not come to a decision:
    nothing was counted, or the raise that was not made. *)
Definition tried (a0 : gmap string Z) (s' : ctx) : Prop :=
  actions (self s') = a0 \/ actions (self s') = incr "raise" a0.

(** A player of a style that is not in the table, with empty books. *)
Definition blank_player (i : nat) : player :=
  {| idx := i; style := "unknown";
     sd := mk_style "unknown" 0 0 0 0 0 0 0 0 0; variant := 4;
     fast_mode := true; threshold := 50; hands := 0; wins := 0;
     profit := 0; advisor_calls := 0; api_errors := 0; actions := ∅;
     streets := ∅; per_hand := []; vpip_hands := 0;
     vpip_this_hand := false |}.

Section WithWorld.
Variable draws : nat -> Q.
Variable advisor : nat -> request -> reply.

(** One turn of the [while] loop for hand number [hands_done]: the hand is
    played at the given decision points; when [play_hand] returns, its
    profits are entered in the books; when it raises, the hand is skipped.
    Either way the players keep what the decisions did to them. *)
Definition one_hand (num_p : Z) (hands_done : Z)
  (pts : list point) (profits : list Z) (t : table) : table :=
  let '(r, t') := hand draws advisor num_p hands_done pts t in
  match r with
  | Ret _ => {| seats := Analysis.settle profits (seats t');
                t_rnd := t_rnd t'; t_net := t_net t' |}
  | Raise _ => t'
  end.

Fixpoint run_hands (num_p : Z) (hands_done : Z)
  (script : list (list point * list Z)) (t : table) : table :=
  match script with
  | [] => t
  | (pts, profits) :: rest =>
      run_hands num_p (hands_done + 1) rest
        (one_hand num_p hands_done pts profits t)
  end.

End WithWorld.
End OmahaSession.

(* ===================================================================== *)
(** * The trajectory report and the bot that is tracked
      ([TrajectoryAnalyzer.py]) *)
(* ===================================================================== *)

Module TrajectoryReport.
Import Py Trajectory.

(** The hand results that the streak loop counts as won and as lost. *)
Definition positives (l : list Z) : Z :=
  len (List.filter (fun r => (0 <? r)%Z) l).

Definition negatives (l : list Z) : Z :=
  len (List.filter (fun r => (r <? 0)%Z) l).

(** What [compute_metrics] reads, and what it assigns apart from the two
    counters [hands_won] and [hands_lost]. *)
Definition histories (t : PlayerTrajectory)
  : string * string * Z * list Z * list Z * list Z :=
  (name t, strategy t, initial_stack t, stack_history t, profit_history t,
   hand_results t).

Definition metrics (t : PlayerTrajectory)
  : Z * Z * Z * Z * Z * R * R * R * Z * Z :=
  (final_stack t, total_profit t, peak_stack t, min_stack t, max_drawdown t,
   max_drawdown_pct t, volatility t, sharpe_ratio t, longest_win_streak t,
   longest_lose_streak t).

(** What the loop keeps true, with [p] and [n] the numbers of positive and
    of negative results seen so far. *)
Definition streak_inv (w0 l0 : Z) (st : streak_state) (p n : Z) : Prop :=
  (0 <= p /\ 0 <= n /\
   won st = w0 + p /\ lost st = l0 + n /\
   0 <= max_win st <= p /\ 0 <= max_lose st <= n /\
   (0 < p -> 1 <= max_win st) /\ (0 < n -> 1 <= max_lose st) /\
   match is_winning st with
   | Some true => 1 <= current_streak st <= max_win st
   | Some false => 1 <= current_streak st <= max_lose st
   | None => True
   end)%Z.

(** The part of the loop's state that the streaks are read from. *)
Definition streak_shape (st : streak_state) : Z * option bool * Z * Z :=
  (current_streak st, is_winning st, max_win st, max_lose st).

Open Scope R_scope.

(** The values that the three guarded steps of [compute_metrics] assign:
    the drawdown percentage, the volatility and the Sharpe-like ratio,
    with [old] for the value the attribute had before the call. *)
Definition pct_of (peak max_dd : Z) : R :=
  if (0 <? peak)%Z then IZR max_dd / IZR peak * 100 else 0.

Definition vol_of (results : list Z) (old : R) : R :=
  if (1 <? len results)%Z
  then sqrt (PyR.sum_sq_dev results
               (IZR (Py.sum results) / IZR (len results))
             / IZR (len results))
  else old.

Definition sharpe_of (results : list Z) (total : Z) (vol old : R) : R :=
  if Rlt_dec 0 vol
  then if (0 <? len results)%Z
       then IZR total / IZR (len results) / vol
       else old
  else old.

(** The object after a call on a history that is not empty. *)
Definition computed (self : PlayerTrajectory) : PlayerTrajectory :=
  let stacks := stack_history self in
  let results := hand_results self in
  let final := List.last stacks 0%Z in
  let total := (final - initial_stack self)%Z in
  let sc := drawdown_scan (initial_stack self) stacks in
  let vol := vol_of results (volatility self) in
  let st := streak_scan (hands_won self) (hands_lost self) results in
  {| name := name self; strategy := strategy self;
     initial_stack := initial_stack self;
     stack_history := stacks;
     profit_history := profit_history self;
     hand_results := results;
     final_stack := final; total_profit := total;
     peak_stack := fold_left Z.max (tl stacks) (hd 0%Z stacks);
     min_stack := fold_left Z.min (tl stacks) (hd 0%Z stacks);
     max_drawdown := snd sc; max_drawdown_pct := pct_of (fst sc) (snd sc);
     volatility := vol;
     sharpe_ratio := sharpe_of results total vol (sharpe_ratio self);
     longest_win_streak := max_win st;
     longest_lose_streak := max_lose st;
     hands_won := won st; hands_lost := lost st |}.

(** The labels of [classify_trajectory]. *)
Definition decline_labels : list string :=
  ["Volatile decline"; "Steady decline"].

Definition winner_labels : list string :=
  ["Steady accumulation"; "Volatile winner (big swings)";
   "Efficient winner (good Sharpe)"; "Moderate volatility"].

(** [traj.max_drawdown / traj.peak_stack if traj.peak_stack > 0 else 0]. *)
Definition dd_ratio (traj : PlayerTrajectory) : outcome R :=
  if (0 <? peak_stack traj)%Z
  then PyR.truediv (PyR.fl (max_drawdown traj)) (PyR.fl (peak_stack traj))
  else Ret 0.

Definition classify_trajectory (traj : PlayerTrajectory) : outcome string :=
  if (total_profit traj <=? 0)%Z then
    if Rlt_dec 500 (volatility traj) then Ret "Volatile decline"
    else Ret "Steady decline"
  else
    r ← dd_ratio traj;
    let otherwise :=
      if Rlt_dec 0.5 r then Ret "Volatile winner (big swings)"
      else if Rlt_dec 0.1 (sharpe_ratio traj)
           then Ret "Efficient winner (good Sharpe)"
           else Ret "Moderate volatility" in
    if Rlt_dec r 0.2 then
      if Rlt_dec (volatility traj) 300 then Ret "Steady accumulation"
      else otherwise
    else otherwise.

Close Scope R_scope.
End TrajectoryReport.

Module TrajectoryBot.
Import Py.
Import StyleBased (valid_action, call_action, raise_action, found, in_list).
Open Scope Q_scope.

(** A number as the advisor's JSON can hold it and as [min] and [max]
    compare it: an integer or a finite float, which is a rational number,
    one of the two infinities, or NaN. *)
Inductive number : Type :=
| Finite (q : Q)
| PosInf
| NegInf
| NaN.

(** [a < b]: false whenever either is NaN. *)
Definition lt (a b : number) : bool :=
  match a, b with
  | Finite x, Finite y => ltb x y
  | Finite _, PosInf => true
  | NegInf, Finite _ => true
  | NegInf, PosInf => true
  | _, _ => false
  end.

(** An amount of chips, which is an integer. *)
Definition chips (z : Z) : number := Finite (fl z).

(** The value under ["optimal"] of the sizing object, which this bot hands
    to [min] as it is. *)
Inductive optimal : Type :=
| Absent                     (* no such key: the default [min_r] is used *)
| Number (x : number)        (* an integer or a float *)
| NotNumber.                 (* null, text, a list: [min] raises *)

(** The value of [rec.get("sizing", {})]. *)
Inductive sizing : Type :=
| Dict (o : optimal)
| NotDict.                   (* [sizing.get] raises *)

(** What the [try] block of [declare_action] reads from the advisor: the
    lower-cased action, the confidence (the parsed percentage divided by
    100) and the sizing object. *)
Record advice : Type := {
  adv_action : string;
  adv_confidence : number;
  adv_sizing : sizing
}.

Definition decision : Type := string * number.

(** [sizing.get("optimal", min_r)] as the number that [min] compares. *)
Definition get_optimal (s : sizing) (min_r : Z) : outcome number :=
  match s with
  | NotDict => Raise AttributeError
  | Dict Absent => Ret (chips min_r)
  | Dict (Number x) => Ret x
  | Dict NotNumber => Raise TypeError
  end.

(** [min(a, b)] and [max(a, b)] of Python: the first argument unless the
    second is strictly smaller (larger); so a NaN in the first place is
    returned, and a NaN in the second place is dropped. *)
Definition py_min (a b : number) : number := if lt b a then b else a.
Definition py_max (a b : number) : number := if lt a b then b else a.

(** [min_r > 0 and max_r >= min_r]. *)
Definition usable (min_r max_r : Z) : bool :=
  (0 <? min_r)%Z && (min_r <=? max_r)%Z.

(** [call["amount"] if call else 0]. *)
Definition call_or_zero (valid_actions : list valid_action) : decision :=
  ("call", chips (default 0%Z (call_action valid_actions))).

(** [("call", call["amount"]) if call else ("fold", 0)]. *)
Definition call_or_fold (valid_actions : list valid_action) : decision :=
  match call_action valid_actions with
  | Some amount => ("call", chips amount)
  | None => ("fold", chips 0)
  end.

(** [draw] is what [random.random()] returns if the branch calls it; no
    branch calls it twice. *)
Definition _preflop_action (strategy : string) (draw : Q)
  (valid_actions : list valid_action) : decision :=
  let call := call_action valid_actions in
  let raise_a := raise_action valid_actions in
  match call with
  | Some 0%Z => ("call", chips 0)
  | _ =>
    if String.eqb strategy "MANIAC" then
      match raise_a with
      | Some (min_r, max_r) =>
          if usable min_r max_r
          then ("raise", chips (Z.min (min_r * 3) max_r))
          else call_or_zero valid_actions
      | None => call_or_zero valid_actions
      end
    else if String.eqb strategy "NIT" then
      match call with
      | Some amount =>
          if (amount <=? 10)%Z then ("call", chips amount)
          else ("fold", chips 0)
      | None => ("fold", chips 0)
      end
    else if String.eqb strategy "FISH" then call_or_zero valid_actions
    else if String.eqb strategy "LAG" then
      match raise_a with
      | Some (min_r, max_r) =>
          if ltb draw 0.4 && usable min_r max_r
          then ("raise", chips min_r)
          else call_or_zero valid_actions
      | None => call_or_zero valid_actions
      end
    else
      match call with
      | Some amount =>
          if (amount <=? 30)%Z then ("call", chips amount)
          else ("fold", chips 0)
      | None => ("fold", chips 0)
      end
  end.

Definition _execute (action : string) (s : sizing)
  (valid_actions : list valid_action) : outcome decision :=
  if String.eqb action "fold" then Ret ("fold", chips 0)
  else if in_list action ["call"; "check"]
  then Ret (call_or_fold valid_actions)
  else if in_list action ["raise"; "bet"] then
    match raise_action valid_actions with
    | Some (min_r, max_r) =>
        if usable min_r max_r then
          opt ← get_optimal s min_r;
          Ret ("raise", py_max (chips min_r) (py_min opt (chips max_r)))
        else Ret (call_or_fold valid_actions)
    | None => Ret (call_or_fold valid_actions)
    end
  else Ret ("fold", chips 0).

Definition _apply_strategy (strategy : string) (draw : Q)
  (advisor_action : string) (confidence : number) (s : sizing)
  (valid_actions : list valid_action) : outcome decision :=
  let call := call_action valid_actions in
  let raise_a := raise_action valid_actions in
  let execute := _execute advisor_action s valid_actions in
  if String.eqb strategy "MANIAC" then
    match raise_a with
    | Some (min_r, max_r) =>
        if ltb draw 0.7 && usable min_r max_r then
          opt ← get_optimal s min_r;
          Ret ("raise", py_min opt (chips max_r))
        else execute
    | None => execute
    end
  else if String.eqb strategy "FISH" then
    match call with
    | Some amount =>
        if in_list advisor_action ["raise"; "bet"]
        then Ret ("call", chips amount) else execute
    | None => execute
    end
  else if String.eqb strategy "NIT" then
    if lt confidence (Finite 0.7) then
      match call with
      | Some 0%Z => Ret ("call", chips 0)
      | _ => Ret ("fold", chips 0)
      end
    else execute
  else if String.eqb strategy "LAG" then
    match raise_a with
    | Some (min_r, max_r) =>
        if String.eqb advisor_action "call" && ltb draw 0.4
           && usable min_r max_r
        then Ret ("raise", chips min_r) else execute
    | None => execute
    end
  else execute.

Definition _fallback (valid_actions : list valid_action) : decision :=
  match call_action valid_actions with
  | Some 0%Z => ("call", chips 0)
  | _ => ("fold", chips 0)
  end.

(** [declare_action]: [board] is the number of community cards, and
    [exchange] what the [try] block gets from the advisor, [None] when
    building the request, the exchange or reading the answer raises. *)
Definition declare_action (strategy : string) (draw : Q)
  (valid_actions : list valid_action) (board : Z)
  (exchange : option advice) : decision :=
  if (board <? 3)%Z then _preflop_action strategy draw valid_actions
  else
    match exchange with
    | None => _fallback valid_actions
    | Some a =>
        match _apply_strategy strategy draw (adv_action a)
                (adv_confidence a) (adv_sizing a) valid_actions with
        | Ret d => d
        | Raise _ => _fallback valid_actions
        end
    end.

(** ** What the engine accepts *)

(** The number is finite and lies in the range. *)
Definition within (min_r max_r : Z) (x : number) : Prop :=
  match x with
  | Finite q => fl min_r <= q <= fl max_r
  | _ => False
  end.

(** The decision is a fold, the call that is offered, or a raise within
    the range that is offered. *)
Definition accepted (valid_actions : list valid_action) (d : decision)
  : Prop :=
  d = ("fold", chips 0) \/
  (exists amount,
     call_action valid_actions = Some amount /\
     d = ("call", chips amount)) \/
  (exists min_r max_r x,
     raise_action valid_actions = Some (min_r, max_r) /\
     d = ("raise", x) /\ within min_r max_r x).

Close Scope Q_scope.
End TrajectoryBot.

(* ===================================================================== *)
(** * What the tracked bots record ([TrajectoryBot], the two messages of
      the engine that write the shared trajectories) *)
(* ===================================================================== *)

Module TrajectoryLog.
Import Py Trajectory.
Import StyleBased (seat, seat_uuid, seat_name, seat_stack, seat_state).

Record HandSnapshot : Type := {
  hand_num : Z;
  player_stacks : gmap string Z;
  pot_size : Z;
  winners : list string
}.

(** The attributes of a bot that the two messages read and write. *)
Record bot : Type := {
  uuid : string;
  my_name : option string;
  prev_stack : Z
}.

(** The class attributes that all bots share. *)
Record shared : Type := {
  trajectories : gmap string PlayerTrajectory;
  hand_snapshots : list HandSnapshot;
  current_hand_num : Z
}.

(** The first seat with the bot's uuid. *)
Fixpoint own_seat (u : string) (seats : list seat) : option seat :=
  match seats with
  | [] => None
  | s :: rest => if String.eqb (seat_uuid s) u then Some s
                 else own_seat u rest
  end.

Definition receive_round_start_message (round_count : Z)
  (seats : list seat) (st : bot * shared) : bot * shared :=
  let '(b, sh) := st in
  (match own_seat (uuid b) seats with
   | Some s => {| uuid := uuid b; my_name := Some (seat_name s);
                  prev_stack := seat_stack s |}
   | None => b
   end,
   {| trajectories := trajectories sh;
      hand_snapshots := hand_snapshots sh;
      current_hand_num := round_count |}).

(** The three appends to a trajectory. *)
Definition record_hand (my_stack prev : Z) (t : PlayerTrajectory)
  : PlayerTrajectory :=
  {| name := name t; strategy := strategy t;
     initial_stack := initial_stack t;
     stack_history := stack_history t ++ [my_stack];
     profit_history := profit_history t ++ [(my_stack - initial_stack t)%Z];
     hand_results := hand_results t ++ [(my_stack - prev)%Z];
     final_stack := final_stack t; total_profit := total_profit t;
     peak_stack := peak_stack t; min_stack := min_stack t;
     max_drawdown := max_drawdown t;
     max_drawdown_pct := max_drawdown_pct t;
     volatility := volatility t; sharpe_ratio := sharpe_ratio t;
     longest_win_streak := longest_win_streak t;
     longest_lose_streak := longest_lose_streak t;
     hands_won := hands_won t; hands_lost := hands_lost t |}.

(** [{seat["name"]: seat["stack"] for the seats}], filled in order. *)
Definition stacks_of (seats : list seat) : gmap string Z :=
  fold_left (fun m s => <[seat_name s := seat_stack s]> m) seats ∅.

(** The truth value of [self.my_name]. *)
Definition named (o : option string) : option string :=
  match o with
  | Some n => if String.eqb n "" then None else Some n
  | None => None
  end.

(** [winners] holds, for each winner, its name when the key is there. *)
Definition receive_round_result_message (winners : list (option string))
  (pot : Z) (seats : list seat) (st : bot * shared) : bot * shared :=
  let '(b, sh) := st in
  let stacks := stacks_of seats in
  let snapshot :=
    {| hand_num := current_hand_num sh; player_stacks := stacks;
       pot_size := pot; winners := omap Datatypes.id winners |} in
  let snapshots :=
    match last (hand_snapshots sh) with
    | Some l =>
        if (hand_num l =? hand_num snapshot)%Z then hand_snapshots sh
        else hand_snapshots sh ++ [snapshot]
    | None => hand_snapshots sh ++ [snapshot]
    end in
  let my_stack :=
    match my_name b with
    | Some n => default 0%Z (stacks !! n)
    | None => 0%Z
    end in
  let trajs :=
    match named (my_name b) with
    | Some n =>
        match trajectories sh !! n with
        | Some traj =>
            <[n := record_hand my_stack (prev_stack b) traj]>
              (trajectories sh)
        | None => trajectories sh
        end
    | None => trajectories sh
    end in
  ({| uuid := uuid b; my_name := my_name b; prev_stack := my_stack |},
   {| trajectories := trajs; hand_snapshots := snapshots;
      current_hand_num := current_hand_num sh |}).

(** ** A session: the engine's messages to the bots, in order *)

Inductive message : Type :=
| RoundStart (i : nat) (round_count : Z) (seats : list seat)
| RoundResult (i : nat) (winners : list (option string)) (pot : Z)
    (seats : list seat).

(** The message reaches bot [i] of the table. *)
Definition deliver (st : list bot * shared) (m : message)
  : list bot * shared :=
  let '(bots, sh) := st in
  let i := match m with RoundStart i _ _ | RoundResult i _ _ _ => i end in
  match bots !! i with
  | None => st
  | Some b =>
      let '(b', sh') :=
        match m with
        | RoundStart _ round_count seats =>
            receive_round_start_message round_count seats (b, sh)
        | RoundResult _ winners pot seats =>
            receive_round_result_message winners pot seats (b, sh)
        end in
      (<[i := b']> bots, sh')
  end.

Definition session (msgs : list message) (st : list bot * shared)
  : list bot * shared :=
  fold_left deliver msgs st.

(** The three histories of a trajectory grew together: the profits are
    the stacks minus the initial stack, and there is a hand result for
    each stack. *)
Definition in_step (t : PlayerTrajectory) : Prop :=
  profit_history t
  = (fun s => (s - initial_stack t)%Z) <$> stack_history t /\
  length (hand_results t) = length (stack_history t).

(** No two neighbours of the list are equal. *)
Fixpoint no_repeat (l : list Z) : Prop :=
  match l with
  | a :: (b :: _) as rest => a <> b /\ no_repeat rest
  | _ => True
  end.

(** What a session keeps true of the shared store. *)
Definition orderly (sh : shared) : Prop :=
  map_Forall (fun _ t => in_step t) (trajectories sh) /\
  no_repeat (hand_num <$> hand_snapshots sh).

(** The two stores track the same names, each with the initial stack it
    had. *)
Definition same_players (sh sh' : shared) : Prop :=
  forall n,
    initial_stack <$> (trajectories sh' !! n)
    = initial_stack <$> (trajectories sh !! n).

End TrajectoryLog.

(* ===================================================================== *)
(** * Per-strategy results of the session summary ([HandDataCapture.py]) *)
(* ===================================================================== *)

Module StrategyStats.
Import Py.

(** The attributes of [BettingAction], [PlayerHandResult] and [HandRecord]
    that the per-strategy loop of [generate_session_summary] reads. *)
Record BettingAction : Type := {
  action : string;
  followed_advisor : option bool
}.

Record PlayerHandResult : Type := {
  name : string;
  strategy : string;
  stack_change : Z;
  actions : list BettingAction;
  went_to_showdown : bool;
  won_hand : bool;
  folded_street : option string
}.

Record HandRecord : Type := {
  players : list PlayerHandResult
}.

(** An entry of [strategy_stats]. *)
Record stats : Type := {
  hands : Z;
  wins : Z;
  total_profit : Z;
  showdowns : Z;
  showdown_wins : Z;
  folds : gmap string Z;
  st_actions : gmap string Z;
  advisor_followed : Z;
  advisor_ignored : Z
}.

(** What the [defaultdict] makes for a strategy that has no entry yet. *)
Definition fresh : stats :=
  {| hands := 0; wins := 0; total_profit := 0; showdowns := 0;
     showdown_wins := 0; folds := ∅; st_actions := ∅;
     advisor_followed := 0; advisor_ignored := 0 |}.

(** [d[k] += 1] on a [defaultdict(int)]. *)
Definition bump (k : string) (d : gmap string Z) : gmap string Z :=
  <[k := (default 0 (d !! k) + 1)%Z]> d.

(** The truth value of [player.folded_street]. *)
Definition truthy (o : option string) : bool :=
  match o with
  | Some s => negb (String.eqb s "")
  | None => false
  end.

(** One turn of the loop over [player.actions]. *)
Definition track (st : stats) (a : BettingAction) : stats :=
  {| hands := hands st; wins := wins st; total_profit := total_profit st;
     showdowns := showdowns st; showdown_wins := showdown_wins st;
     folds := folds st;
     st_actions := bump (action a) (st_actions st);
     advisor_followed :=
       match followed_advisor a with
       | Some true => (advisor_followed st + 1)%Z
       | _ => advisor_followed st
       end;
     advisor_ignored :=
       match followed_advisor a with
       | Some false => (advisor_ignored st + 1)%Z
       | _ => advisor_ignored st
       end |}.

(** The body of the loop over the players of a hand, on the entry of the
    player's strategy. *)
Definition count (st : stats) (p : PlayerHandResult) : stats :=
  fold_left track (actions p)
    {| hands := (hands st + 1)%Z;
       wins := if won_hand p then (wins st + 1)%Z else wins st;
       total_profit := (total_profit st + stack_change p)%Z;
       showdowns := if went_to_showdown p then (showdowns st + 1)%Z
                    else showdowns st;
       showdown_wins :=
         if went_to_showdown p && won_hand p
         then (showdown_wins st + 1)%Z else showdown_wins st;
       folds := if truthy (folded_street p)
                then bump (default "" (folded_street p)) (folds st)
                else folds st;
       st_actions := st_actions st;
       advisor_followed := advisor_followed st;
       advisor_ignored := advisor_ignored st |}.

Definition tally (m : gmap string stats) (p : PlayerHandResult)
  : gmap string stats :=
  <[strategy p := count (default fresh (m !! strategy p)) p]> m.

(** [strategy_stats] after the loop over the recorded hands. *)
Definition strategy_stats (hs : list HandRecord) : gmap string stats :=
  fold_left (fun m hand => fold_left tally (players hand) m) hs ∅.

(** An entry of [summary.strategy_results]. *)
Record result : Type := {
  r_hands : Z;
  r_wins : Z;
  win_rate : Q;
  r_total_profit : Z;
  avg_profit_per_hand : Q;
  bb_100 : Q;
  r_showdowns : Z;
  r_showdown_wins : Z;
  wtsd : Q;
  wsd : Q;
  folds_by_street : gmap string Z;
  r_actions : gmap string Z;
  r_advisor_followed : Z;
  r_advisor_ignored : Z
}.

Open Scope Q_scope.

(** [a / b * 100 if b > 0 else 0]. *)
Definition percent (a b : Z) : outcome Q :=
  if (0 <? b)%Z then q ← truediv (fl a) (fl b); Ret (q * 100) else Ret 0.

(** The body of the loop that fills [summary.strategy_results]. *)
Definition convert (st : stats) : outcome result :=
  wr ← percent (wins st) (hands st);
  avg ← (if (0 <? hands st)%Z
         then truediv (fl (total_profit st)) (fl (hands st)) else Ret 0);
  bb ← (if (0 <? hands st)%Z
        then a ← truediv (fl (total_profit st)) 20;
             b ← truediv (fl (hands st)) 100;
             truediv a b
        else Ret 0);
  wt ← percent (showdowns st) (hands st);
  ws ← percent (showdown_wins st) (showdowns st);
  Ret {| r_hands := hands st; r_wins := wins st; win_rate := wr;
         r_total_profit := total_profit st; avg_profit_per_hand := avg;
         bb_100 := bb; r_showdowns := showdowns st;
         r_showdown_wins := showdown_wins st; wtsd := wt; wsd := ws;
         folds_by_street := folds st; r_actions := st_actions st;
         r_advisor_followed := advisor_followed st;
         r_advisor_ignored := advisor_ignored st |}.

Close Scope Q_scope.

(** ** What the entries are compared with *)

(** The results of the players of strategy [s], in the order of the
    loop. *)
Definition seated (s : string) (hs : list HandRecord)
  : list PlayerHandResult :=
  List.filter (fun p => String.eqb (strategy p) s) (hs ≫= players).

Definition number_of (f : PlayerHandResult -> bool)
  (l : list PlayerHandResult) : Z :=
  len (List.filter f l).

(** The integer counters of an entry, computed from the seated players. *)
Definition counted (st : stats) (l : list PlayerHandResult) : Prop :=
  hands st = len l /\
  wins st = number_of won_hand l /\
  total_profit st = Py.sum (stack_change <$> l) /\
  showdowns st = number_of went_to_showdown l /\
  showdown_wins st
  = number_of (fun p => went_to_showdown p && won_hand p) l.

End StrategyStats.


Module CounterFacts.
Section WithKey.
Context {K : Type} (eqb : K -> K -> bool).
Hypothesis eqb_eq : forall x y, eqb x y = true <-> x = y.

Lemma cget_bump_same k d : cget eqb k (bump eqb k d) = (cget eqb k d + 1)%Z.
Proof.
  unfold cget. induction d as [|[k' c] t IH]; simpl.
  - assert (H : eqb k k = true) by (apply eqb_eq; reflexivity).
    rewrite H. reflexivity.
  - destruct (eqb k k') eqn:E; simpl; rewrite E; [reflexivity | exact IH].
Qed.

Lemma cget_bump_other k k' d :
  k <> k' -> cget eqb k (bump eqb k' d) = cget eqb k d.
Proof.
  intros Hne. unfold cget. induction d as [|[k2 c] t IH]; simpl.
  - destruct (eqb k k') eqn:E; [apply eqb_eq in E; contradiction | reflexivity].
  - destruct (eqb k' k2) eqn:E2; simpl.
    + destruct (eqb k k2) eqn:E; [|reflexivity].
      apply eqb_eq in E, E2. subst. contradiction.
    + destruct (eqb k k2); [reflexivity | exact IH].
Qed.

Lemma cget_fold k l d :
  cget eqb k (fold_left (fun d k => bump eqb k d) l d) = (cget eqb k d + occ eqb k l)%Z.
Proof.
  revert d. induction l as [|x t IH]; intros d; simpl.
  - lia.
  - rewrite IH. destruct (eqb k x) eqn:E.
    + apply eqb_eq in E. subst. rewrite cget_bump_same. lia.
    + rewrite cget_bump_other; [lia|]. intros ->.
      assert (H : eqb x x = true) by (apply eqb_eq; reflexivity). congruence.
Qed.

Lemma cget_counter k l : cget eqb k (counter eqb l) = occ eqb k l.
Proof. unfold counter. rewrite cget_fold. reflexivity. Qed.

Lemma cget_in_values k d : cget eqb k d <> 0%Z -> In (cget eqb k d) (map snd d).
Proof.
  unfold cget. destruct (find _ d) as [p|] eqn:F; [|congruence].
  intros _. apply find_some in F. apply in_map. tauto.
Qed.

Lemma occ_nonneg k l : (0 <= occ eqb k l)%Z.
Proof. induction l as [|x t IH]; simpl; [lia|]. destruct (eqb k x); lia. Qed.

Lemma occ_nth_pos (dflt : K) l i :
  (i < length l)%nat -> (1 <= occ eqb (nth i l dflt) l)%Z.
Proof.
  revert i. induction l as [|x t IH]; intros i Hi; simpl in *; [lia|].
  destruct i as [|i].
  - assert (H : eqb x x = true) by (apply eqb_eq; reflexivity).
    rewrite H. pose proof (occ_nonneg x t). lia.
  - specialize (IH i ltac:(lia)). destruct (eqb _ x); lia.
Qed.

Lemma occ_two_positions (dflt : K) l i j :
  (i < length l)%nat -> (j < length l)%nat -> i <> j ->
  nth i l dflt = nth j l dflt ->
  (2 <= occ eqb (nth i l dflt) l)%Z.
Proof.
  revert i j. induction l as [|x t IH]; intros i j Hi Hj Hne Heq; simpl in *; [lia|].
  assert (Hxx : forall y, eqb y y = true) by (intros; apply eqb_eq; reflexivity).
  destruct i as [|i], j as [|j]; try congruence.
  - rewrite Hxx. rewrite Heq. pose proof (occ_nth_pos dflt t j ltac:(lia)). lia.
  - rewrite <- Heq at 1. rewrite Heq, Hxx. rewrite <- Heq.
    pose proof (occ_nth_pos dflt t i ltac:(lia)). lia.
  - specialize (IH i j ltac:(lia) ltac:(lia) ltac:(congruence) Heq).
    destruct (eqb _ x); lia.
Qed.

Lemma counter_nonempty l : l <> [] -> counter eqb l <> [].
Proof.
  intros Hl Hc. destruct l as [|x t]; [congruence|].
  pose proof (cget_counter x (x :: t)) as H. rewrite Hc in H.
  pose proof (occ_nth_pos x (x :: t) 0%nat ltac:(simpl; lia)) as H1.
  simpl in H1. simpl in H. unfold cget in H. simpl in H. lia.
Qed.

End WithKey.

Lemma max_of_ge l m x : max_of l = Ret m -> In x l -> (x <= m)%Z.
Proof.
  destruct l as [|a t]; [discriminate|]. simpl. intros [= <-].
  assert (G : forall t a, (a <= fold_left Z.max t a)%Z /\
                          forall x, In x t -> (x <= fold_left Z.max t a)%Z).
  { clear. induction t as [|b t IH]; intros a; simpl.
    - split; [lia | tauto].
    - destruct (IH (Z.max a b)) as [H1 H2]. split; [lia|].
      intros x [->|Hx]; [lia | auto]. }
  destruct (G t a) as [H1 H2]. intros [->|Hx]; auto.
Qed.

Lemma max_of_returns l : l <> [] -> exists m, max_of l = Ret m.
Proof. destruct l; [congruence | eexists; reflexivity]. Qed.

End CounterFacts.


Module ScorerFacts.
Import Scorer ScorerSpec CounterFacts.

Lemma read_cards_length h ranks suits :
  read_cards h = Some (ranks, suits) ->
  length ranks = length h /\ length suits = length h.
Proof.
  revert ranks suits. induction h as [|c t IH]; intros ranks suits; simpl.
  - intros [= <- <-]. auto.
  - destruct c as [r s|]; simpl; [|discriminate].
    destruct (read_cards t) as [[rs ss]|]; [|discriminate].
    intros [= <- <-]. destruct (IH rs ss eq_refl). simpl. lia.
Qed.

Lemma truediv_len {A} (a : Q) (l : list A) :
  l <> [] -> truediv a (fl (len l)) = Ret (a / fl (len l))%Q.
Proof.
  intros Hl. unfold truediv.
  destruct (Qeq_bool (fl (len l)) 0) eqn:E; [|reflexivity].
  apply Qeq_bool_iff in E. unfold fl, len, Qeq in E. simpl in E.
  destruct l; [congruence | simpl in E; lia].
Qed.

Lemma add_high_adds ranks : ranks <> [] -> adds (fun s => add_high s ranks).
Proof.
  intros Hr. unfold adds, add_high. rewrite (truediv_len _ _ Hr).
  eexists. intros s. eexists. split; [reflexivity|]. reflexivity.
Qed.

Lemma add_pairs_adds ranks : adds (fun s => add_pairs s ranks).
Proof.
  unfold adds, add_pairs. destruct (pairs_of ranks) as [|p t].
  - exists 0%Q. intros s. exists s. split; [reflexivity | ring].
  - eexists. intros s. eexists. split; [reflexivity|]. reflexivity.
Qed.

Lemma add_connectivity_adds ranks : adds (fun s => add_connectivity s ranks).
Proof.
  unfold adds, add_connectivity.
  destruct (sorted (set_of ranks)) as [|a [|b t]].
  - exists 0%Q. intros s. exists s. split; [reflexivity | ring].
  - exists 0%Q. intros s. exists s. split; [reflexivity | ring].
  - replace (2 <=? len (a :: b :: t))%Z with true
      by (symmetry; apply Z.leb_le; unfold len; simpl; lia).
    rewrite truediv_len by (simpl; discriminate).
    eexists. intros s. eexists. split; [reflexivity|]. reflexivity.
Qed.

Lemma add_suited_bounds s suits :
  suits <> [] ->
  exists v, add_suited s suits = Ret v /\ (s <= v)%Q /\ (v <= s + 15)%Q /\
            (shares_suit suits -> (s + 8 <= v)%Q).
Proof.
  intros Hs. unfold add_suited.
  set (sc := counter String.eqb suits).
  destruct (2 <=? len (List.filter _ sc))%Z.
  { eexists. split; [reflexivity|]. repeat split; intros; lra. }
  destruct (max_of_returns (map snd sc)) as [m Hm].
  { intros E. apply map_eq_nil in E.
    revert E. apply counter_nonempty; [apply String.eqb_eq | exact Hs]. }
  rewrite Hm. simpl.
  destruct (3 <=? m)%Z eqn:E3.
  { eexists. split; [reflexivity|]. repeat split; intros; lra. }
  destruct (2 <=? m)%Z eqn:E2.
  { eexists. split; [reflexivity|]. repeat split; intros; lra. }
  exists s. split; [reflexivity|]. repeat split; try lra.
  intros (i & j & Hi & Hj & Hne & Heq). exfalso.
  pose proof (occ_two_positions String.eqb String.eqb_eq "" suits i j Hi Hj Hne Heq) as H2.
  rewrite <- (cget_counter String.eqb String.eqb_eq) in H2. fold sc in H2.
  assert (Hin : In (cget String.eqb (nth i suits "") sc) (map snd sc))
    by (apply cget_in_values; lia).
  pose proof (max_of_ge _ _ _ Hm Hin). apply Z.leb_gt in E2. lia.
Qed.

Lemma suited_ace_shares ranks suits :
  length suits = length ranks ->
  suited_ace_of ranks suits = true -> shares_suit suits.
Proof.
  intros Hlen H. unfold suited_ace_of in H.
  apply existsb_exists in H. destruct H as (i & Hi & H).
  apply andb_true_iff in H. destruct H as [_ H].
  apply existsb_exists in H. destruct H as (j & Hj & H).
  apply andb_true_iff in H. destruct H as [Hne Heq].
  apply in_seq in Hi, Hj. apply String.eqb_eq in Heq.
  apply negb_true_iff, Nat.eqb_neq in Hne.
  exists i, j. rewrite Hlen. repeat split; try lia; auto.
Qed.

Lemma add_nut_suited_ace ranks su1 su2 (s1 s2 : Q) :
  suited_ace_of ranks su1 = true ->
  suited_ace_of ranks su2 = false ->
  (s2 <= s1 + 7)%Q ->
  (add_nut s2 ranks su2 <= add_nut s1 ranks su1)%Q.
Proof.
  intros H1 H2 Hs. unfold add_nut. rewrite H1, H2.
  destruct (existsb (Z.eqb 14) ranks);
    destruct (3 <=? len (List.filter _ ranks))%Z; lra.
Qed.

Lemma clamp100_bounds s : (0 <= clamp100 s)%Q /\ (clamp100 s <= 100)%Q.
Proof.
  unfold clamp100. split.
  - apply Q.min_glb; [lra | apply Q.le_max_l].
  - apply Q.le_min_l.
Qed.

Lemma clamp100_mono s s' : (s <= s')%Q -> (clamp100 s <= clamp100 s')%Q.
Proof.
  intros H. unfold clamp100.
  apply Q.min_le_compat_l. apply Q.max_le_compat_l. exact H.
Qed.

(** The scorer on a readable, non-empty hand, step by step. *)
Lemma score_steps h ranks suits :
  h <> [] -> read_cards h = Some (ranks, suits) ->
  exists dh dp dc a b c d,
    add_high 0 ranks = Ret a /\ (a == 0 + dh)%Q /\
    add_pairs a ranks = Ret b /\ (b == a + dp)%Q /\
    add_suited b suits = Ret c /\ (b <= c)%Q /\ (c <= b + 15)%Q /\
    (shares_suit suits -> (b + 8 <= c)%Q) /\
    add_connectivity c ranks = Ret d /\ (d == c + dc)%Q /\
    score_omaha_hand h = Ret (clamp100 (add_nut d ranks suits)) /\
    (forall s, exists v, add_high s ranks = Ret v /\ (v == s + dh)%Q) /\
    (forall s, exists v, add_pairs s ranks = Ret v /\ (v == s + dp)%Q) /\
    (forall s, exists v, add_connectivity s ranks = Ret v /\ (v == s + dc)%Q).
Proof.
  intros Hh Hread.
  destruct (read_cards_length _ _ _ Hread) as [Lr Ls].
  assert (Hr : ranks <> []) by (destruct ranks, h; simpl in *; congruence).
  assert (Hs : suits <> []) by (destruct suits, h; simpl in *; congruence).
  destruct (add_high_adds ranks Hr) as [dh Hh'].
  destruct (add_pairs_adds ranks) as [dp Hp].
  destruct (add_connectivity_adds ranks) as [dc Hc].
  destruct (Hh' 0%Q) as (a & Ea & Qa).
  destruct (Hp a) as (b & Eb & Qb).
  destruct (add_suited_bounds b suits Hs) as (c & Ec & Lc & Uc & Sc).
  destruct (Hc c) as (d & Ed & Qd).
  exists dh, dp, dc, a, b, c, d. repeat split; auto.
  unfold score_omaha_hand. destruct h as [|x t]; [congruence|].
  rewrite Hread. cbv zeta.
  unfold mbind, outcome_bind. rewrite Ea. simpl. rewrite Eb. simpl.
  rewrite Ec. simpl. rewrite Ed. simpl. reflexivity.
Qed.

Lemma score_suited_ace_general h1 h2 ranks su1 su2 :
  h1 <> [] -> h2 <> [] ->
  read_cards h1 = Some (ranks, su1) ->
  read_cards h2 = Some (ranks, su2) ->
  suited_ace_of ranks su1 = true ->
  suited_ace_of ranks su2 = false ->
  exists v1 v2, score_omaha_hand h1 = Ret v1 /\ score_omaha_hand h2 = Ret v2 /\
                (v2 <= v1)%Q.
Proof.
  intros N1 N2 R1 R2 A1 A2.
  destruct (score_steps h1 ranks su1 N1 R1)
    as (dh & dp & dc & a & b & c & d & Ea & Qa & Eb & Qb & Ec & Lc & Uc & Sc
        & Ed & Qd & E1 & _ & _ & Hc).
  destruct (score_steps h2 ranks su2 N2 R2)
    as (dh' & dp' & dc' & a' & b' & c' & d' & Ea' & Qa' & Eb' & Qb' & Ec' & Lc'
        & Uc' & Sc' & Ed' & Qd' & E2 & _ & _ & _).
  rewrite Ea in Ea'. injection Ea' as <-.
  rewrite Eb in Eb'. injection Eb' as <-.
  destruct (Hc c') as (d'' & Ed'' & Qd''). rewrite Ed' in Ed''.
  injection Ed'' as <-.
  eexists _, _. split; [exact E1|]. split; [exact E2|].
  apply clamp100_mono. apply add_nut_suited_ace; auto.
  destruct (read_cards_length _ _ _ R1) as [L1 L2].
  assert (Hsh : shares_suit su1) by (apply (suited_ace_shares ranks); [lia | auto]).
  specialize (Sc Hsh). rewrite Qd, Qd''. lra.
Qed.

End ScorerFacts.


Module ScorerClaims.
Import Scorer ScorerSpec CounterFacts ScorerFacts.

(** An object that is not a card makes the scorer return the neutral 25. *)
Lemma score_unreadable h :
  read_cards h = None -> score_omaha_hand h = Ret 25%Q.
Proof.
  intros H. unfold score_omaha_hand. destruct h; [reflexivity|].
  rewrite H. reflexivity.
Qed.

(** C2: for every list of hole cards, empty or holding objects that are not
    cards or cards with unknown rank or suit strings, [score_omaha_hand]
    returns (it never raises) a value between 0 and 100 inclusive, and on
    the empty list it returns exactly 25. *)
Theorem score_in_range_and_neutral :
  (forall hole_cards, exists v,
      score_omaha_hand hole_cards = Ret v /\ (0 <= v)%Q /\ (v <= 100)%Q) /\
  score_omaha_hand [] = Ret 25%Q.
Proof.
  split; [|reflexivity].
  intros h. destruct h as [|c t] eqn:Eh.
  - exists 25%Q. split; [reflexivity|]. split; lra.
  - rewrite <- Eh. assert (Hne : h <> []) by (subst; discriminate).
    destruct (read_cards h) as [[ranks suits]|] eqn:R.
    + destruct (score_steps h ranks suits Hne R)
        as (? & ? & ? & ? & ? & ? & d & _ & _ & _ & _ & _ & _ & _ & _ & _ & _
            & E & _).
      eexists. split; [exact E|]. apply clamp100_bounds.
    + exists 25%Q. split; [apply score_unreadable; exact R|]. split; lra.
Qed.

(** C9: take a four-card hand with exactly two Aces in which each Ace shares
    its suit with one of the lower cards, and the hand with the same four
    ranks and the same lower cards in which no Ace shares its suit with any
    other hole card.  Both hands are scored, and the first scores at least
    as high as the second. *)
Theorem suited_aces_score_at_least
  (h1 h2 : list pycard) (ranks : list Z) (su1 su2 : list string) :
  read_cards h1 = Some (ranks, su1) ->
  read_cards h2 = Some (ranks, su2) ->
  length ranks = 4%nat ->
  length (List.filter (Z.eqb 14) ranks) = 2%nat ->
  (forall i, (i < 4)%nat -> (nth i ranks 0 < 14)%Z ->
             nth i su2 "" = nth i su1 "") ->
  (forall i, (i < 4)%nat -> nth i ranks 0%Z = 14%Z ->
             exists j, (j < 4)%nat /\ (nth j ranks 0 < 14)%Z /\
                       nth j su1 "" = nth i su1 "") ->
  (forall i j, (i < 4)%nat -> (j < 4)%nat -> i <> j ->
               nth i ranks 0%Z = 14%Z -> nth i su2 "" <> nth j su2 "") ->
  exists v1 v2,
    score_omaha_hand h1 = Ret v1 /\ score_omaha_hand h2 = Ret v2 /\
    (v2 <= v1)%Q.
Proof.
  intros R1 R2 Len Aces _ Suited Unsuited.
  destruct (read_cards_length _ _ _ R1) as [L1 _].
  destruct (read_cards_length _ _ _ R2) as [L2 _].
  apply (score_suited_ace_general h1 h2 ranks su1 su2); auto.
  - intros ->. simpl in L1. lia.
  - intros ->. simpl in L2. lia.
  - (* some Ace position is suited in the first hand *)
    assert (Hin : In 14%Z ranks).
    { destruct (List.filter (Z.eqb 14) ranks) as [|x l] eqn:F; [discriminate|].
      assert (Hx : In x (List.filter (Z.eqb 14) ranks)) by (rewrite F; left; auto).
      apply filter_In in Hx. destruct Hx as [Hx E].
      apply Z.eqb_eq in E. subst x. exact Hx. }
    destruct (In_nth _ _ 0%Z Hin) as (i & Hi & Hnth).
    destruct (Suited i ltac:(lia) Hnth) as (j & Hj & Hlow & Hsu).
    unfold suited_ace_of. apply existsb_exists. exists i.
    split; [apply in_seq; lia|].
    apply andb_true_iff. split; [apply Z.eqb_eq; exact Hnth|].
    apply existsb_exists. exists j. split; [apply in_seq; lia|].
    apply andb_true_iff. split.
    + apply negb_true_iff, Nat.eqb_neq. intros ->. lia.
    + apply String.eqb_eq. symmetry. exact Hsu.
  - (* no Ace position is suited in the second hand *)
    destruct (suited_ace_of ranks su2) eqn:E; [exfalso | reflexivity].
    unfold suited_ace_of in E.
    apply existsb_exists in E. destruct E as (i & Hi & E).
    apply andb_true_iff in E. destruct E as [Hace E].
    apply existsb_exists in E. destruct E as (j & Hj & E).
    apply andb_true_iff in E. destruct E as [Hne Heq].
    apply in_seq in Hi, Hj. apply String.eqb_eq in Heq.
    apply negb_true_iff, Nat.eqb_neq in Hne. apply Z.eqb_eq in Hace.
    apply (Unsuited i j); auto; lia.
Qed.

Lemma suited_aces_score_at_least_witness :
  exists v1 v2,
    score_omaha_hand
      [Card "A" "♠"; Card "A" "♥"; Card "K" "♠"; Card "7" "♥"] = Ret v1 /\
    score_omaha_hand
      [Card "A" "♣"; Card "A" "♦"; Card "K" "♠"; Card "7" "♥"] = Ret v2 /\
    (v2 <= v1)%Q.
Proof.
  apply (suited_aces_score_at_least _ _
           [14; 14; 13; 7]%Z ["s"; "h"; "s"; "h"] ["c"; "d"; "s"; "h"]).
  - reflexivity.
  - reflexivity.
  - reflexivity.
  - reflexivity.
  - intros i Hi Hlow.
    destruct i as [|[|[|[|i]]]]; simpl in *; try reflexivity; lia.
  - intros i Hi Hace.
    destruct i as [|[|[|[|i]]]]; simpl in *; try lia.
    + exists 2%nat. simpl. repeat split; lia.
    + exists 3%nat. simpl. repeat split; lia.
  - intros i j Hi Hj Hne Hace.
    destruct i as [|[|[|[|i]]]]; simpl in *; try lia;
      destruct j as [|[|[|[|j]]]]; simpl; try lia; discriminate.
Defined.

Example score_double_suited_aces :
  score_omaha_hand [Card "A" "♠"; Card "A" "♥"; Card "K" "♠"; Card "7" "♥"]
  = Ret (131600 # 1568)%Q.
Proof. vm_compute. reflexivity. Qed.

Example score_unsuited_aces :
  score_omaha_hand [Card "A" "♣"; Card "A" "♦"; Card "K" "♠"; Card "7" "♥"]
  = Ret (97104 # 1568)%Q.
Proof. vm_compute. reflexivity. Qed.

End ScorerClaims.

(* ===================================================================== *)
(** * Properties of the sample-size computation *)
(* ===================================================================== *)

Module SampleSizeClaims.
Import Py Py64 SampleSize.

Lemma truediv_nonzero (a b : Q) :
  ~ (b == 0)%Q -> Py.truediv a b = Ret (a / b)%Q.
Proof.
  intros H. unfold Py.truediv.
  destruct (Qeq_bool b 0) eqn:E; [|reflexivity].
  apply Qeq_bool_iff in E. contradiction.
Qed.

Lemma Qeq_bool_true (a b : Q) : (a == b)%Q -> Qeq_bool a b = true.
Proof. apply Qeq_bool_iff. Qed.

Lemma Qeq_bool_false (a b : Q) : ~ (a == b)%Q -> Qeq_bool a b = false.
Proof.
  intros H. destruct (Qeq_bool a b) eqn:E; [|reflexivity].
  apply Qeq_bool_iff in E. contradiction.
Qed.

(** ** Floats *)

(** A float that compares equal to a finite one is that float. *)
Lemma eqb_finite c s m e :
  eqb c (S754_finite s m e) = true -> c = S754_finite s m e.
Proof.
  unfold eqb, SFeqb, SFcompare.
  destruct c as [sc|sc| |sc mc ec]; try discriminate.
  - destruct s; discriminate.
  - destruct sc; discriminate.
  - destruct sc, s; try discriminate;
      destruct (Z.compare ec e) eqn:Ee; try discriminate;
      apply Z.compare_eq in Ee; subst ec;
      destruct (Pos.compare_cont Eq mc m) eqn:Em; try discriminate;
      apply Pcompare_Eq_eq in Em; subst mc; reflexivity.
Qed.

Lemma eqb_decimal c n d :
  (match decimal n d with S754_finite _ _ _ => true | _ => false end) = true ->
  eqb c (decimal n d) = true -> c = decimal n d.
Proof.
  destruct (decimal n d) as [| | |s m e]; try discriminate.
  intros _. apply eqb_finite.
Qed.

(** The product of two finite floats of the same sign is not below 0. *)
Lemma mul_same_sign s m e m' e' :
  SFltb (mul (S754_finite s m e) (S754_finite s m' e')) (S754_zero false)
  = false.
Proof.
  unfold mul, SFmul, binary_round_aux.
  replace (xorb s s) with false by (destruct s; reflexivity).
  destruct (shr_fexp prec emax (Z.pos (m * m')) (e + e') loc_Exact)
    as [mrs1 e1].
  destruct (shr_fexp prec emax _ e1 loc_Exact) as [mrs2 e2].
  destruct (shr_m mrs2); [reflexivity| |reflexivity].
  destruct (Z.leb e2 (emax - prec)); reflexivity.
Qed.

(** A library that rounds the square to the nearest float is as close as
    assumed. *)
Lemma nearest_square_close : within_one_ulp nearest_square.
Proof.
  intros s m e x. unfold nearest_square.
  split; [reflexivity|]. split; [right; left; reflexivity|].
  apply mul_same_sign.
Qed.

Lemma select_conf c z :
  z_conf_of c z ->
  (if eqb c (decimal 95 100) then decimal 196 100
   else if eqb c (decimal 99 100) then decimal 258 100
        else decimal 1645 1000) = z.
Proof.
  intros [c' H|c' H].
  - rewrite H. reflexivity.
  - apply eqb_decimal in H; [|vm_compute; reflexivity]. subst c'.
    vm_compute. reflexivity.
Qed.

Lemma select_power p z :
  z_power_of p z ->
  (if eqb p (decimal 80 100) then decimal 84 100
   else if eqb p (decimal 90 100) then decimal 128 100
        else decimal 52 100) = z.
Proof.
  intros [p' H|p' H].
  - rewrite H. reflexivity.
  - apply eqb_decimal in H; [|vm_compute; reflexivity]. subst p'.
    vm_compute. reflexivity.
Qed.

Section WithLibrary.
Variable sq : float -> float.
Hypothesis sq_close : within_one_ulp sq.

(** C6. For a confidence of 95% or 99% and a power of 80% or 90%,
    [calculate_sample_size_needed] evaluates
    [2 * ((z_conf + z_power) * stdDev / effectSize)^2] on floats, with the
    z-values 1.96, 2.58, 0.84 and 1.28 of the specification, and rounds
    the float up.  For effect 5, deviation 100, confidence 0.95 and power
    0.80 the result is 6272, which is the ceiling of the exact value of
    [2*((1.96+0.84)*100/5)^2]. *)
Theorem sample_size_in_floats :
  (forall effect sd confidence power z_conf z_power,
      z_conf_of confidence z_conf ->
      z_power_of power z_power ->
      calculate_sample_size_needed sq effect sd confidence power
      = required_sample_size_in_floats sq z_conf z_power sd effect) /\
  calculate_sample_size_needed sq (of_int 5) (of_int 100) (decimal 95 100)
    (decimal 80 100) = Ret 6272%Z /\
  required_sample_size 1.96 0.84 100 5 = 6272%Z.
Proof.
  split; [|split; [|reflexivity]].
  - intros effect sd confidence power z_conf z_power Hc Hp.
    unfold calculate_sample_size_needed, required_sample_size_in_floats.
    cbv zeta. rewrite (select_conf _ _ Hc), (select_power _ _ Hp).
    reflexivity.
  - unfold calculate_sample_size_needed. cbv zeta.
    assert (Eq : truediv
                   (mul (add (if eqb (decimal 95 100) (decimal 95 100)
                              then decimal 196 100
                              else if eqb (decimal 95 100) (decimal 99 100)
                                   then decimal 258 100
                                   else decimal 1645 1000)
                             (if eqb (decimal 80 100) (decimal 80 100)
                              then decimal 84 100
                              else if eqb (decimal 80 100) (decimal 90 100)
                                   then decimal 128 100
                                   else decimal 52 100))
                        (of_int 100)) (of_int 5)
                 = Ret (S754_finite false 7881299347898368 (-47)))
      by (vm_compute; reflexivity).
    rewrite Eq. cbn [mbind outcome_bind Py.bind pow2 SFabs].
    destruct (sq_close false 7881299347898368%positive (-47)%Z) as (Hex & _ & _).
    cbv zeta in Hex. rewrite Hex by (vm_compute; reflexivity).
    assert (Es : mul (S754_finite false 7881299347898368 (-47))
                     (S754_finite false 7881299347898368 (-47))
                 = S754_finite false 6896136929411072 (-41))
      by (vm_compute; reflexivity).
    rewrite Es. cbn [mbind outcome_bind Py.bind].
    vm_compute. reflexivity.
Qed.

End WithLibrary.

(** With a library that rounds the square to the nearest float. *)
Lemma sample_size_in_floats_witness :
  within_one_ulp nearest_square /\
  calculate_sample_size_needed nearest_square (of_int 10) (of_int 80)
    (decimal 99 100) (decimal 90 100)
  = required_sample_size_in_floats nearest_square (decimal 258 100)
      (decimal 128 100) (of_int 80) (of_int 10) /\
  calculate_sample_size_needed nearest_square (of_int 5) (of_int 100)
    (decimal 95 100) (decimal 80 100) = Ret 6272%Z.
Proof.
  split; [exact nearest_square_close|].
  destruct (sample_size_in_floats nearest_square nearest_square_close)
    as (H1 & H2 & _).
  split; [|exact H2].
  apply H1.
  - apply conf_99. vm_compute. reflexivity.
  - apply power_90. vm_compute. reflexivity.
Defined.

(** For effect 1, deviation 100, confidence 0.99 and power 0.90 the exact
    value of the formula is the integer 297992, and the code returns
    297993: the sum of 2.58 and 1.28 rounds to the float above 3.86, so
    the square lies above 148996 whichever of the neighbouring floats the
    library returns for it. *)
Lemma sample_size_exceeds_exact_ceiling :
  (forall sq, within_one_ulp sq ->
     calculate_sample_size_needed sq (of_int 1) (of_int 100)
       (decimal 99 100) (decimal 90 100) = Ret 297993%Z /\
     calculate_sample_size_needed sq (of_int 1) (of_int 100)
       (decimal 99 100) (decimal 90 100)
     <> Ret (required_sample_size 2.58 1.28 100 1)) /\
  required_sample_size 2.58 1.28 100 1 = 297992%Z.
Proof.
  split; [|reflexivity].
  intros sq Hsq.
  assert (E : calculate_sample_size_needed sq (of_int 1) (of_int 100)
                (decimal 99 100) (decimal 90 100) = Ret 297993%Z).
  { unfold calculate_sample_size_needed. cbv zeta.
    assert (Eq : truediv
                   (mul (add (if eqb (decimal 99 100) (decimal 95 100)
                              then decimal 196 100
                              else if eqb (decimal 99 100) (decimal 99 100)
                                   then decimal 258 100
                                   else decimal 1645 1000)
                             (if eqb (decimal 90 100) (decimal 80 100)
                              then decimal 84 100
                              else if eqb (decimal 90 100) (decimal 90 100)
                                   then decimal 128 100
                                   else decimal 52 100))
                        (of_int 100)) (of_int 1)
                 = Ret (S754_finite false 6790583813144577 (-44)))
      by (vm_compute; reflexivity).
    rewrite Eq. cbn [mbind outcome_bind Py.bind pow2 SFabs].
    destruct (Hsq false 6790583813144577%positive (-44)%Z) as (_ & Hn & _).
    cbv zeta in Hn.
    destruct Hn as [Hn|[Hn|Hn]]; rewrite Hn; vm_compute; reflexivity. }
  split; [exact E|]. rewrite E. intros H. vm_compute in H. discriminate H.
Qed.

End SampleSizeClaims.

(* ===================================================================== *)
(** * Properties of the trajectory metrics *)
(* ===================================================================== *)

Module TrajectoryFacts.
Import Py Trajectory.
Open Scope R_scope.

Lemma truediv_ok a b : b <> 0 -> PyR.truediv a b = Ret (a / b).
Proof.
  intros H. unfold PyR.truediv. destruct (Req_dec_T b 0); [contradiction|].
  reflexivity.
Qed.

Lemma math_sqrt_ok x : 0 <= x -> PyR.math_sqrt x = Ret (sqrt x).
Proof.
  intros H. unfold PyR.math_sqrt. destruct (Rlt_dec x 0); [lra|reflexivity].
Qed.

Lemma sum_sq_dev_nonneg l m : 0 <= PyR.sum_sq_dev l m.
Proof.
  unfold PyR.sum_sq_dev, PyR.sum.
  induction l as [|x l IH]; cbn [map fold_right]; [lra|].
  pose proof (pow2_ge_0 (PyR.fl x - m)). lra.
Qed.

Lemma fl_len_pos {A} (l : list A) : l <> [] -> 0 < PyR.fl (len l).
Proof.
  intros H. unfold PyR.fl, len. apply IZR_lt.
  destruct l; [congruence|simpl; lia].
Qed.

Lemma last_of_returns l : l <> [] -> exists x, last_of l = Ret x.
Proof. destruct l; [congruence|]. intros _. eexists. reflexivity. Qed.

Lemma min_of_returns l : l <> [] -> exists x, min_of l = Ret x.
Proof. destruct l; [congruence|]. intros _. eexists. reflexivity. Qed.

Lemma max_of_nonempty l : l <> [] -> exists x, max_of l = Ret x.
Proof. destruct l; [congruence|]. intros _. eexists. reflexivity. Qed.

(** The percentage step returns, and returns 0 when the peak is not
    positive. *)
Lemma pct_step peak max_dd :
  exists pct,
    (if (0 <? peak)%Z
     then q ← PyR.truediv (PyR.fl max_dd) (PyR.fl peak); Ret (q * 100)
     else Ret 0) = Ret pct /\
    ((peak <= 0)%Z -> pct = 0).
Proof.
  destruct (0 <? peak)%Z eqn:E.
  - apply Z.ltb_lt in E. rewrite truediv_ok.
    + eexists. split; [reflexivity|]. intros H. exfalso. lia.
    + unfold PyR.fl. apply not_0_IZR. lia.
  - exists 0. split; [reflexivity|reflexivity].
Qed.

(** The volatility step returns a non-negative number, and keeps the old
    value when there are fewer than two results. *)
Lemma vol_step (results : list Z) old :
  exists vol,
    (if (1 <? len results)%Z
     then
       mean ← PyR.truediv (PyR.fl (Py.sum results)) (PyR.fl (len results));
       variance ← PyR.truediv (PyR.sum_sq_dev results mean)
                              (PyR.fl (len results));
       PyR.math_sqrt variance
     else Ret old) = Ret vol /\
    ((length results < 2)%nat -> vol = old) /\
    (0 <= old -> 0 <= vol).
Proof.
  destruct (1 <? len results)%Z eqn:E.
  - apply Z.ltb_lt in E.
    assert (Hne : results <> []) by (intros ->; cbv in E; discriminate).
    pose proof (fl_len_pos results Hne) as Hpos.
    rewrite truediv_ok by lra. cbn [mbind outcome_bind Py.bind].
    rewrite truediv_ok by lra. cbn [mbind outcome_bind Py.bind].
    rewrite math_sqrt_ok.
    + eexists. split; [reflexivity|]. split.
      * intros H. exfalso. unfold len in E. lia.
      * intros _. apply sqrt_pos.
    + apply Rmult_le_pos; [apply sum_sq_dev_nonneg|].
      left. now apply Rinv_0_lt_compat.
  - exists old. split; [reflexivity|]. split; [reflexivity|tauto].
Qed.

(** The Sharpe step returns, and keeps the old value when the volatility
    is not positive. *)
Lemma sharpe_step (results : list Z) total vol old :
  exists sharpe,
    (if Rlt_dec 0 vol
     then if (0 <? len results)%Z
          then
            avg_profit ← PyR.truediv (PyR.fl total) (PyR.fl (len results));
            PyR.truediv avg_profit vol
          else Ret old
     else Ret old) = Ret sharpe /\
    (vol <= 0 -> sharpe = old).
Proof.
  destruct (Rlt_dec 0 vol) as [Hv|Hv].
  - destruct (0 <? len results)%Z eqn:E.
    + apply Z.ltb_lt in E.
      assert (Hne : results <> []) by (intros ->; cbv in E; discriminate).
      pose proof (fl_len_pos results Hne) as Hpos.
      rewrite truediv_ok by lra. cbn [mbind outcome_bind Py.bind].
      rewrite truediv_ok by lra.
      eexists. split; [reflexivity|]. intros H. exfalso. lra.
    + exists old. split; [reflexivity|reflexivity].
  - exists old. split; [reflexivity|reflexivity].
Qed.

Close Scope R_scope.
End TrajectoryFacts.

Module TrajectoryClaims.
Import Py Trajectory TrajectoryFacts.
Open Scope R_scope.

(** C10. On the object that the test run hands over, [compute_metrics]
    returns for every stack history and every list of hand results, so no
    division by zero and no other exception occurs.  On an empty stack
    history the object is left as it was, all metrics at their zero
    defaults; the drawdown percentage is 0 when the running peak is 0 (or
    below); the volatility is 0 with fewer than two hand results; and the
    Sharpe-like ratio is 0 when the volatility is 0. *)
Theorem compute_metrics_total (nm strat : string) (initial : Z)
  (stacks profits results : list Z) :
  exists t',
    compute_metrics (recorded nm strat initial stacks profits results) = Ret t' /\
    (stacks = [] -> t' = recorded nm strat initial stacks profits results) /\
    ((running_peak initial stacks <= 0)%Z -> max_drawdown_pct t' = 0) /\
    ((length results < 2)%nat -> volatility t' = 0) /\
    (volatility t' = 0 -> sharpe_ratio t' = 0).
Proof.
  destruct stacks as [|s0 stacks].
  - eexists. split; [reflexivity|]. repeat split; intros; reflexivity.
  - unfold compute_metrics.
    cbn [stack_history hand_results initial_stack volatility sharpe_ratio
         hands_won hands_lost name strategy profit_history recorded].
    cbn [last_of max_of min_of mbind outcome_bind Py.bind].
    unfold running_peak.
    destruct (drawdown_scan initial (s0 :: stacks)) as [peak max_dd].
    cbn [fst].
    destruct (pct_step peak max_dd) as (pct & Epct & Hpct).
    rewrite Epct. cbn [mbind outcome_bind Py.bind].
    destruct (vol_step results 0) as (vol & Evol & Hvol & Hvol0).
    rewrite Evol. cbn [mbind outcome_bind Py.bind].
    destruct (sharpe_step results
                (List.last stacks s0 - initial)%Z vol 0)
      as (sharpe & Esh & Hsh).
    rewrite Esh. cbn [mbind outcome_bind Py.bind].
    eexists. split; [reflexivity|].
    cbn [max_drawdown_pct volatility sharpe_ratio].
    repeat split.
    + discriminate.
    + exact Hpct.
    + exact Hvol.
    + intros E. apply Hsh. lra.
Qed.

(** C4. For initial stack 1000, stack history [1000, 1200, 900, 1500, 1400]
    and hand results [200, -300, 600, -100], [compute_metrics] returns
    with final stack 1400, total profit 400, peak stack 1500, maximum
    drawdown 300 and a volatility equal to the population standard
    deviation of the hand results, which is the square root of 115000.
    The drawdown is the one against the running peak: against the highest
    stack of the whole history it would be 600. *)
Theorem example_trajectory_metrics (nm strat : string) (profits : list Z) :
  exists t',
    compute_metrics
      (recorded nm strat 1000 [1000; 1200; 900; 1500; 1400]%Z profits
                [200; -300; 600; -100]%Z) = Ret t' /\
    final_stack t' = 1400%Z /\
    total_profit t' = 400%Z /\
    peak_stack t' = 1500%Z /\
    max_drawdown t' = 300%Z /\
    volatility t' = population_stddev [200; -300; 600; -100]%Z /\
    volatility t' = sqrt 115000 /\
    global_peak_drawdown 1000 [1000; 1200; 900; 1500; 1400]%Z = 600%Z.
Proof.
  unfold compute_metrics.
  cbn [stack_history hand_results initial_stack volatility sharpe_ratio
       hands_won hands_lost name strategy profit_history recorded].
  cbn [last_of max_of min_of mbind outcome_bind Py.bind].
  change (drawdown_scan 1000 [1000; 1200; 900; 1500; 1400]%Z)
    with (1500%Z, 300%Z).
  destruct (pct_step 1500 300) as (pct & Epct & _).
  rewrite Epct. cbn [mbind outcome_bind Py.bind].
  assert (Evol :
    (if (1 <? len [200; -300; 600; -100]%Z)%Z
     then
       mean ← PyR.truediv (PyR.fl (Py.sum [200; -300; 600; -100]%Z))
                          (PyR.fl (len [200; -300; 600; -100]%Z));
       variance ← PyR.truediv
                    (PyR.sum_sq_dev [200; -300; 600; -100]%Z mean)
                    (PyR.fl (len [200; -300; 600; -100]%Z));
       PyR.math_sqrt variance
     else Ret 0) = Ret (population_stddev [200; -300; 600; -100]%Z)).
  { change (1 <? len [200; -300; 600; -100]%Z)%Z with true.
    change (len [200; -300; 600; -100]%Z) with 4%Z.
    change (Py.sum [200; -300; 600; -100]%Z) with 400%Z.
    unfold PyR.fl.
    rewrite truediv_ok by lra. cbn [mbind outcome_bind Py.bind].
    rewrite truediv_ok by lra. cbn [mbind outcome_bind Py.bind].
    rewrite math_sqrt_ok.
    - unfold population_stddev, PyR.sum_sq_dev, PyR.fl.
      f_equal. f_equal. simpl. lra.
    - unfold PyR.sum_sq_dev, PyR.fl. simpl. lra. }
  rewrite Evol. cbn [mbind outcome_bind Py.bind].
  destruct (sharpe_step [200; -300; 600; -100]%Z
              (List.last [1200; 900; 1500; 1400] 1000 - 1000)%Z
              (population_stddev [200; -300; 600; -100]%Z) 0)
    as (sharpe & Esh & _).
  rewrite Esh. cbn [mbind outcome_bind Py.bind].
  eexists. split; [reflexivity|].
  cbn [final_stack total_profit peak_stack max_drawdown volatility].
  repeat split.
  unfold population_stddev, PyR.sum. simpl. f_equal. lra.
Qed.

Close Scope R_scope.
End TrajectoryClaims.

(* ===================================================================== *)
(** * Properties of the head-to-head table *)
(* ===================================================================== *)

Module SummaryFacts.
Import Py Summary.

Lemma sum_from (l : list Z) (a : Z) : fold_left Z.add l a = (a + Py.sum l)%Z.
Proof.
  unfold Py.sum. revert a. induction l as [|x l IH]; intros a; [simpl; lia|].
  cbn [fold_left]. rewrite (IH (a + x)%Z), (IH (0 + x)%Z). lia.
Qed.

Lemma sum_cons (x : Z) (l : list Z) : Py.sum (x :: l) = (x + Py.sum l)%Z.
Proof. unfold Py.sum at 1. cbn [fold_left]. rewrite sum_from. lia. Qed.

Lemma sum_app (l l' : list Z) : Py.sum (l ++ l') = (Py.sum l + Py.sum l')%Z.
Proof.
  induction l as [|x l IH]; [reflexivity|].
  simpl. rewrite !sum_cons, IH. lia.
Qed.

Lemma fold_left_bind {A B C} (f : C -> B -> C) (g : A -> list B) l c :
  fold_left f (l ≫= g) c = fold_left (fun c a => fold_left f (g a) c) l c.
Proof.
  revert c. induction l as [|a l IH]; intros c; [reflexivity|].
  cbn [mbind list_bind]. rewrite fold_left_app. apply IH.
Qed.

(** The nested loops make the updates of [attributions], in order. *)
Lemma head_to_head_updates hands :
  head_to_head hands = fold_left update (attributions hands) ∅.
Proof.
  unfold head_to_head, attributions.
  rewrite fold_left_bind. generalize (∅ : table).
  induction hands as [|hand hands IH]; intros h; [reflexivity|].
  cbn [fold_left]. rewrite <- IH. f_equal.
  unfold for_hand. rewrite fold_left_bind.
  generalize (players hand) at 1 3. intros ps. revert h.
  induction ps as [|p ps IHp]; intros h; [reflexivity|].
  cbn [fold_left]. rewrite <- IHp. f_equal.
  unfold for_player. rewrite fold_left_bind.
  generalize (players hand). intros os. revert h.
  induction os as [|o os IHo]; intros h; [reflexivity|].
  cbn [fold_left]. rewrite <- IHo. f_equal.
  unfold against. destruct (negb _); reflexivity.
Qed.

Lemma entry_add_to a b x h s1 s2 :
  entry (add_to a b x h) s1 s2 =
  if String.eqb a s1 && String.eqb b s2
  then Some (default 0 (entry h s1 s2) + x)%Z
  else entry h s1 s2.
Proof.
  unfold entry, add_to. cbv zeta.
  destruct (String.eqb a s1) eqn:Ea.
  - apply String.eqb_eq in Ea. subst s1. rewrite lookup_insert_eq.
    cbn [mbind option_bind].
    destruct (String.eqb b s2) eqn:Eb.
    + apply String.eqb_eq in Eb. subst s2. rewrite lookup_insert_eq.
      destruct (h !! a); reflexivity.
    + apply String.eqb_neq in Eb. rewrite lookup_insert_ne by exact Eb.
      destruct (h !! a); reflexivity.
  - apply String.eqb_neq in Ea. rewrite lookup_insert_ne by exact Ea.
    reflexivity.
Qed.

Lemma entry_updates l h s1 s2 :
  entry (fold_left update l h) s1 s2 =
  match snd <$> List.filter (goes_to s1 s2) l with
  | [] => entry h s1 s2
  | xs => Some (default 0 (entry h s1 s2) + Py.sum xs)%Z
  end.
Proof.
  revert h. induction l as [|u l IH]; intros h; [reflexivity|].
  cbn [fold_left List.filter]. rewrite IH.
  unfold update. rewrite entry_add_to. fold (goes_to s1 s2 u).
  destruct (goes_to s1 s2 u).
  - cbn [fmap list_fmap]. rewrite sum_cons.
    destruct (snd <$> List.filter (goes_to s1 s2) l) eqn:E.
    + cbn [default from_option id]. f_equal. change (Py.sum []) with 0%Z. lia.
    + cbn [default from_option]. unfold Datatypes.id. f_equal. lia.
  - reflexivity.
Qed.

Lemma filter_bind {A B} (f : B -> bool) (g : A -> list B) (l : list A) :
  List.filter f (l ≫= g) = l ≫= (fun a => List.filter f (g a)).
Proof.
  induction l as [|a l IH]; [reflexivity|].
  cbn [mbind list_bind]. rewrite List.filter_app. f_equal. exact IH.
Qed.

Lemma fmap_bind {A B C} (f : B -> C) (g : A -> list B) (l : list A) :
  f <$> (l ≫= g) = l ≫= (fun a => f <$> g a).
Proof.
  induction l as [|a l IH]; [reflexivity|].
  cbn [mbind list_bind]. rewrite fmap_app. f_equal. exact IH.
Qed.

Lemma bind_ext {A B} (g g' : A -> list B) (l : list A) :
  (forall a, g a = g' a) -> l ≫= g = l ≫= g'.
Proof.
  intros H. induction l as [|a l IH]; [reflexivity|].
  cbn [mbind list_bind]. now rewrite H, IH.
Qed.

(** The amounts that go to an entry are those of [attributed]. *)
Lemma goes_to_attributed hands s1 s2 :
  snd <$> List.filter (goes_to s1 s2) (attributions hands)
  = attributed hands s1 s2.
Proof.
  unfold attributions, attributed.
  rewrite filter_bind, fmap_bind. apply bind_ext. intros hand.
  rewrite filter_bind, fmap_bind. apply bind_ext. intros p.
  rewrite filter_bind, fmap_bind. apply bind_ext. intros o.
  destruct (negb (String.eqb (name o) (name p))); [|reflexivity].
  cbn [List.filter]. unfold goes_to. cbn [fst snd andb].
  destruct (String.eqb (strategy p) s1 && String.eqb (strategy o) s2);
    reflexivity.
Qed.

(** Every entry of the table, by pairs of differently named players. *)
Lemma entry_head_to_head hands s1 s2 :
  entry (head_to_head hands) s1 s2 =
  match attributed hands s1 s2 with
  | [] => None
  | xs => Some (Py.sum xs)
  end.
Proof.
  rewrite head_to_head_updates, entry_updates, goes_to_attributed.
  destruct (attributed hands s1 s2); [reflexivity|].
  reflexivity.
Qed.

End SummaryFacts.

Module SummaryClaims.
Import Py Summary SummaryFacts.

Lemma bind_nil {A B} (g : A -> list B) (l : list A) :
  (forall a, a ∈ l -> g a = []) -> l ≫= g = [].
Proof.
  induction l as [|a l IH]; intros H; [reflexivity|].
  cbn [mbind list_bind]. rewrite H by left. rewrite IH; [reflexivity|].
  intros b Hb. apply H. now right.
Qed.

Lemma bind_ext_in {A B} (g g' : A -> list B) (l : list A) :
  (forall a, a ∈ l -> g a = g' a) -> l ≫= g = l ≫= g'.
Proof.
  induction l as [|a l IH]; intros H; [reflexivity|].
  cbn [mbind list_bind]. rewrite H by left. rewrite IH; [reflexivity|].
  intros b Hb. apply H. now right.
Qed.

Lemma bind_if_filter {A B} (c : A -> bool) (f : A -> B) (l : list A) :
  l ≫= (fun a => if c a then [f a] else []) = f <$> List.filter c l.
Proof.
  induction l as [|a l IH]; [reflexivity|].
  cbn [mbind list_bind List.filter]. rewrite IH.
  destruct (c a); reflexivity.
Qed.

Lemma inj_on_NoDup {A B} (f : A -> B) (l : list A) a b :
  NoDup (f <$> l) -> a ∈ l -> b ∈ l -> f a = f b -> a = b.
Proof.
  induction l as [|x l IH]; intros Hnd Ha Hb E.
  - inversion Ha.
  - rewrite fmap_cons in Hnd. apply NoDup_cons in Hnd as [Hx Hnd].
    apply elem_of_cons in Ha as [->|Ha]; apply elem_of_cons in Hb as [->|Hb].
    + reflexivity.
    + exfalso. apply Hx. rewrite E. now apply list_elem_of_fmap_2.
    + exfalso. apply Hx. rewrite <- E. now apply list_elem_of_fmap_2.
    + now apply IH.
Qed.

Lemma existsb_false_in {A} (c : A -> bool) (l : list A) a :
  existsb c l = false -> a ∈ l -> c a = false.
Proof.
  induction l as [|x l IH]; intros H Ha; [inversion Ha|].
  cbn [existsb] in H. apply orb_false_iff in H as [Hx Hl].
  apply elem_of_cons in Ha as [->|Ha]; [exact Hx|now apply IH].
Qed.

(** With one player per style, the opponents of a player that count
    towards a style are one or none. *)
Lemma opponents_of_style os nm (b : bool) (x : Z) s2 :
  NoDup (strategy <$> os) ->
  (forall o, o ∈ os -> strategy o = s2 -> name o <> nm) ->
  os ≫= (fun o => if negb (String.eqb (name o) nm) && b
                      && String.eqb (strategy o) s2
                   then [x] else [])
  = if b && existsb (fun o => String.eqb (strategy o) s2) os
    then [x] else [].
Proof.
  induction os as [|o os IH]; intros Hnd Hname.
  - rewrite andb_false_r. reflexivity.
  - rewrite fmap_cons in Hnd. apply NoDup_cons in Hnd as [Ho Hnd].
    cbn [mbind list_bind existsb].
    destruct (String.eqb (strategy o) s2) eqn:Es.
    + apply String.eqb_eq in Es.
      assert (En : String.eqb (name o) nm = false).
      { apply String.eqb_neq. apply Hname; [left|exact Es]. }
      rewrite En. cbn [negb andb orb]. rewrite andb_true_r.
      rewrite bind_nil.
      * destruct b; reflexivity.
      * intros o' Ho'.
        assert (E' : String.eqb (strategy o') s2 = false).
        { apply String.eqb_neq. intros E'. apply Ho. rewrite Es, <- E'.
          now apply list_elem_of_fmap_2. }
        rewrite E', andb_false_r. reflexivity.
    + rewrite andb_false_r. cbn [app orb]. apply IH; [exact Hnd|].
      intros o' Ho'. apply Hname. now right.
Qed.

(** What one hand attributes to a pair of styles. *)
Lemma attributed_one_hand hand s1 s2 :
  NoDup (strategy <$> players hand) ->
  NoDup (name <$> players hand) ->
  (players hand ≫= fun player =>
     players hand ≫= fun opponent =>
       if negb (String.eqb (name opponent) (name player))
          && String.eqb (strategy player) s1
          && String.eqb (strategy opponent) s2
       then [stack_change player] else [])
  = if String.eqb s1 s2 then []
    else if present hand s1 && present hand s2
         then [style_delta hand s1] else [].
Proof.
  intros Hs Hn.
  destruct (String.eqb s1 s2) eqn:E12.
  - apply String.eqb_eq in E12. subst s2.
    apply bind_nil. intros p Hp. apply bind_nil. intros o Ho.
    destruct (String.eqb (strategy p) s1) eqn:Ep;
      [|rewrite andb_false_r; reflexivity].
    destruct (String.eqb (strategy o) s1) eqn:Eo;
      [|rewrite andb_false_r; reflexivity].
    apply String.eqb_eq in Ep, Eo.
    assert (o = p) as ->.
    { apply (inj_on_NoDup strategy (players hand)); congruence. }
    rewrite String.eqb_refl. reflexivity.
  - apply String.eqb_neq in E12.
    rewrite (bind_ext_in _
      (fun p => if String.eqb (strategy p) s1 && present hand s2
                then [stack_change p] else [])).
    + fold (present hand s2).
      destruct (present hand s2) eqn:P2.
      * rewrite andb_true_r.
        rewrite (bind_ext _ (fun p => if String.eqb (strategy p) s1
                                      then [stack_change p] else [])).
        2:{ intros p. rewrite andb_true_r. reflexivity. }
        rewrite bind_if_filter. unfold style_delta, present.
        clear Hn P2.
        induction (players hand) as [|p ps IH]; [reflexivity|].
        rewrite fmap_cons in Hs. apply NoDup_cons in Hs as [Hp Hs].
        cbn [List.filter existsb].
        destruct (String.eqb (strategy p) s1) eqn:Ep.
        -- apply String.eqb_eq in Ep. cbn [orb].
           assert (Enil : List.filter
                     (fun p0 => String.eqb (strategy p0) s1) ps = []).
           { clear IH. induction ps as [|q ps IHq]; [reflexivity|].
             cbn [List.filter].
             destruct (String.eqb (strategy q) s1) eqn:Eq.
             - exfalso. apply String.eqb_eq in Eq. apply Hp.
               rewrite Ep, <- Eq. rewrite fmap_cons. left.
             - apply IHq.
               + intros H. apply Hp. rewrite fmap_cons. now right.
               + rewrite fmap_cons in Hs. now apply NoDup_cons in Hs as [_ Hs]. }
           rewrite Enil. reflexivity.
        -- cbn [orb]. apply IH. exact Hs.
      * rewrite andb_false_r.
        apply bind_nil. intros p _. rewrite andb_false_r. reflexivity.
    + intros p Hp.
      destruct (String.eqb (strategy p) s1) eqn:Ep.
      * apply String.eqb_eq in Ep.
        rewrite opponents_of_style; [reflexivity|exact Hs|].
        intros o Ho Eo En. apply E12.
        assert (o = p) as -> by
          (apply (inj_on_NoDup name (players hand)); assumption).
        congruence.
      * apply bind_nil. intros o _. rewrite andb_false_r. reflexivity.
Qed.

Lemma attributed_one_seat hands s1 s2 :
  one_seat_per_style hands ->
  attributed hands s1 s2 =
  if String.eqb s1 s2 then []
  else (fun hand => style_delta hand s1) <$> together hands s1 s2.
Proof.
  intros H. unfold attributed, together.
  rewrite (bind_ext_in _
    (fun hand => if String.eqb s1 s2 then []
                 else if present hand s1 && present hand s2
                      then [style_delta hand s1] else [])).
  - destruct (String.eqb s1 s2).
    + apply bind_nil. reflexivity.
    + apply bind_if_filter.
  - intros hand Hh. unfold one_seat_per_style in H.
    rewrite Forall_forall in H. destruct (H hand Hh) as [Hs Hn].
    now apply attributed_one_hand.
Qed.

(** C8, as the code has it.  Every entry of the head-to-head table is
    the sum, over the hands and over the ordered pairs of differently
    named players of a hand, of the first player's stack delta, filed
    under the two players' styles; there is an entry exactly when there is
    such a pair.  When no two players of a hand share a style or a name,
    this is the attribution of the specification: for distinct styles
    present together in a hand the sum over those hands of the first
    style's stack delta, and no entry for a style against itself. *)
Theorem head_to_head_by_named_pairs :
  (forall hands s1 s2,
      entry (head_to_head hands) s1 s2 =
      match attributed hands s1 s2 with
      | [] => None
      | xs => Some (Py.sum xs)
      end) /\
  (forall hands, one_seat_per_style hands -> as_specified hands).
Proof.
  split; [exact entry_head_to_head|].
  intros hands H s1 s2.
  rewrite entry_head_to_head, attributed_one_seat by exact H.
  unfold specified_entry.
  destruct (String.eqb s1 s2); [reflexivity|].
  destruct (together hands s1 s2); reflexivity.
Qed.

(** A hand with two players of the style [tag] and one of the style
    [lag]. *)
Lemma head_to_head_by_named_pairs_witness :
  let hand :=
    {| hand_id := 1;
       players := [ {| seat := 0; name := "P1"; strategy := "tag";
                       stack_change := 10 |};
                    {| seat := 1; name := "P2"; strategy := "lag";
                       stack_change := -10 |} ] |} in
  one_seat_per_style [hand] /\ as_specified [hand] /\
  entry (head_to_head [hand]) "tag" "lag" = Some 10%Z.
Proof.
  intros hand.
  assert (H : one_seat_per_style [hand]).
  { apply (bool_decide_unpack _). vm_compute. exact I. }
  split; [exact H|]. split.
  - exact (proj2 head_to_head_by_named_pairs [hand] H).
  - rewrite entry_head_to_head. reflexivity.
Defined.

(** C8, as stated, fails: two players of the same style at one table
    produce an entry for that style against itself, and a style that faces
    two players of another style is credited with its delta twice. *)
Lemma same_style_players_have_an_entry :
  exists hands,
    entry (head_to_head hands) "tag" "tag" = Some 15%Z /\
    specified_entry hands "tag" "tag" = None /\
    entry (head_to_head hands) "lag" "tag" = Some (-30)%Z /\
    specified_entry hands "lag" "tag" = Some (-15)%Z /\
    ~ as_specified hands.
Proof.
  exists [ {| hand_id := 1;
              players := [ {| seat := 0; name := "P1"; strategy := "tag";
                              stack_change := 10 |};
                           {| seat := 1; name := "P2"; strategy := "tag";
                              stack_change := 5 |};
                           {| seat := 2; name := "P3"; strategy := "lag";
                              stack_change := -15 |} ] |} ].
  split; [|split; [|split; [|split]]].
  - rewrite entry_head_to_head. reflexivity.
  - reflexivity.
  - rewrite entry_head_to_head. reflexivity.
  - reflexivity.
  - intros H. specialize (H "tag" "tag").
    rewrite entry_head_to_head in H. discriminate H.
Qed.

End SummaryClaims.

(* ===================================================================== *)
(** * Reasoning about the Omaha player *)
(* ===================================================================== *)

Module OmahaFacts.
Import Py Scorer Omaha OmahaSpec.

(** ** Rules for the weakest-precondition reading of [M] *)

Lemma wp_bind {A B} (m : M A) (k : A -> M B) Q s :
  wp m (fun r s' => match r with
                    | Ret a => wp (k a) Q s'
                    | Raise e => Q (Raise e) s'
                    end) s ->
  wp (m ≫= k) Q s.
Proof.
  unfold wp, mbind, M_bind. destruct (m s) as [[a|e] s']; simpl; auto.
Qed.

Lemma wp_ret {A} (a : A) (Q : outcome A -> ctx -> Prop) s :
  Q (Ret a) s -> wp (mret a) Q s.
Proof. auto. Qed.

Lemma wp_raise {A} e (Q : outcome A -> ctx -> Prop) s :
  Q (Raise e) s -> wp (raise e) Q s.
Proof. auto. Qed.

Lemma wp_lift {A} (o : outcome A) (Q : outcome A -> ctx -> Prop) s :
  Q o s -> wp (lift o) Q s.
Proof. auto. Qed.

Lemma wp_get_self (Q : outcome player -> ctx -> Prop) s :
  Q (Ret (self s)) s -> wp get_self Q s.
Proof. auto. Qed.

Lemma wp_modify f (Q : outcome unit -> ctx -> Prop) s :
  Q (Ret tt) {| self := f (self s); rnd := rnd s; net := net s |} ->
  wp (modify f) Q s.
Proof. auto. Qed.

Lemma wp_random draws (Q : outcome Q -> ctx -> Prop) s :
  Q (Ret (draws (rnd s))) {| self := self s; rnd := S (rnd s); net := net s |} ->
  wp (random draws) Q s.
Proof. auto. Qed.

Lemma wp_post advisor gs (Q : outcome reply -> ctx -> Prop) s :
  Q (Ret (advisor (net s) gs))
    {| self := self s; rnd := rnd s; net := S (net s) |} ->
  wp (post advisor gs) Q s.
Proof. auto. Qed.

Lemma wp_try {A} (body handler : M A) Q s :
  wp body (fun r s' => match r with
                       | Ret a => Q (Ret a) s'
                       | Raise _ => wp handler Q s'
                       end) s ->
  wp (try_except body handler) Q s.
Proof.
  unfold wp, try_except. destruct (body s) as [[a|e] s']; simpl; auto.
Qed.

Lemma wp_act label amount (Q : outcome decision -> ctx -> Prop) s :
  Q (Ret (label, amount))
    {| self := set_actions (incr label) (self s); rnd := rnd s; net := net s |} ->
  wp (act label amount) Q s.
Proof. auto. Qed.

Lemma wp_mono {A} (m : M A) (Q Q' : outcome A -> ctx -> Prop) s :
  (forall r s', Q r s' -> Q' r s') -> wp m Q s -> wp m Q' s.
Proof. unfold wp. auto. Qed.

(** One step of symbolic execution. *)
Ltac wp_step :=
  match goal with
  | |- wp (_ ≫= _) _ _ => apply wp_bind
  | |- wp (mret _) _ _ => apply wp_ret
  | |- wp (raise _) _ _ => apply wp_raise
  | |- wp (lift ?o) _ _ => apply wp_lift; destruct o eqn:?
  | |- wp get_self _ _ => apply wp_get_self
  | |- wp (modify _) _ _ => apply wp_modify
  | |- wp (random _) _ _ => apply wp_random
  | |- wp (post _ _) _ _ => apply wp_post
  | |- wp (try_except _ _) _ _ => apply wp_try
  | |- wp (act _ _) _ _ => apply wp_act
  | |- wp (if ?b then _ else _) _ _ => destruct b eqn:?
  | |- wp (match ?x with _ => _ end) _ _ => destruct x eqn:?
  end.

End OmahaFacts.

Module OmahaLegal.
Import Py Scorer Policy Advisor Omaha OmahaSpec OmahaFacts.

Section WithWorld.
Variable draws : nat -> Q.
Variable advisor : nat -> request -> reply.

Ltac legal_leaf :=
  unfold returns_legal, legal; simpl;
  repeat match goal with
         | H : (_ && _) = true |- _ => apply andb_true_iff in H; destruct H
         | H : (_ <=? _)%Z = true |- _ => apply Z.leb_le in H
         | H : (_ =? _)%Z = true |- _ => apply Z.eqb_eq in H
         end;
  first [ exact I | left; split; [reflexivity | lia]
        | right; left; split; [reflexivity | lia]
        | right; right; split; [reflexivity | lia] ].

Lemma raise_to_optimal_legal sizing call mnr mxr s :
  (mnr <= mxr)%Z ->
  wp (raise_to_optimal sizing mnr mxr) (returns_legal call mnr mxr) s.
Proof.
  intros H. unfold raise_to_optimal. repeat wp_step; legal_leaf.
Qed.

Lemma heuristic_legal call pot stk mnr mxr s :
  wp (_heuristic draws call pot stk mnr mxr) (returns_legal call mnr mxr) s.
Proof.
  unfold _heuristic. repeat wp_step; legal_leaf.
Qed.

Lemma style_action_legal action sizing call pot stk mnr mxr s :
  wp (_style_action draws action sizing call pot stk mnr mxr)
     (returns_legal call mnr mxr) s.
Proof.
  unfold _style_action.
  repeat (first [ apply raise_to_optimal_legal;
                  repeat match goal with
                  | H : (_ && _) = true |- _ =>
                      apply andb_true_iff in H; destruct H
                  | H : (_ <=? _)%Z = true |- _ => apply Z.leb_le in H
                  end; assumption
                | wp_step ]); legal_leaf.
Qed.

Lemma preflop_legal hole call pot stk mnr mxr num_p hand_num s :
  wp (_preflop draws hole call pot stk mnr mxr num_p hand_num)
     (returns_legal call mnr mxr) s.
Proof.
  unfold _preflop, mark_vpip. repeat wp_step; legal_leaf.
Qed.

Lemma postflop_legal hole board call pot stk mnr mxr street num_p hand_num s :
  wp (_postflop draws advisor hole board call pot stk mnr mxr street
        num_p hand_num) (returns_legal call mnr mxr) s.
Proof.
  unfold _postflop, ask_advisor.
  repeat (first [ apply heuristic_legal
                | eapply wp_mono; [| apply style_action_legal ];
                  intros [d|e] s' Hr
                | wp_step ]; cbv beta iota); try assumption; try legal_leaf.
Qed.

Lemma decide_legal obs street_idx num_p hand_num s :
  wp (decide draws advisor obs street_idx num_p hand_num)
     (returns_legal (o_call obs) (o_min_raise obs) (o_max_raise obs)) s.
Proof.
  unfold decide.
  repeat (first [ apply preflop_legal | apply postflop_legal | wp_step ];
          cbv beta iota); try legal_leaf.
Qed.

End WithWorld.
End OmahaLegal.

Module OmahaVpip.
Import Py Scorer Policy Advisor Omaha OmahaSpec OmahaFacts.

Section WithWorld.
Variable draws : nat -> Q.
Variable advisor : nat -> request -> reply.

Ltac vpip_leaf :=
  unfold keeps_vpip, vpip_inv in *; cbn in *;
  repeat match goal with
         | |- context [vpip_this_hand ?p] =>
             is_var p; destruct (vpip_this_hand p) eqn:?
         | |- context [if vpip_this_hand ?p then _ else _] =>
             destruct (vpip_this_hand p) eqn:?
         end; cbn in *; try lia.

Lemma heuristic_vpip v0 call pot stk mnr mxr s :
  vpip_inv v0 (self s) ->
  wp (_heuristic draws call pot stk mnr mxr) (keeps_vpip v0) s.
Proof.
  intros H. unfold _heuristic.
  repeat (wp_step; cbv beta iota); exact H.
Qed.

Lemma style_action_vpip v0 action sizing call pot stk mnr mxr s :
  vpip_inv v0 (self s) ->
  wp (_style_action draws action sizing call pot stk mnr mxr) (keeps_vpip v0) s.
Proof.
  intros H. unfold _style_action, raise_to_optimal.
  repeat (wp_step; cbv beta iota); exact H.
Qed.

Lemma preflop_vpip v0 hole call pot stk mnr mxr num_p hand_num s :
  vpip_inv v0 (self s) ->
  wp (_preflop draws hole call pot stk mnr mxr num_p hand_num) (keeps_vpip v0) s.
Proof.
  intros H. unfold _preflop, mark_vpip.
  repeat (wp_step; cbv beta iota);
    unfold keeps_vpip, vpip_inv in *; cbn [self set_actions vpip_hands vpip_this_hand] in *;
    try exact H;
    destruct (vpip_this_hand (self s)) eqn:E; cbn; rewrite ?E; lia.
Qed.

Ltac by_inv :=
  match goal with
  | H : keeps_vpip _ _ _ |- _ => exact H
  | H : vpip_inv _ _ |- _ => exact H
  end.

Lemma postflop_vpip v0 hole board call pot stk mnr mxr street num_p hand_num s :
  vpip_inv v0 (self s) ->
  wp (_postflop draws advisor hole board call pot stk mnr mxr street
        num_p hand_num) (keeps_vpip v0) s.
Proof.
  intros H. unfold _postflop, ask_advisor.
  repeat (first [ apply heuristic_vpip; by_inv
                | eapply wp_mono; [| apply style_action_vpip; by_inv ];
                  intros [d|e] s' Hr; clear H
                | wp_step ]; cbv beta iota); by_inv.
Qed.

Lemma decide_vpip v0 obs street_idx num_p hand_num s :
  vpip_inv v0 (self s) ->
  wp (decide draws advisor obs street_idx num_p hand_num) (keeps_vpip v0) s.
Proof.
  intros H. unfold decide.
  repeat (first [ apply preflop_vpip; exact H
                | apply postflop_vpip; exact H
                | wp_step ]; cbv beta iota); exact H.
Qed.

(** Every seat keeps its invariant through one turn of the loop. *)
Lemma decide_at_vpip num_p hand_num pt (vs : list Z) t :
  Forall2 vpip_inv vs (seats t) ->
  Forall2 vpip_inv vs (seats (snd (decide_at draws advisor num_p hand_num pt t))).
Proof.
  intros H. unfold decide_at. destruct pt as [[i obs] street_idx].
  destruct (seats t !! i) as [p|] eqn:Ei; [|exact H].
  destruct (Forall2_lookup_r _ _ _ _ _ H Ei) as (v0 & Ev & Hv).
  pose proof (decide_vpip v0 obs street_idx num_p hand_num
                {| self := p; rnd := t_rnd t; net := t_net t |} Hv) as W.
  unfold wp, keeps_vpip in W.
  destruct (decide _ _ _ _ _ _ _) as [r c]. cbn in *.
  rewrite <- (list_insert_id vs i v0 Ev).
  apply Forall2_insert; assumption.
Qed.

Lemma decisions_vpip num_p hand_num pts (vs : list Z) t :
  Forall2 vpip_inv vs (seats t) ->
  Forall2 vpip_inv vs (seats (snd (decisions draws advisor num_p hand_num pts t))).
Proof.
  revert t. induction pts as [|pt rest IH]; intros t H; [exact H|].
  cbn [decisions].
  pose proof (decide_at_vpip num_p hand_num pt vs t H) as H1.
  destruct (decide_at _ _ _ _ _ _) as [[d|e] t']; [|exact H1].
  specialize (IH t' H1).
  destruct (decisions _ _ _ _ _ t') as [[ds|e] t'']; exact IH.
Qed.

Lemma reset_flags_vpip t :
  Forall2 vpip_inv (vpip_hands <$> seats t) (seats (reset_flags t)).
Proof.
  unfold reset_flags. cbn. induction (seats t) as [|p l IH]; cbn.
  - constructor.
  - constructor; [|exact IH]. unfold vpip_inv. cbn. lia.
Qed.

End WithWorld.
End OmahaVpip.

Module OmahaFallback.
Import Py Scorer Policy Advisor Omaha OmahaSpec OmahaFacts.

Section WithWorld.
Variable draws : nat -> Q.
Variable advisor : nat -> request -> reply.

Ltac reduce_fields :=
  cbv beta iota delta
    [mbind M_bind mret M_ret get_self random act modify lift raise tweak
     self rnd net fst snd sd style threshold idx variant fast_mode
     vpip_hands vpip_this_hand api_errors advisor_calls actions streets
     hands wins profit per_hand set_fast_mode set_api_errors set_actions
     set_vpip set_streets set_advisor_calls position].

Ltac run_both :=
  reduce_fields;
  repeat (match goal with
          | |- context [if ?b then _ else _] => destruct b eqn:?
          | |- context [match ?o with Ret _ => _ | Raise _ => _ end] =>
              destruct o eqn:?
          | |- context [match ?o with Some _ => _ | None => _ end] =>
              destruct o eqn:?
          end; reduce_fields);
  try reflexivity.

Lemma heuristic_blind call pot stk mnr mxr :
  blind (_heuristic draws call pot stk mnr mxr).
Proof.
  intros b g n [[] r k]. unfold _heuristic. run_both.
Qed.

Lemma preflop_blind hole call pot stk mnr mxr num_p hand_num :
  blind (_preflop draws hole call pot stk mnr mxr num_p hand_num).
Proof.
  intros b g n [[] r k]. unfold _preflop, mark_vpip. run_both.
Qed.

(** In heuristic mode the advisor is not asked. *)
Lemma postflop_fast hole board call pot stk mnr mxr street num_p hand_num s :
  fast_mode (self s) = true ->
  _postflop draws advisor hole board call pot stk mnr mxr street
    num_p hand_num s
  = _heuristic draws call pot stk mnr mxr s.
Proof.
  intros H. unfold _postflop.
  cbv beta iota delta [mbind M_bind get_self]. rewrite H. reflexivity.
Qed.

(** Before the flop is dealt the advisor is not asked either. *)
Lemma postflop_no_board hole board call pot stk mnr mxr street num_p hand_num s :
  (3 <=? len board)%Z = false ->
  _postflop draws advisor hole board call pot stk mnr mxr street
    num_p hand_num s
  = _heuristic draws call pot stk mnr mxr s.
Proof.
  intros H. unfold _postflop, ask_advisor, try_except.
  cbv beta iota delta [mbind M_bind get_self mret M_ret].
  rewrite H. destruct (fast_mode (self s)); reflexivity.
Qed.

(** In oracle mode, with a board and an advisor that always fails, the
    attempt ends in the handler: one more error, at most one request sent,
    and the heuristic decides. *)
Lemma postflop_fails hole board call pot stk mnr mxr street num_p hand_num s :
  always_fails advisor ->
  fast_mode (self s) = false ->
  (3 <=? len board)%Z = true ->
  exists n', (net s <= n' <= S (net s))%nat /\
    _postflop draws advisor hole board call pot stk mnr mxr street
      num_p hand_num s
    = _heuristic draws call pot stk mnr mxr (failed_once n' s).
Proof.
  intros Hfail Hmode Hboard. unfold _postflop, ask_advisor, try_except.
  cbv beta iota delta [mbind M_bind get_self mret M_ret lift post raise
                       modify].
  rewrite Hmode, Hboard. cbv beta iota.
  destruct (card_strs (take (variant (self s)) hole)) as [hs|e];
    [|exists (net s); split; [lia|reflexivity]].
  destruct (card_strs board) as [bs|e];
    [|exists (net s); split; [lia|reflexivity]].
  destruct (position (self s) num_p hand_num) as [pos|e];
    [|exists (net s); split; [lia|reflexivity]].
  cbv beta iota.
  match goal with
  | |- context [advisor ?n ?gs] => destruct (Hfail n gs) as [e ->]
  end.
  exists (S (net s)). split; [lia|reflexivity].
Qed.

(** [decide], one step at a time. *)
Lemma decide_unfold obs street_idx num_p hand_num s :
  decide draws advisor obs street_idx num_p hand_num s =
  let street := default "preflop" (STREET_NAMES street_idx) in
  let s1 := {| self := set_streets (incr street) (self s);
               rnd := rnd s; net := net s |} in
  match o_stacks obs !! idx (self s) with
  | None => (Raise IndexError, s1)
  | Some stk =>
      if (street_idx =? 0)%Z
      then _preflop draws (o_hole_cards obs) (o_call obs) (o_pot obs) stk
             (o_min_raise obs) (o_max_raise obs) num_p hand_num s1
      else _postflop draws advisor (o_hole_cards obs) (o_community_cards obs)
             (o_call obs) (o_pot obs) stk (o_min_raise obs) (o_max_raise obs)
             street num_p hand_num s1
  end.
Proof.
  unfold decide.
  cbv beta iota zeta delta [mbind M_bind get_self modify mret M_ret raise].
  destruct (o_stacks obs !! idx (self s)); [|reflexivity].
  destruct (street_idx =? 0)%Z; reflexivity.
Qed.

Lemma heuristic_mode b call pot stk mnr mxr s :
  fast_mode (self s) = b ->
  wp (_heuristic draws call pot stk mnr mxr) (keeps_mode b) s.
Proof.
  intros H. unfold _heuristic.
  repeat (wp_step; cbv beta iota); exact H.
Qed.

Lemma preflop_mode b hole call pot stk mnr mxr num_p hand_num s :
  fast_mode (self s) = b ->
  wp (_preflop draws hole call pot stk mnr mxr num_p hand_num)
     (keeps_mode b) s.
Proof.
  intros H. unfold _preflop, mark_vpip.
  repeat (wp_step; cbv beta iota);
    unfold keeps_mode; cbn [self]; try exact H;
    destruct (vpip_this_hand (self s)); exact H.
Qed.

(** A player in heuristic mode stays in heuristic mode. *)
Lemma decide_stays_fast obs street_idx num_p hand_num s :
  fast_mode (self s) = true ->
  fast_mode (self (snd (decide draws advisor obs street_idx num_p hand_num s)))
  = true.
Proof.
  intros H. rewrite decide_unfold. cbv zeta.
  destruct (o_stacks obs !! idx (self s)); [|exact H].
  destruct (street_idx =? 0)%Z.
  - apply (preflop_mode true). exact H.
  - rewrite postflop_fast by exact H. apply (heuristic_mode true). exact H.
Qed.

(** One decision in the two modes: the oracle-mode player decides as the
    heuristic-mode player does, and ends in the same state but for the
    error counter and the number of requests sent. *)
Lemma decide_modes obs street_idx num_p hand_num sh (a : Z) (k : nat) :
  always_fails advisor ->
  fast_mode (self sh) = true ->
  exists a' k',
    decide draws advisor obs street_idx num_p hand_num
      (tweak false (fun _ => a) (fun _ => k) sh)
    = (fst (decide draws advisor obs street_idx num_p hand_num sh),
       tweak false (fun _ => a') (fun _ => k')
         (snd (decide draws advisor obs street_idx num_p hand_num sh))) /\
    (k <= k' <= S k)%nat /\
    (forall d,
        fst (decide draws advisor obs street_idx num_p hand_num sh) = Ret d ->
        a' = (a + (if negb (street_idx =? 0)%Z
                      && (3 <=? len (o_community_cards obs))%Z
                   then 1 else 0))%Z).
Proof.
  intros Hfail Hfast. rewrite !decide_unfold. cbv zeta.
  change (idx (self (tweak false (fun _ => a) (fun _ => k) sh)))
    with (idx (self sh)).
  set (s1 := {| self := set_streets _ (self sh); rnd := rnd sh;
                net := net sh |}).
  change {| self := set_streets _ (self (tweak false _ _ sh));
            rnd := rnd (tweak false _ _ sh);
            net := net (tweak false _ _ sh) |}
    with (tweak false (fun _ => a) (fun _ => k) s1).
  destruct (o_stacks obs !! idx (self sh)) as [stk|].
  2:{ exists a, k. repeat split; try lia. intros d Hd. discriminate Hd. }
  destruct (street_idx =? 0)%Z.
  { rewrite preflop_blind. exists a, k. cbn [negb andb].
    repeat split; try lia. }
  cbn [negb andb].
  rewrite (postflop_fast _ _ _ _ _ _ _ _ _ _ s1) by exact Hfast.
  destruct (3 <=? len (o_community_cards obs))%Z eqn:Hboard.
  - destruct (postflop_fails (o_hole_cards obs) (o_community_cards obs)
                (o_call obs) (o_pot obs) stk (o_min_raise obs)
                (o_max_raise obs)
                (default "preflop" (STREET_NAMES street_idx)) num_p hand_num
                (tweak false (fun _ => a) (fun _ => k) s1)
                Hfail eq_refl Hboard) as (n' & Hn & E).
    rewrite E.
    change (failed_once n' (tweak false (fun _ => a) (fun _ => k) s1))
      with (tweak false (fun _ => (1 + a)%Z) (fun _ => n') s1).
    rewrite heuristic_blind. exists (1 + a)%Z, n'.
    cbn [net tweak] in Hn. repeat split; try lia.
  - rewrite postflop_no_board by exact Hboard.
    rewrite heuristic_blind. exists a, k. repeat split; try lia.
Qed.

(** The heuristic always comes to a decision. *)
Lemma heuristic_returns call pot stk mnr mxr s :
  exists d, fst (_heuristic draws call pot stk mnr mxr s) = Ret d.
Proof.
  change (wp (_heuristic draws call pot stk mnr mxr)
            (fun r _ => exists d, r = Ret d) s).
  unfold _heuristic.
  repeat (wp_step; cbv beta iota); eexists; reflexivity.
Qed.

(** With an advisor that always fails, the postflop decision is never an
    exception: the failure stays inside [_postflop]. *)
Lemma postflop_returns hole board call pot stk mnr mxr street num_p hand_num s :
  always_fails advisor ->
  exists d,
    fst (_postflop draws advisor hole board call pot stk mnr mxr street
           num_p hand_num s) = Ret d.
Proof.
  intros Hfail.
  destruct (fast_mode (self s)) eqn:Hmode.
  - rewrite postflop_fast by exact Hmode. apply heuristic_returns.
  - destruct (3 <=? len board)%Z eqn:Hboard.
    + destruct (postflop_fails hole board call pot stk mnr mxr street
                  num_p hand_num s Hfail Hmode Hboard) as (n' & _ & E).
      rewrite E. apply heuristic_returns.
    + rewrite postflop_no_board by exact Hboard. apply heuristic_returns.
Qed.

Lemma consultations_cons j pt pts :
  consultations j (pt :: pts)
  = ((if consults_at j pt then 1 else 0) + consultations j pts)%Z.
Proof.
  unfold consultations, len. cbn [List.filter].
  destruct (consults_at j pt); cbn [length]; lia.
Qed.

(** One turn of the loop at twin tables. *)
Lemma decide_at_modes num_p hand_num pt t_o t_h :
  always_fails advisor ->
  twin_tables t_o t_h ->
  fst (decide_at draws advisor num_p hand_num pt t_o)
  = fst (decide_at draws advisor num_p hand_num pt t_h) /\
  twin_tables (snd (decide_at draws advisor num_p hand_num pt t_o))
              (snd (decide_at draws advisor num_p hand_num pt t_h)) /\
  (forall j p, seats t_o !! j = Some p ->
     exists p',
       seats (snd (decide_at draws advisor num_p hand_num pt t_o)) !! j
       = Some p' /\
       (forall d, fst (decide_at draws advisor num_p hand_num pt t_o) = Ret d ->
          api_errors p'
          = (api_errors p + (if consults_at j pt then 1 else 0))%Z)).
Proof.
  intros Hfail [Hseats Hrnd]. destruct pt as [[i obs] street_idx].
  unfold decide_at.
  destruct (seats t_o !! i) as [po|] eqn:Eo.
  - destruct (Forall2_lookup_l _ _ _ _ _ Hseats Eo) as (ph & Eh & Hfast & Etwin).
    rewrite Eh.
    set (a := api_errors po) in *.
    set (sh := {| self := ph; rnd := t_rnd t_h; net := t_net t_h |}).
    replace {| self := po; rnd := t_rnd t_o; net := t_net t_o |}
      with (tweak false (fun _ => a) (fun _ => t_net t_o) sh)
      by (unfold tweak, sh; cbn [self rnd net]; rewrite <- Etwin, Hrnd;
          reflexivity).
    destruct (decide_modes obs street_idx num_p hand_num sh a (t_net t_o)
                Hfail Hfast) as (a' & k' & E & _ & Ha).
    pose proof (decide_stays_fast obs street_idx num_p hand_num sh Hfast)
      as Hfast'.
    rewrite E.
    destruct (decide draws advisor obs street_idx num_p hand_num sh)
      as [r c].
    cbn [fst snd] in *. cbn [seats t_rnd t_net].
    split; [reflexivity|]. split.
    + split; [|reflexivity]. cbn [seats].
      apply Forall2_insert; [exact Hseats|].
      split; [exact Hfast'|reflexivity].
    + intros j p Ej. unfold consults_at.
      destruct (Nat.eq_dec j i) as [->|Hne].
      * rewrite Eo in Ej. injection Ej as <-.
        rewrite list_lookup_insert_eq by (eapply lookup_lt_Some; exact Eo).
        eexists. split; [reflexivity|].
        intros d Hd. rewrite Nat.eqb_refl. cbn [andb tweak self api_errors
          set_fast_mode set_api_errors].
        destruct r as [d'|e]; [|discriminate Hd].
        rewrite (Ha d' eq_refl).
        destruct (negb (street_idx =? 0)%Z
                  && (3 <=? len (o_community_cards obs))%Z); reflexivity.
      * rewrite list_lookup_insert_ne by congruence.
        exists p. split; [exact Ej|]. intros _ _.
        apply Nat.eqb_neq in Hne. rewrite Hne. cbn [andb]. lia.
  - assert (Eh : seats t_h !! i = None).
    { apply lookup_ge_None. apply lookup_ge_None in Eo.
      rewrite <- (Forall2_length _ _ _ Hseats). exact Eo. }
    rewrite Eh. cbn [fst snd]. split; [reflexivity|].
    split; [split; assumption|].
    intros j p Ej. exists p. split; [exact Ej|]. intros _ _.
    unfold consults_at. destruct (Nat.eqb j i) eqn:Eji; [|cbn [andb]; lia].
    apply Nat.eqb_eq in Eji. subst j. rewrite Eo in Ej. discriminate Ej.
Qed.

(** The loop at twin tables: the same decisions, or the same exception, and
    for a run that returns one more error for every consultation. *)
Lemma decisions_modes num_p hand_num pts t_o t_h :
  always_fails advisor ->
  twin_tables t_o t_h ->
  fst (decisions draws advisor num_p hand_num pts t_o)
  = fst (decisions draws advisor num_p hand_num pts t_h) /\
  twin_tables (snd (decisions draws advisor num_p hand_num pts t_o))
              (snd (decisions draws advisor num_p hand_num pts t_h)) /\
  (forall j p, seats t_o !! j = Some p ->
     exists p',
       seats (snd (decisions draws advisor num_p hand_num pts t_o)) !! j
       = Some p' /\
       (forall ds, fst (decisions draws advisor num_p hand_num pts t_o) = Ret ds ->
          api_errors p' = (api_errors p + consultations j pts)%Z)).
Proof.
  intros Hfail. revert t_o t_h.
  induction pts as [|pt pts IH]; intros t_o t_h Htwin.
  - cbn [decisions fst snd]. split; [reflexivity|]. split; [exact Htwin|].
    intros j p Ej. exists p. split; [exact Ej|]. intros _ _.
    unfold consultations, len. cbn. lia.
  - cbn [decisions].
    destruct (decide_at_modes num_p hand_num pt t_o t_h Hfail Htwin)
      as (E1 & Htwin1 & Herr1).
    destruct (decide_at draws advisor num_p hand_num pt t_o) as [r1 t_o1].
    destruct (decide_at draws advisor num_p hand_num pt t_h) as [r1' t_h1].
    cbn [fst snd] in *. subst r1'.
    destruct r1 as [d|e].
    + destruct (IH t_o1 t_h1 Htwin1) as (E2 & Htwin2 & Herr2).
      destruct (decisions draws advisor num_p hand_num pts t_o1)
        as [r2 t_o2].
      destruct (decisions draws advisor num_p hand_num pts t_h1)
        as [r2' t_h2].
      cbn [fst snd] in *. subst r2'.
      assert (Hstate : twin_tables t_o2 t_h2 /\
        forall j p, seats t_o !! j = Some p ->
          exists p', seats t_o2 !! j = Some p' /\
            (forall ds, r2 = Ret ds ->
               api_errors p' = (api_errors p + consultations j (pt :: pts))%Z)).
      { split; [exact Htwin2|]. intros j p Ej.
        destruct (Herr1 j p Ej) as (p1 & Ej1 & Hp1).
        destruct (Herr2 j p1 Ej1) as (p2 & Ej2 & Hp2).
        exists p2. split; [exact Ej2|]. intros ds Hds.
        rewrite (Hp2 ds Hds), (Hp1 d eq_refl), consultations_cons. lia. }
      destruct Hstate as [Ht He].
      destruct r2 as [ds|e]; cbn [fst snd].
      * split; [reflexivity|]. split; [exact Ht|].
        intros j p Ej. destruct (He j p Ej) as (p' & Ej' & Hp').
        exists p'. split; [exact Ej'|]. intros ds' _. apply (Hp' ds eq_refl).
      * split; [reflexivity|]. split; [exact Ht|].
        intros j p Ej. destruct (He j p Ej) as (p' & Ej' & _).
        exists p'. split; [exact Ej'|]. intros ds' Hds'. discriminate Hds'.
    + cbn [fst snd]. split; [reflexivity|]. split; [exact Htwin1|].
      intros j p Ej. destruct (Herr1 j p Ej) as (p' & Ej' & _).
      exists p'. split; [exact Ej'|]. intros ds Hds. discriminate Hds.
Qed.

Lemma twin_tables_start t :
  twin_tables (reset_flags (with_mode false t)) (reset_flags (with_mode true t)).
Proof.
  split; [|reflexivity]. unfold reset_flags, with_mode. cbn [seats].
  rewrite <- !list_fmap_compose. apply Forall2_fmap.
  apply Forall_Forall2_diag. apply Forall_forall. intros p _.
  split; reflexivity.
Qed.

End WithWorld.
End OmahaFallback.

(* ===================================================================== *)
(** * Properties of the style-based player *)
(* ===================================================================== *)

Module StyleBasedFacts.
Import Py Advisor StyleBased StyleBasedSpec.

Ltac sb_reduce :=
  cbv beta iota zeta delta
    [mbind mret StyleBased.M_bind StyleBased.M_ret get_self modify lift
     raise random post try_except _record_action returned fst snd
     outcome_bind Py.bind].

Ltac sb_run :=
  sb_reduce;
  repeat (match goal with
          | |- context [match ?x with _ => _ end] =>
              lazymatch x with
              | context [match _ with _ => _ end] => fail
              | _ => destruct x eqn:?
              end
          end; sb_reduce).

Ltac legal_leaf :=
  try exact I;
  unfold legal_for, Datatypes.id in *; cbn [fst snd];
  repeat match goal with
         | H : (_ =? _)%Z = true |- _ => apply Z.eqb_eq in H
         end;
  first [ left; split; reflexivity
        | right; left; split; [reflexivity|congruence]
        | right; right; split; [reflexivity|];
          do 2 eexists; split; [first [reflexivity|eassumption]|lia] ].

Section WithWorld.
Variable draws : nat -> Q.
Variable advisor : nat -> request -> reply.

Lemma execute_action_legal action sizing va d :
  range_ok va ->
  _execute_action action sizing va = Ret d -> legal_for va d.
Proof.
  intros Hr. unfold _execute_action.
  destruct (call_action va) as [c|] eqn:Ec;
    destruct (raise_action va) as [[mn mx]|] eqn:Er;
    try pose proof (Hr _ _ Er) as Hle;
    sb_run;
    intros E; try discriminate E; injection E as <-; legal_leaf.
Qed.

Lemma apply_style_adjustment_legal action confidence sizing va s :
  range_ok va ->
  returned (legal_for va)
    (_apply_style_adjustment draws action confidence sizing va s).
Proof.
  intros Hr. unfold _apply_style_adjustment.
  pose proof (execute_action_legal action sizing va) as Hex.
  destruct (_execute_action action sizing va) as [d0|e0] eqn:E0;
    [specialize (Hex d0 Hr eq_refl)|clear Hex];
    destruct (call_action va) as [c|] eqn:Ec;
    destruct (raise_action va) as [[mn mx]|] eqn:Er;
    try pose proof (Hr _ _ Er) as Hle;
    sb_run; try assumption; legal_leaf.
Qed.

Lemma handler_legal va s :
  returned (legal_for va) (handle_failure va s).
Proof.
  unfold handle_failure. destruct (call_action va) as [c|] eqn:Ec;
    sb_run; legal_leaf.
Qed.

(** The [except] block comes to a decision, and counts the error. *)
Lemma handler_returns va s :
  fst (handle_failure va s)
  = Ret (match call_action va with
         | Some 0%Z => ("call", 0%Z)
         | _ => ("fold", 0%Z)
         end) /\
  api_errors (stats (self (snd (handle_failure va s))))
  = (api_errors (stats (self s)) + 1)%Z /\
  rnd (snd (handle_failure va s)) = rnd s /\ net (snd (handle_failure va s)) = net s.
Proof.
  unfold handle_failure. destruct (call_action va) as [[| |]|]; repeat split.
Qed.

Lemma postflop_action_legal va hole rs s :
  range_ok va ->
  returned (legal_for va) (_postflop_action draws advisor va hole rs s).
Proof.
  intros Hr. unfold _postflop_action, try_except.
  destruct (consult draws advisor va hole rs s) as [[d|e] s'] eqn:E.
  - unfold returned. cbn [fst].
    revert E. unfold consult. sb_reduce.
    destruct (_build_request (self s) hole rs va) as [gs|]; sb_reduce;
      [|discriminate].
    destruct (advisor (net s) gs) as [e|e|action confidence sizing];
      sb_reduce; try discriminate.
    pose proof (apply_style_adjustment_legal action confidence sizing va
      {| self := with_stats count_advisor_call (self s); rnd := rnd s;
         net := S (net s) |} Hr) as H.
    unfold returned in H.
    destruct (_apply_style_adjustment draws action confidence sizing va _)
      as [[d'|e'] s''].
    + cbn [fst] in H. intros E. injection E as <- _. exact H.
    + discriminate.
  - apply handler_legal.
Qed.

(** Whatever the advisor does, the postflop decision is never an
    exception. *)
Lemma postflop_action_returns va hole rs s :
  exists d, fst (_postflop_action draws advisor va hole rs s) = Ret d.
Proof.
  unfold _postflop_action, try_except.
  destruct (consult draws advisor va hole rs s) as [[d|e] s'].
  - exists d. reflexivity.
  - eexists. apply handler_returns.
Qed.

Lemma consult_fails va hole rs s :
  every_exchange_fails advisor ->
  exists e n',
    consult draws advisor va hole rs s
    = (Raise e, {| self := self s; rnd := rnd s; net := n' |}).
Proof.
  intros Hfail. unfold consult. sb_reduce.
  destruct (_build_request (self s) hole rs va) as [gs|e]; sb_reduce.
  - destruct (Hfail (net s) gs) as [e ->]. do 2 eexists. reflexivity.
  - exists e, (net s). destruct s; reflexivity.
Qed.

(** When every exchange with the advisor fails, the postflop decision is
    that of the [except] block, one error is counted, and nothing else
    in the statistics changes. *)
Lemma postflop_action_fails va hole rs s :
  every_exchange_fails advisor ->
  fst (_postflop_action draws advisor va hole rs s)
  = Ret (match call_action va with
         | Some 0%Z => ("call", 0%Z)
         | _ => ("fold", 0%Z)
         end) /\
  stats (self (snd (_postflop_action draws advisor va hole rs s)))
  = count_api_error (stats (self s)).
Proof.
  intros Hfail. unfold _postflop_action, try_except.
  destruct (consult_fails va hole rs s Hfail) as (e & n' & ->).
  split; [apply handler_returns|].
  unfold handle_failure. destruct (call_action va) as [[| |]|]; reflexivity.
Qed.

Lemma preflop_action_legal va hole rs s :
  range_ok va ->
  returned (legal_for va) (_preflop_action draws va hole rs s).
Proof.
  intros Hr. unfold _preflop_action.
  destruct (call_action va) as [c|] eqn:Ec;
    destruct (raise_action va) as [[mn mx]|] eqn:Er;
    try pose proof (Hr _ _ Er) as Hle;
    cbn [found default andb];
    sb_run; legal_leaf.
Qed.

Lemma declare_action_legal va hole rs s :
  range_ok va ->
  returned (legal_for va) (declare_action draws advisor va hole rs s).
Proof.
  intros Hr. unfold declare_action.
  sb_reduce. change (returned (legal_for va)
    ((if (len (community_card rs) <? 3)%Z
      then _preflop_action draws va hole rs
      else _postflop_action draws advisor va hole rs)
       {| self := with_stats (count_street (rs_street rs))
                    (with_notes {| note_street := Some (rs_street rs);
                                   note_stack_before :=
                                     Some (_get_my_stack (self s) rs) |}
                       (self s));
          rnd := rnd s; net := net s |})).
  destruct (len (community_card rs) <? 3)%Z.
  - apply preflop_action_legal. exact Hr.
  - apply postflop_action_legal. exact Hr.
Qed.

End WithWorld.
End StyleBasedFacts.

(* ===================================================================== *)
(** * Properties of the Omaha player and of a hand at the table *)
(* ===================================================================== *)

Module OmahaProperties.
Import Py Scorer ScorerSpec ScorerFacts Policy Advisor Omaha OmahaSpec.
Import OmahaFacts OmahaLegal OmahaVpip OmahaFallback OmahaRun.

Lemma score_returns h : exists v, score_omaha_hand h = Ret v.
Proof.
  destruct h as [|c t] eqn:Eh; [eexists; reflexivity|].
  rewrite <- Eh. assert (Hne : h <> []) by (subst; discriminate).
  destruct (read_cards h) as [[ranks suits]|] eqn:R.
  - destruct (score_steps h ranks suits Hne R)
      as (? & ? & ? & ? & ? & ? & d & _ & _ & _ & _ & _ & _ & _ & _ & _ & _
          & E & _).
    eexists. exact E.
  - exists 25%Q. unfold score_omaha_hand. rewrite Eh in *. rewrite R.
    reflexivity.
Qed.

Lemma position_table_length num_p : (3 <= length (position_table num_p))%nat.
Proof.
  unfold position_table.
  destruct (num_p <=? 3)%Z; [cbn; lia|].
  destruct (num_p <=? 6)%Z; cbn; lia.
Qed.

Lemma position_table_adjusted num_p name :
  name ∈ position_table num_p -> exists adj, assoc_get POS_ADJ name = Some adj.
Proof.
  unfold position_table.
  destruct (num_p <=? 3)%Z; [|destruct (num_p <=? 6)%Z];
    intros H; repeat (apply elem_of_cons in H as [->|H]);
    try (eexists; reflexivity); inversion H.
Qed.

Lemma position_returns p num_p hand_num :
  num_p <> 0%Z ->
  exists name, position p num_p hand_num = Ret name /\
               name ∈ position_table num_p.
Proof.
  intros Hn. unfold position.
  destruct (num_p =? 0)%Z eqn:E; [apply Z.eqb_eq in E; contradiction|].
  pose proof (position_table_length num_p) as Hlen.
  set (k := ((Z.of_nat (idx p) - hand_num) mod num_p
             mod len (position_table num_p))%Z).
  assert (Hk : (0 <= k < len (position_table num_p))%Z).
  { apply Z.mod_pos_bound. unfold len. lia. }
  destruct (position_table num_p !! Z.to_nat k) as [name|] eqn:El.
  - exists name. split; [reflexivity|].
    eapply list_elem_of_lookup_2. exact El.
  - exfalso. apply lookup_ge_None in El. unfold len in Hk. lia.
Qed.

Section WithWorld.
Variable draws : nat -> Q.
Variable advisor : nat -> request -> reply.

Lemma preflop_returns hole call pot stk mnr mxr num_p hand_num s :
  num_p <> 0%Z ->
  exists d, fst (_preflop draws hole call pot stk mnr mxr num_p hand_num s)
            = Ret d.
Proof.
  intros Hn.
  change (wp (_preflop draws hole call pot stk mnr mxr num_p hand_num)
            (fun r _ => exists d, r = Ret d) s).
  destruct (score_returns hole) as [v Ev].
  destruct (position_returns (self s) num_p hand_num Hn) as (nm & En & _).
  unfold _preflop, mark_vpip.
  repeat (wp_step; cbv beta iota); try (eexists; reflexivity); congruence.
Qed.

Lemma postflop_always_returns hole board call pot stk mnr mxr street
  num_p hand_num s :
  exists d,
    fst (_postflop draws advisor hole board call pot stk mnr mxr street
           num_p hand_num s) = Ret d.
Proof.
  unfold _postflop.
  cbv beta iota delta [mbind M_bind get_self].
  destruct (fast_mode (self s)); [apply heuristic_returns|].
  unfold try_except.
  destruct (ask_advisor draws advisor hole board call pot stk mnr mxr
              street num_p hand_num s) as [[[d|]|e] s'].
  - exists d. reflexivity.
  - apply heuristic_returns.
  - cbv beta iota delta [mbind M_bind modify mret M_ret].
    apply heuristic_returns.
Qed.

(** X1. Whatever the observation, the street, the advisor's replies and
    the random draws, a decision that [decide] returns is a fold carrying
    -1, a call carrying exactly the amount to call of the observation, or
    a raise whose amount lies between the minimum and the maximum raise of
    the observation. *)
Theorem omaha_decision_is_legal obs street_idx num_p hand_num s :
  match fst (decide draws advisor obs street_idx num_p hand_num s) with
  | Ret d => legal (-1) (o_call obs) (o_min_raise obs) (o_max_raise obs) d
  | Raise _ => True
  end.
Proof.
  pose proof (decide_legal draws advisor obs street_idx num_p hand_num s)
    as H.
  unfold wp, returns_legal in H.
  destruct (fst (decide draws advisor obs street_idx num_p hand_num s));
    [exact H|exact I].
Qed.

(** X2. [decide] raises in exactly two situations: with [IndexError] when
    the observation holds no stack for the player's seat, and with
    [ZeroDivisionError] before the flop at a table of zero players; in
    every other situation it returns a decision, whatever the advisor
    does. *)
Theorem omaha_decide_raises_only obs street_idx num_p hand_num s :
  (o_stacks obs !! idx (self s) = None ->
   fst (decide draws advisor obs street_idx num_p hand_num s)
   = Raise IndexError) /\
  (is_Some (o_stacks obs !! idx (self s)) ->
   street_idx = 0%Z -> num_p = 0%Z ->
   fst (decide draws advisor obs street_idx num_p hand_num s)
   = Raise ZeroDivisionError) /\
  (is_Some (o_stacks obs !! idx (self s)) ->
   street_idx <> 0%Z \/ num_p <> 0%Z ->
   exists d,
     fst (decide draws advisor obs street_idx num_p hand_num s) = Ret d).
Proof.
  rewrite decide_unfold. cbv zeta.
  split; [|split].
  - intros ->. reflexivity.
  - intros [stk ->] -> ->. cbn [Z.eqb].
    unfold _preflop.
    cbv beta iota delta [mbind M_bind get_self lift].
    destruct (score_returns (o_hole_cards obs)) as [v ->].
    reflexivity.
  - intros [stk ->] Hor.
    destruct (street_idx =? 0)%Z eqn:E.
    + apply Z.eqb_eq in E. apply preflop_returns.
      destruct Hor; [contradiction|assumption].
    + apply postflop_always_returns.
Qed.

(** X4. Over one hand, for any sequence of decision points and whether
    the hand ends or is cut short by an exception, every player's
    voluntary-entry counter grows by one if the player's flag of the hand
    is set at the end and does not grow otherwise; the flags are all
    cleared when the hand starts. *)
Theorem vpip_counted_once_per_hand num_p hand_num pts t :
  Forall (fun p => vpip_this_hand p = false) (seats (reset_flags t)) /\
  Forall2 entered_at_most_once (seats t)
    (seats (snd (hand draws advisor num_p hand_num pts t))).
Proof.
  split.
  - unfold reset_flags. cbn [seats]. apply Forall_fmap.
    apply Forall_forall. intros p _. reflexivity.
  - unfold hand.
    pose proof (decisions_vpip draws advisor num_p hand_num pts
                  (vpip_hands <$> seats t) (reset_flags t)
                  (reset_flags_vpip t)) as H.
    rewrite Forall2_fmap_l in H.
    eapply Forall2_impl; [exact H|].
    intros p p' Hp. exact Hp.
Qed.

End WithWorld.

(** X3. At a table of any non-zero number of players, [position] returns
    a name of its position table, and that name has an entry in the
    built-in position adjustments; the index into the table is never out
    of range.  With zero players it raises [ZeroDivisionError]. *)
Theorem position_is_a_table_entry p num_p hand_num :
  num_p <> 0%Z ->
  (exists name adj,
      position p num_p hand_num = Ret name /\
      name ∈ position_table num_p /\
      assoc_get POS_ADJ name = Some adj) /\
  position p 0 hand_num = Raise ZeroDivisionError.
Proof.
  intros Hn. split; [|reflexivity].
  destruct (position_returns p num_p hand_num Hn) as (name & E & Hin).
  destruct (position_table_adjusted num_p name Hin) as [adj Ha].
  exists name, adj. auto.
Qed.

Lemma position_is_a_table_entry_witness :
  position
    {| idx := 4; style := "tag"; sd := mk_style "T" 0 0 0 0 0 0 0 0 0;
       variant := 4; fast_mode := true; threshold := 52; hands := 0;
       wins := 0; profit := 0; advisor_calls := 0; api_errors := 0;
       actions := ∅; streets := ∅; per_hand := []; vpip_hands := 0;
       vpip_this_hand := false |} 6 11 = Ret "BB" /\
  exists name adj,
    position
      {| idx := 4; style := "tag"; sd := mk_style "T" 0 0 0 0 0 0 0 0 0;
         variant := 4; fast_mode := true; threshold := 52; hands := 0;
         wins := 0; profit := 0; advisor_calls := 0; api_errors := 0;
         actions := ∅; streets := ∅; per_hand := []; vpip_hands := 0;
         vpip_this_hand := false |} 6 11 = Ret name /\
    name ∈ position_table 6 /\ assoc_get POS_ADJ name = Some adj.
Proof.
  split; [reflexivity|].
  apply (position_is_a_table_entry _ 6 11). discriminate.
Defined.

End OmahaProperties.

(* ===================================================================== *)
(** * The two modes of the Omaha player over a hand *)
(* ===================================================================== *)

Module OmahaModes.
Import Py Scorer Policy Advisor Omaha OmahaSpec.
Import OmahaFacts OmahaFallback OmahaRun.

Section WithWorld.
Variable draws : nat -> Q.
Variable advisor : nat -> request -> reply.

Ltac quiet_leaf :=
  unfold sends_nothing; cbn [self net rnd set_actions set_vpip
    advisor_calls api_errors fast_mode];
  repeat match goal with
         | |- context [if vpip_this_hand ?p then _ else _] =>
             destruct (vpip_this_hand p)
         end;
  cbn [set_vpip advisor_calls api_errors fast_mode];
  repeat split; reflexivity.

Lemma heuristic_quiet call pot stk mnr mxr s :
  sends_nothing s (snd (_heuristic draws call pot stk mnr mxr s)).
Proof.
  change (wp (_heuristic draws call pot stk mnr mxr)
            (fun _ s' => sends_nothing s s') s).
  unfold _heuristic. repeat (wp_step; cbv beta iota); quiet_leaf.
Qed.

Lemma preflop_quiet hole call pot stk mnr mxr num_p hand_num s :
  sends_nothing s
    (snd (_preflop draws hole call pot stk mnr mxr num_p hand_num s)).
Proof.
  change (wp (_preflop draws hole call pot stk mnr mxr num_p hand_num)
            (fun _ s' => sends_nothing s s') s).
  unfold _preflop, mark_vpip. repeat (wp_step; cbv beta iota); quiet_leaf.
Qed.

Lemma decide_quiet obs street_idx num_p hand_num s :
  fast_mode (self s) = true ->
  sends_nothing s
    (snd (decide draws advisor obs street_idx num_p hand_num s)).
Proof.
  intros Hfast. rewrite decide_unfold. cbv zeta.
  destruct (o_stacks obs !! idx (self s)) as [stk|];
    [|repeat split; reflexivity].
  destruct (street_idx =? 0)%Z.
  - apply (preflop_quiet _ _ _ _ _ _ _ _
             {| self := set_streets _ (self s); rnd := rnd s; net := net s |}).
  - rewrite postflop_fast by exact Hfast.
    apply (heuristic_quiet _ _ _ _ _
             {| self := set_streets _ (self s); rnd := rnd s; net := net s |}).
Qed.

Lemma decisions_quiet num_p hand_num pts (ps : list player) t :
  Forall2 quiet ps (seats t) ->
  Forall2 quiet ps
    (seats (snd (decisions draws advisor num_p hand_num pts t))) /\
  t_net (snd (decisions draws advisor num_p hand_num pts t)) = t_net t.
Proof.
  revert t. induction pts as [|pt pts IH]; intros t H.
  - split; [exact H|reflexivity].
  - cbn [decisions].
    assert (H1 : Forall2 quiet ps
                   (seats (snd (decide_at draws advisor num_p hand_num pt t)))
                 /\ t_net (snd (decide_at draws advisor num_p hand_num pt t))
                    = t_net t).
    { unfold decide_at. destruct pt as [[i obs] street_idx].
      destruct (seats t !! i) as [p|] eqn:Ei; [|split; [exact H|reflexivity]].
      destruct (Forall2_lookup_r _ _ _ _ _ H Ei) as (p0 & E0 & Hq).
      destruct Hq as (Hfast & Hcalls & Herrs).
      pose proof (decide_quiet obs street_idx num_p hand_num
                    {| self := p; rnd := t_rnd t; net := t_net t |} Hfast)
        as (Hn & Hc & He & Hf).
      destruct (decide draws advisor obs street_idx num_p hand_num _)
        as [r c].
      cbn [fst snd self net seats t_net] in *.
      split; [|exact Hn].
      rewrite <- (list_insert_id ps i p0 E0).
      apply Forall2_insert; [exact H|].
      repeat split; congruence. }
    destruct H1 as [Hq1 Hn1].
    destruct (decide_at draws advisor num_p hand_num pt t) as [[d|e] t'];
      cbn [fst snd] in *; [|split; assumption].
    destruct (IH t' Hq1) as [Hq2 Hn2].
    destruct (decisions draws advisor num_p hand_num pts t')
      as [[ds|e] t'']; cbn [fst snd] in *; split; congruence.
Qed.

(** X5. When every exchange with the advisor fails, a hand played by
    players in oracle mode yields the same sequence of decisions (or stops
    with the same exception) as the hand played by the same players in
    heuristic mode from the same observations and random draws; the two
    tables end with the same number of draws consumed and with players
    that differ only in mode and error counter; and when the oracle-mode
    hand returns, each player's error counter has grown by the number of
    decision points after the first street with at least three board
    cards at which that player acted. *)
Theorem failing_advisor_falls_back_to_heuristic num_p hand_num pts t :
  always_fails advisor ->
  fst (hand draws advisor num_p hand_num pts (with_mode false t))
  = fst (hand draws advisor num_p hand_num pts (with_mode true t)) /\
  twin_tables (snd (hand draws advisor num_p hand_num pts (with_mode false t)))
              (snd (hand draws advisor num_p hand_num pts (with_mode true t))) /\
  (forall j p, seats t !! j = Some p ->
     exists p',
       seats (snd (hand draws advisor num_p hand_num pts (with_mode false t)))
         !! j = Some p' /\
       (forall ds,
          fst (hand draws advisor num_p hand_num pts (with_mode false t))
          = Ret ds ->
          api_errors p' = (api_errors p + consultations j pts)%Z)).
Proof.
  intros Hfail. unfold hand.
  destruct (decisions_modes draws advisor num_p hand_num pts _ _ Hfail
              (twin_tables_start t)) as (E & Ht & He).
  split; [exact E|]. split; [exact Ht|].
  intros j p Ej.
  apply (He j (set_vpip (vpip_hands (set_fast_mode false p)) false
                 (set_fast_mode false p))).
  unfold reset_flags, with_mode. cbn [seats].
  rewrite !list_lookup_fmap, Ej. reflexivity.
Qed.

(** X6. In heuristic mode a whole hand sends no request to the advisor,
    and leaves every player in heuristic mode with the counters of
    advisor calls and of errors as they were. *)
Theorem heuristic_mode_sends_nothing num_p hand_num pts t :
  t_net (snd (hand draws advisor num_p hand_num pts (with_mode true t)))
  = t_net t /\
  Forall2 quiet (seats t)
    (seats (snd (hand draws advisor num_p hand_num pts (with_mode true t)))).
Proof.
  unfold hand.
  destruct (decisions_quiet num_p hand_num pts (seats t)
              (reset_flags (with_mode true t))) as [Hq Hn].
  - unfold reset_flags, with_mode. cbn [seats].
    rewrite <- list_fmap_compose. apply Forall2_fmap_r.
    apply Forall_Forall2_diag. apply Forall_forall. intros p _.
    repeat split.
  - split; [exact Hn|exact Hq].
Qed.

End WithWorld.

(** Two players, a flop and a turn decision each, and an advisor that
    times out. *)
Lemma failing_advisor_falls_back_to_heuristic_witness :
  let advisor := fun (_ : nat) (_ : request) => Failed RequestException in
  let draws := fun n : nat => (inject_Z (Z.of_nat n) / 7)%Q in
  let t := table_of (default [] (players_from 0 ["tag"; "lag"] 4 false)) in
  let flop := [Card "A" "♠"; Card "K" "♠"; Card "2" "♦"] in
  let obs := fun call =>
    {| o_call := call; o_pot := 12; o_stacks := [200; 188]%Z;
       o_min_raise := 4; o_max_raise := 40;
       o_hole_cards := [Card "Q" "♠"; Card "J" "♠"; Card "9" "♥";
                        Card "8" "♥"];
       o_community_cards := flop |} in
  let pts := [(0%nat, obs 0%Z, 1%Z); (1%nat, obs 4%Z, 1%Z);
              (0%nat, obs 4%Z, 2%Z)] in
  always_fails advisor /\
  fst (hand draws advisor 2 0 pts (with_mode false t))
  = fst (hand draws advisor 2 0 pts (with_mode true t)) /\
  length (seats t) = 2%nat.
Proof.
  intros advisor draws t flop obs pts.
  assert (H : always_fails advisor)
    by (intros n gs; eexists; reflexivity).
  split; [exact H|]. split; [|reflexivity].
  apply (failing_advisor_falls_back_to_heuristic draws advisor 2 0 pts t H).
Defined.

End OmahaModes.

(* ===================================================================== *)
(** * The style-based player: decisions, failures and book-keeping *)
(* ===================================================================== *)

Module StyleBasedProperties.
Import Py Advisor StyleBased StyleBasedSpec StyleBasedFacts StyleBasedRun.

Ltac sb_reduce :=
  cbv beta iota zeta delta
    [mbind mret StyleBased.M_bind StyleBased.M_ret get_self modify lift
     raise random post try_except _record_action returned fst snd
     outcome_bind Py.bind].

Ltac sb_run :=
  sb_reduce;
  repeat (match goal with
          | |- context [match ?x with _ => _ end] =>
              lazymatch x with
              | context [match _ with _ => _ end] => fail
              | _ => destruct x eqn:?
              end
          end; sb_reduce).

Ltac kept_leaf :=
  unfold untouched, books_kept;
  cbn [self with_stats with_notes with_records uuid initial_stack style
       style_def hand_records stats current_hand hands_played hands_won
       total_profit profits_by_street count_action count_street
       count_advisor_call count_api_error];
  repeat split; reflexivity.

Lemma each_head_char_cases l :
  (Forall (fun c => c <> EmptyString) l /\
   exists ys, each head_char l = Ret ys) \/
  (Exists (fun c => c = EmptyString) l /\
   each head_char l = Raise IndexError).
Proof.
  induction l as [|c l IH].
  - left. split; [constructor|]. eexists. reflexivity.
  - destruct c as [|a c'].
    + right. split; [left; reflexivity|reflexivity].
    + destruct IH as [[Hall [ys E]]|[Hex E]].
      * left. split; [constructor; [discriminate|exact Hall]|].
        cbn [each head_char mbind outcome_bind Py.bind]. rewrite E.
        eexists. reflexivity.
      * right. split; [right; exact Hex|].
        cbn [each head_char mbind outcome_bind Py.bind]. rewrite E.
        reflexivity.
Qed.

(** X12. [_estimate_hand_score] raises, with [IndexError], exactly when
    one of the hole cards is the empty string; otherwise it returns one
    of the seven scores 90, 60, 35, 70, 55, 50 and 25. *)
Theorem estimate_hand_score_cases hole_card :
  (Forall (fun c => c <> EmptyString) hole_card /\
   exists v, _estimate_hand_score hole_card = Ret v /\ v ∈ hand_scores) \/
  (Exists (fun c => c = EmptyString) hole_card /\
   _estimate_hand_score hole_card = Raise IndexError).
Proof.
  unfold _estimate_hand_score.
  destruct (each_head_char_cases hole_card) as [[Hall [ys E]]|[Hex E]];
    rewrite E; cbn [mbind outcome_bind Py.bind].
  - left. split; [exact Hall|].
    repeat match goal with
           | |- context [if ?b then _ else _] => destruct b
           end;
      eexists; (split; [reflexivity|]); unfold hand_scores;
      cbn; set_solver.
  - right. split; [exact Hex|reflexivity].
Qed.

Section WithWorld.
Variable draws : nat -> Q.
Variable advisor : nat -> request -> reply.

Lemma preflop_action_outcome va hole rs s :
  match _estimate_hand_score hole with
  | Ret _ => exists d, fst (_preflop_action draws va hole rs s) = Ret d
  | Raise e => fst (_preflop_action draws va hole rs s) = Raise e
  end.
Proof.
  unfold _preflop_action.
  destruct (_estimate_hand_score hole) as [v|e] eqn:E;
    sb_run; try (eexists; reflexivity); reflexivity.
Qed.

(** X10. [declare_action] raises only before the flop, and only when a
    hole card is the empty string, in which case the exception is an
    [IndexError]; from the flop on it always returns a decision, whatever
    the advisor replies and whatever the cards are. *)
Theorem declare_action_raises_only va hole rs s :
  ((len (community_card rs) < 3)%Z ->
   Exists (fun c => c = EmptyString) hole ->
   fst (declare_action draws advisor va hole rs s) = Raise IndexError) /\
  ((3 <= len (community_card rs))%Z \/
   Forall (fun c => c <> EmptyString) hole ->
   exists d, fst (declare_action draws advisor va hole rs s) = Ret d).
Proof.
  unfold declare_action. sb_reduce.
  set (s1 := {| self := with_stats (count_street (rs_street rs))
                         (with_notes
                            {| note_street := Some (rs_street rs);
                               note_stack_before :=
                                 Some (_get_my_stack (self s) rs) |}
                            (self s));
                rnd := rnd s; net := net s |}).
  pose proof (preflop_action_outcome va hole rs s1) as Hpre.
  destruct (estimate_hand_score_cases hole) as [[Hall (v & E & _)]|[Hex E]];
    rewrite E in Hpre.
  - split.
    + intros _ Hex. exfalso.
      apply Exists_exists in Hex as (c & Hin & Hc).
      rewrite Forall_forall in Hall. exact (Hall c Hin Hc).
    + intros _. destruct (len (community_card rs) <? 3)%Z.
      * exact Hpre.
      * apply postflop_action_returns.
  - split.
    + intros Hlt _. apply Z.ltb_lt in Hlt. rewrite Hlt. exact Hpre.
    + intros [Hge|Hall].
      * assert (Hb : (len (community_card rs) <? 3)%Z = false)
          by (apply Z.ltb_ge; exact Hge).
        rewrite Hb. apply postflop_action_returns.
      * exfalso. apply Exists_exists in Hex as (c & Hin & Hc).
        rewrite Forall_forall in Hall. exact (Hall c Hin Hc).
Qed.

(** X7. When the raise range offered by the engine is not empty, every
    decision that [declare_action] returns is a fold carrying 0, a call
    carrying the amount of the offered call, or a raise within the offered
    range. *)
Theorem style_based_decision_is_legal va hole rs s :
  range_ok va ->
  returned (legal_for va) (declare_action draws advisor va hole rs s).
Proof.
  intros Hr. apply declare_action_legal. exact Hr.
Qed.

(** X8. [_postflop_action] never raises: whatever the advisor replies
    and whatever happens while the reply is used, it returns a decision;
    and when it has counted an error, the decision is the call of 0 if a
    free call is offered and the fold otherwise. *)
Theorem postflop_action_contains_failures va hole rs s :
  exists d,
    fst (_postflop_action draws advisor va hole rs s) = Ret d /\
    (api_errors (stats (self (snd (_postflop_action draws advisor va hole
                                     rs s))))
     <> api_errors (stats (self s)) ->
     d = match call_action va with
         | Some 0%Z => ("call", 0%Z)
         | _ => ("fold", 0%Z)
         end).
Proof.
  unfold _postflop_action, try_except.
  destruct (consult draws advisor va hole rs s) as [[d|e] s'] eqn:E.
  - exists d. split; [reflexivity|]. intros Hne. exfalso. apply Hne.
    cbn [snd]. revert E. unfold consult, _apply_style_adjustment.
    sb_reduce.
    destruct (_build_request (self s) hole rs va) as [gs|e0];
      sb_reduce; [|intros E; discriminate E].
    destruct (advisor (net s) gs) as [e0|e0|action confidence sizing];
      sb_reduce; try (intros E; discriminate E).
    destruct (_execute_action action sizing va) as [d0|e0];
      destruct (call_action va) as [c|];
      destruct (raise_action va) as [[mn mx]|];
      sb_run; intros E; try discriminate E; injection E as _ <-;
      reflexivity.
  - eexists. split; [apply handler_returns|]. intros _. reflexivity.
Qed.

(** X9. When every exchange with the advisor fails, [_postflop_action]
    returns the call of 0 if a free call is offered and the fold
    otherwise, counts exactly one error, and changes nothing else in the
    statistics: no advisor call and no action is counted. *)
Theorem failing_advisor_checks_or_folds va hole rs s :
  every_exchange_fails advisor ->
  fst (_postflop_action draws advisor va hole rs s)
  = Ret (match call_action va with
         | Some 0%Z => ("call", 0%Z)
         | _ => ("fold", 0%Z)
         end) /\
  stats (self (snd (_postflop_action draws advisor va hole rs s)))
  = count_api_error (stats (self s)).
Proof.
  intros Hfail. apply postflop_action_fails. exact Hfail.
Qed.

Lemma get_my_stack_kept p p' rs :
  books_kept p p' -> _get_my_stack p' rs = _get_my_stack p rs.
Proof.
  intros (Hu & Hi & _). unfold _get_my_stack. rewrite Hu, Hi. reflexivity.
Qed.

Lemma books_kept_trans p1 p2 p3 :
  books_kept p1 p2 -> books_kept p2 p3 -> books_kept p1 p3.
Proof. unfold books_kept. intuition congruence. Qed.

Lemma preflop_action_untouched va hole rs s :
  untouched s (snd (_preflop_action draws va hole rs s)).
Proof.
  unfold _preflop_action. sb_run; kept_leaf.
Qed.

Lemma postflop_action_untouched va hole rs s :
  untouched s (snd (_postflop_action draws advisor va hole rs s)).
Proof.
  unfold _postflop_action, try_except, consult, handle_failure,
    _apply_style_adjustment.
  sb_run; kept_leaf.
Qed.

(** A decision leaves the books alone, and notes the street and the stack
    it saw. *)
Lemma declare_action_notes va hole rs s :
  books_kept (self s) (self (snd (declare_action draws advisor va hole rs s)))
  /\
  current_hand (self (snd (declare_action draws advisor va hole rs s)))
  = {| note_street := Some (rs_street rs);
       note_stack_before := Some (_get_my_stack (self s) rs) |}.
Proof.
  set (s1 := {| self := with_stats (count_street (rs_street rs))
                         (with_notes
                            {| note_street := Some (rs_street rs);
                               note_stack_before :=
                                 Some (_get_my_stack (self s) rs) |}
                            (self s));
                rnd := rnd s; net := net s |}).
  assert (E : declare_action draws advisor va hole rs s
              = (if (len (community_card rs) <? 3)%Z
                 then _preflop_action draws va hole rs
                 else _postflop_action draws advisor va hole rs) s1)
    by reflexivity.
  rewrite E.
  assert (H1 : books_kept (self s) (self s1)) by (subst s1; kept_leaf).
  assert (H : untouched s1
                (snd ((if (len (community_card rs) <? 3)%Z
                       then _preflop_action draws va hole rs
                       else _postflop_action draws advisor va hole rs) s1))).
  { destruct (len (community_card rs) <? 3)%Z.
    - apply preflop_action_untouched.
    - apply postflop_action_untouched. }
  destruct H as [Hk Hn].
  split.
  - eapply books_kept_trans; [exact H1|exact Hk].
  - rewrite Hn. reflexivity.
Qed.

Lemma declare_all_snoc calls c s :
  declare_all draws advisor (calls ++ [c]) s
  = snd (declare_action draws advisor (fst (fst c)) (snd (fst c)) (snd c)
           (declare_all draws advisor calls s)).
Proof. unfold declare_all. rewrite fold_left_app. reflexivity. Qed.

Lemma declare_all_notes calls s :
  books_kept (self s) (self (declare_all draws advisor calls s)) /\
  current_hand (self (declare_all draws advisor calls s))
  = match last calls with
    | Some c => {| note_street := Some (rs_street (snd c));
                   note_stack_before :=
                     Some (_get_my_stack (self s) (snd c)) |}
    | None => current_hand (self s)
    end.
Proof.
  induction calls as [|c calls IH] using rev_ind.
  - split; [kept_leaf|reflexivity].
  - rewrite declare_all_snoc.
    destruct IH as [Hk _].
    destruct (declare_action_notes (fst (fst c)) (snd (fst c)) (snd c)
                (declare_all draws advisor calls s)) as [Hk' Hn'].
    split.
    + eapply books_kept_trans; [exact Hk|exact Hk'].
    + rewrite Hn', last_snoc. rewrite (get_my_stack_kept _ _ _ Hk).
      reflexivity.
Qed.

Lemma sum_snoc (l : list Z) (x : Z) : Py.sum (l ++ [x]) = (Py.sum l + x)%Z.
Proof. unfold Py.sum. rewrite fold_left_app. reflexivity. Qed.

(** The books after one round. *)
Lemma round_books calls is_won final s :
  exists r,
    hand_records (self (play_round draws advisor calls is_won final s))
    = hand_records (self s) ++ [r] /\
    profit_loss r
    = (_get_my_stack (self s) final - measured_from (self s) calls)%Z /\
    hands_played (stats (self (play_round draws advisor calls is_won final s)))
    = (hands_played (stats (self s)) + 1)%Z /\
    total_profit (stats (self (play_round draws advisor calls is_won final s)))
    = (total_profit (stats (self s)) + profit_loss r)%Z /\
    books_kept_id (self s)
      (self (play_round draws advisor calls is_won final s)).
Proof.
  unfold play_round. cbv zeta.
  set (s1 := {| self := receive_round_start_message (self s);
                rnd := rnd s; net := net s |}).
  assert (H1 : uuid (self s1) = uuid (self s) /\
               initial_stack (self s1) = initial_stack (self s) /\
               hand_records (self s1) = hand_records (self s) /\
               hands_played (stats (self s1))
               = (hands_played (stats (self s)) + 1)%Z /\
               total_profit (stats (self s1)) = total_profit (stats (self s)) /\
               note_stack_before (current_hand (self s1)) = None)
    by (subst s1; repeat split).
  destruct H1 as (Hu1 & Hi1 & Hr1 & Hh1 & Ht1 & Hn1).
  destruct (declare_all_notes calls s1) as [Hk Hn].
  set (s2 := declare_all draws advisor calls s1) in *.
  assert (Hstack : forall rs, _get_my_stack (self s2) rs
                              = _get_my_stack (self s) rs).
  { intros rs. rewrite (get_my_stack_kept _ _ rs Hk).
    unfold _get_my_stack. rewrite Hu1, Hi1. reflexivity. }
  destruct Hk as (Hu & Hi & _ & _ & Hr & Hh & _ & Ht & _).
  eexists. cbn [self]. unfold receive_round_result_message. cbv zeta.
  cbn [hand_records with_records with_stats stats hands_played total_profit
       count_result profit_loss].
  split; [rewrite Hr, Hr1; reflexivity|].
  split.
  - rewrite Hstack. f_equal. unfold measured_from. rewrite Hn, Hi, Hi1.
    destruct (last calls) as [c|].
    + cbn [note_stack_before default]. unfold _get_my_stack.
      rewrite Hu1, Hi1. reflexivity.
    + rewrite Hn1. reflexivity.
  - split; [rewrite Hh, Hh1; reflexivity|].
    split; [rewrite Ht, Ht1; reflexivity|].
    unfold books_kept_id. cbn [uuid initial_stack with_records with_stats].
    rewrite Hu, Hi, Hu1, Hi1. split; reflexivity.
Qed.

Lemma play_round_consistent calls is_won final s :
  consistent (self s) ->
  consistent (self (play_round draws advisor calls is_won final s)).
Proof.
  intros [Hh Ht].
  destruct (round_books calls is_won final s) as (r & Er & _ & Eh & Et & _).
  unfold consistent. rewrite Er, Eh, Et, Hh, Ht.
  split.
  - unfold len. rewrite length_app. cbn [length]. lia.
  - rewrite fmap_app. change (profit_loss <$> [r]) with [profit_loss r].
    rewrite sum_snoc. reflexivity.
Qed.

(** X11. One round adds one hand record, whose profit is the final stack
    minus the stack that the player saw at its last decision of the round
    (not the stack at the start of the round), or minus the initial stack
    of the game when the player made no decision in the round. *)
Theorem round_profit_is_measured_from_last_decision calls is_won final s :
  exists r,
    hand_records (self (play_round draws advisor calls is_won final s))
    = hand_records (self s) ++ [r] /\
    profit_loss r
    = (_get_my_stack (self s) final - measured_from (self s) calls)%Z.
Proof.
  destruct (round_books calls is_won final s) as (r & Er & Ep & _).
  exists r. split; assumption.
Qed.

(** X13. Over a session of any number of rounds, whatever the decisions
    and the advisor's replies, the statistics stay in step with the
    records: a player whose hand counter equalled the number of its hand
    records, and whose total profit equalled the sum of the recorded
    profits, ends the session with the same two equalities, the hand
    counter having grown by the number of rounds. *)
Theorem session_books_agree rounds s :
  consistent (self s) ->
  consistent (self (play_session draws advisor rounds s)) /\
  hands_played (stats (self (play_session draws advisor rounds s)))
  = (hands_played (stats (self s)) + len rounds)%Z.
Proof.
  revert s. induction rounds as [|r rounds IH]; intros s H.
  - split; [exact H|]. unfold len. cbn. lia.
  - unfold play_session. cbn [fold_left].
    fold (play_session draws advisor rounds
            (play_round draws advisor (fst (fst r)) (snd (fst r)) (snd r) s)).
    destruct (IH _ (play_round_consistent (fst (fst r)) (snd (fst r))
                      (snd r) s H)) as [Hc Hh].
    split; [exact Hc|]. rewrite Hh.
    destruct (round_books (fst (fst r)) (snd (fst r)) (snd r) s)
      as (r' & _ & _ & Eh & _).
    rewrite Eh. unfold len. cbn [length]. lia.
Qed.

End WithWorld.
(** A [tag] player on the button holding two suited broadway cards,
    facing a call of 20 with raises from 40 to 200 on offer. *)
Lemma style_based_decision_is_legal_witness :
  let va := [ValidFold; ValidCall 20; ValidRaise 40 200] in
  let rs := {| rs_street := "preflop"; community_card := [];
               pot_main_amount := 30;
               seats := [ {| seat_uuid := "hero"; seat_name := "hero";
                             seat_stack := 1000;
                             seat_state := "participating" |} ] |} in
  let draws := fun _ : nat => 0%Q in
  let advisor := fun (_ : nat) (_ : request) => Failed RequestException in
  exists s,
    seated (new_player "hero" "tag") = Some s /\
    range_ok va /\
    returned (legal_for va)
      (declare_action draws advisor va ["SA"; "SK"] rs s) /\
    fst (declare_action draws advisor va ["SA"; "SK"] rs s)
    = Ret ("raise", 70%Z).
Proof.
  intros va rs draws advisor.
  assert (Hr : range_ok va).
  { intros mn mx H. injection H as <- <-. lia. }
  eexists. split; [reflexivity|]. split; [exact Hr|]. split.
  - apply (style_based_decision_is_legal draws advisor va). exact Hr.
  - vm_compute. reflexivity.
Defined.

(** The same player after the flop, with an advisor that times out. *)
Lemma failing_advisor_checks_or_folds_witness :
  let va := [ValidFold; ValidCall 20; ValidRaise 40 200] in
  let rs := {| rs_street := "flop"; community_card := ["H2"; "D7"; "CT"];
               pot_main_amount := 30;
               seats := [ {| seat_uuid := "hero"; seat_name := "hero";
                             seat_stack := 1000;
                             seat_state := "participating" |} ] |} in
  let draws := fun _ : nat => 0%Q in
  let advisor := fun (_ : nat) (_ : request) => Failed RequestException in
  every_exchange_fails advisor /\
  exists s,
    seated (new_player "hero" "tag") = Some s /\
    fst (_postflop_action draws advisor va ["SA"; "SK"] rs s)
    = Ret ("fold", 0%Z) /\
    api_errors
      (stats (self (snd (_postflop_action draws advisor va ["SA"; "SK"]
                           rs s)))) = 1%Z.
Proof.
  intros va rs draws advisor.
  assert (H : every_exchange_fails advisor)
    by (intros n gs; eexists; reflexivity).
  split; [exact H|].
  eexists. split; [reflexivity|].
  match goal with
  | |- fst (_postflop_action _ _ _ _ _ ?s) = _ /\ _ =>
      destruct (failing_advisor_checks_or_folds draws advisor va
                  ["SA"; "SK"] rs s H) as [Hd Hs]
  end.
  split; [exact Hd|]. rewrite Hs. reflexivity.
Defined.

(** A new player, then one round without a decision and one with a
    decision. *)
Lemma session_books_agree_witness :
  let va := [ValidFold; ValidCall 20; ValidRaise 40 200] in
  let rs := fun stack =>
    {| rs_street := "preflop"; community_card := [];
       pot_main_amount := 30;
       seats := [ {| seat_uuid := "hero"; seat_name := "hero";
                     seat_stack := stack;
                     seat_state := "participating" |} ] |} in
  let draws := fun _ : nat => 0%Q in
  let advisor := fun (_ : nat) (_ : request) => Failed RequestException in
  let rounds := [ ([], false, rs 990%Z);
                  ([(va, ["SA"; "SK"], rs 990%Z)], true, rs 1100%Z) ] in
  exists s,
    seated (new_player "hero" "tag") = Some s /\
    consistent (self s) /\
    consistent (self (play_session draws advisor rounds s)) /\
    hands_played (stats (self (play_session draws advisor rounds s)))
    = (hands_played (stats (self s)) + 2)%Z.
Proof.
  intros va rs draws advisor rounds.
  eexists. split; [reflexivity|].
  match goal with
  | |- consistent (self ?s) /\ _ =>
      assert (H : consistent (self s)) by (split; reflexivity);
      split; [exact H|];
      exact (session_books_agree draws advisor rounds s H)
  end.
Defined.

End StyleBasedProperties.

(* ===================================================================== *)
(** * Properties of the analysis of the results *)
(* ===================================================================== *)

Module AnalysisFacts.
Import Py TrajectoryFacts Analysis.
Open Scope R_scope.

Lemma fl_len (l : list Z) : PyR.fl (len l) = INR (length l).
Proof. unfold PyR.fl, len. symmetry. apply INR_IZR_INZ. Qed.

Lemma two_samples (l : list Z) : (1 <? len l)%Z = true -> 2 <= INR (length l).
Proof.
  intros H. apply Z.ltb_lt in H. unfold len in H.
  change 2 with (INR 2). apply le_INR. lia.
Qed.

(** The steps that the two runners share: mean, sample variance, standard
    deviation and standard error all return, the last two not negative. *)
Lemma std_error_steps (profits : list Z) :
  (1 <? len profits)%Z = true ->
  exists m var sd root se,
    PyR.truediv (PyR.fl (Py.sum profits)) (PyR.fl (len profits)) = Ret m /\
    m = IZR (Py.sum profits) / INR (length profits) /\
    PyR.truediv (PyR.sum_sq_dev profits m) (PyR.fl (len profits - 1))
    = Ret var /\
    PyR.math_sqrt var = Ret sd /\ 0 <= sd /\
    PyR.math_sqrt (PyR.fl (len profits)) = Ret root /\
    PyR.truediv sd root = Ret se /\ 0 <= se.
Proof.
  intros H. pose proof (two_samples profits H) as H2.
  assert (Hn : PyR.fl (len profits) = INR (length profits)) by apply fl_len.
  assert (Hn1 : PyR.fl (len profits - 1) = INR (length profits) - 1).
  { unfold PyR.fl. rewrite minus_IZR. fold (PyR.fl (len profits)).
    rewrite Hn. reflexivity. }
  set (m := IZR (Py.sum profits) / INR (length profits)).
  set (var := PyR.sum_sq_dev profits m / (INR (length profits) - 1)).
  assert (Hvar : 0 <= var).
  { unfold var. apply Rmult_le_pos; [apply sum_sq_dev_nonneg|].
    left. apply Rinv_0_lt_compat. lra. }
  assert (Hroot : 0 < sqrt (INR (length profits)))
    by (apply sqrt_lt_R0; lra).
  exists m, var, (sqrt var), (sqrt (INR (length profits))),
    (sqrt var / sqrt (INR (length profits))).
  rewrite Hn, Hn1.
  repeat split.
  - apply truediv_ok. lra.
  - apply truediv_ok. lra.
  - apply math_sqrt_ok. exact Hvar.
  - apply sqrt_pos.
  - apply math_sqrt_ok. lra.
  - apply truediv_ok. lra.
  - apply Rmult_le_pos; [apply sqrt_pos|].
    left. apply Rinv_0_lt_compat. exact Hroot.
Qed.

(** The interval of [analyze_results] before rounding. *)
Lemma interval_bb100_cases profits bb100 :
  exists sd lo hi,
    interval_bb100 profits bb100 = Ret (sd, lo, hi) /\
    0 <= sd /\
    ((length profits <= 1)%nat -> sd = 0 /\ lo = bb100 /\ hi = bb100) /\
    ((1 < length profits)%nat ->
     lo <= mean_bb100 20 profits <= hi /\
     mean_bb100 20 profits - lo = hi - mean_bb100 20 profits).
Proof.
  unfold interval_bb100.
  destruct (1 <? len profits)%Z eqn:E.
  - destruct (std_error_steps profits E)
      as (m & var & sd & root & se & E1 & Hm & E2 & E3 & Hsd & E4 & E5 & Hse).
    rewrite E1. cbn [mbind outcome_bind Py.bind]. rewrite E2.
    cbn [mbind outcome_bind Py.bind]. rewrite E3.
    cbn [mbind outcome_bind Py.bind]. rewrite E4.
    cbn [mbind outcome_bind Py.bind]. rewrite E5.
    cbn [mbind outcome_bind Py.bind].
    do 3 eexists. split; [reflexivity|]. split; [exact Hsd|].
    apply Z.ltb_lt in E. unfold len in E.
    split; [intros Hle; exfalso; lia|]. intros _.
    unfold mean_bb100. rewrite <- Hm. lra.
  - exists 0, bb100, bb100. split; [reflexivity|]. split; [lra|].
    apply Z.ltb_ge in E. unfold len in E.
    split; [auto|]. intros Hlt. exfalso. lia.
Qed.

Lemma bb_per_100_returns s :
  exists b, bb_per_100 s = Ret b /\
    (StyleBased.hands_played s <> 0%Z ->
     b = IZR (StyleBased.total_profit s) / IZR (StyleBased.hands_played s)
         / 20 * 100) /\
    (StyleBased.hands_played s = 0%Z -> b = 0).
Proof.
  unfold bb_per_100.
  destruct (StyleBased.hands_played s =? 0)%Z eqn:E.
  - apply Z.eqb_eq in E. exists 0. split; [reflexivity|].
    split; [intros H; contradiction|reflexivity].
  - apply Z.eqb_neq in E.
    assert (Hne : IZR (StyleBased.hands_played s) <> 0)
      by (apply not_0_IZR; exact E).
    rewrite truediv_ok by (unfold PyR.fl; lra).
    eexists. split; [reflexivity|]. split; [|intros H; contradiction].
    intros _. unfold PyR.fl. field. exact Hne.
Qed.

Lemma win_rate_returns s : exists w, win_rate s = Ret w.
Proof.
  unfold win_rate. destruct (0 <? StyleBased.hands_played s)%Z eqn:E.
  - apply Z.ltb_lt in E. rewrite truediv_ok; [eexists; reflexivity|].
    unfold PyR.fl. apply not_0_IZR. lia.
  - eexists. reflexivity.
Qed.

Lemma analyze_player_returns round_ p :
  exists a, analyze_player round_ p = Ret a.
Proof.
  unfold analyze_player. cbv zeta.
  destruct (bb_per_100_returns (StyleBased.stats p)) as (b & -> & _).
  cbn [mbind outcome_bind Py.bind].
  destruct (interval_bb100_cases
              (StyleBased.profit_loss <$> StyleBased.hand_records p) b)
    as (sd & lo & hi & -> & _).
  cbn [mbind outcome_bind Py.bind].
  destruct (win_rate_returns (StyleBased.stats p)) as (w & ->).
  eexists. reflexivity.
Qed.

Close Scope R_scope.
End AnalysisFacts.

Module AnalysisProperties.
Import Py TrajectoryFacts Analysis AnalysisFacts StyleBasedSpec.
Open Scope R_scope.

Section WithRounding.
Variable round_ : nat -> R -> R.

(** X14. [analyze_results] never divides by zero: for every player,
    whatever its statistics and records, the analysis of the player
    returns; and with fewer than two hand records the two bounds of the
    interval are the rounded [bb_per_100] and the standard deviation is
    the rounded 0. *)
Theorem analyze_player_is_total p :
  exists a,
    analyze_player round_ p = Ret a /\
    ((length (StyleBased.hand_records p) <= 1)%nat ->
     a_ci_lower a = a_bb_per_100 a /\ a_ci_upper a = a_bb_per_100 a /\
     a_std_dev a = round_ 2 0).
Proof.
  unfold analyze_player. cbv zeta.
  destruct (bb_per_100_returns (StyleBased.stats p)) as (b & Eb & _).
  rewrite Eb. cbn [mbind outcome_bind Py.bind].
  destruct (interval_bb100_cases
              (StyleBased.profit_loss <$> StyleBased.hand_records p) b)
    as (sd & lo & hi & Ei & _ & Hone & _).
  rewrite Ei. cbn [mbind outcome_bind Py.bind].
  destruct (win_rate_returns (StyleBased.stats p)) as (w & Ew).
  rewrite Ew. cbn [mbind outcome_bind Py.bind].
  eexists. split; [reflexivity|].
  cbn [a_ci_lower a_ci_upper a_bb_per_100 a_std_dev fst snd].
  intros Hle. rewrite length_fmap in Hone.
  destruct (Hone Hle) as (-> & -> & ->). auto.
Qed.

(** X16. [analyze_results] returns for every list of players, and keeps
    one entry per style: the entry of a style is the analysis of the last
    player of that style in the list, so that an earlier player of the
    same style is overwritten; a style that no player has keeps the entry
    it had. *)
Theorem analyze_results_keeps_last_of_style players results :
  exists m,
    analyze_results round_ players results = Ret m /\
    forall s,
      m !! s
      = match last (List.filter
                      (fun p => String.eqb (StyleBased.style p) s) players)
        with
        | Some p => match analyze_player round_ p with
                    | Ret a => Some a
                    | Raise _ => None
                    end
        | None => results !! s
        end.
Proof.
  revert results. induction players as [|p rest IH]; intros results.
  - exists results. split; [reflexivity|]. intros s. reflexivity.
  - cbn [analyze_results].
    destruct (analyze_player_returns round_ p) as [a Ea].
    rewrite Ea. cbn [mbind outcome_bind Py.bind].
    destruct (IH (<[StyleBased.style p := a]> results)) as (m & Em & Hm).
    exists m. split; [exact Em|]. intros s. rewrite Hm.
    cbn [List.filter].
    destruct (String.eqb (StyleBased.style p) s) eqn:Es.
    + apply String.eqb_eq in Es. rewrite last_cons.
      destruct (last (List.filter _ rest)) as [q|]; [reflexivity|].
      rewrite Es, lookup_insert_eq, Ea. reflexivity.
    + apply String.eqb_neq in Es.
      destruct (last (List.filter _ rest)) as [q|]; [reflexivity|].
      rewrite lookup_insert_ne by exact Es. reflexivity.
Qed.

Hypothesis round_monotone : monotone round_.

(** X15. For a player whose statistics agree with its records and who
    has at least one record, the reported interval brackets the reported
    win rate: lower bound <= [bb_per_100] <= upper bound, all three
    rounded to two decimals, where [bb_per_100] is the rounded mean of
    the recorded profits in big blinds of 20 chips per 100 hands. *)
Theorem interval_brackets_the_win_rate p :
  consistent p ->
  StyleBased.hand_records p <> [] ->
  exists a,
    analyze_player round_ p = Ret a /\
    a_bb_per_100 a
    = round_ 2 (mean_bb100 20
                  (StyleBased.profit_loss <$> StyleBased.hand_records p)) /\
    a_ci_lower a <= a_bb_per_100 a <= a_ci_upper a.
Proof.
  intros [Hh Ht] Hne. unfold analyze_player. cbv zeta.
  destruct (bb_per_100_returns (StyleBased.stats p)) as (b & Eb & Hb & _).
  rewrite Eb. cbn [mbind outcome_bind Py.bind].
  set (profits := StyleBased.profit_loss <$> StyleBased.hand_records p).
  assert (Hlen : length profits = length (StyleBased.hand_records p))
    by (unfold profits; apply length_fmap).
  assert (Hpos : (0 < length profits)%nat).
  { rewrite Hlen. destruct (StyleBased.hand_records p);
      [congruence|cbn; lia]. }
  assert (Hmean : b = mean_bb100 20 profits).
  { rewrite Hb.
    - unfold mean_bb100. rewrite Ht, Hh. fold profits.
      unfold len. rewrite <- Hlen, <- INR_IZR_INZ. reflexivity.
    - rewrite Hh. unfold len. lia. }
  destruct (interval_bb100_cases profits b)
    as (sd & lo & hi & Ei & _ & Hone & Hmany).
  rewrite Ei. cbn [mbind outcome_bind Py.bind].
  destruct (win_rate_returns (StyleBased.stats p)) as (w & Ew).
  rewrite Ew. cbn [mbind outcome_bind Py.bind].
  eexists. split; [reflexivity|].
  cbn [a_ci_lower a_ci_upper a_bb_per_100 fst snd].
  split; [rewrite Hmean; reflexivity|].
  destruct (Nat.le_gt_cases (length profits) 1) as [Hle|Hgt].
  - destruct (Hone Hle) as (_ & -> & ->). lra.
  - destruct (Hmany Hgt) as [[Hlo Hhi] _]. rewrite Hmean.
    split; apply round_monotone; assumption.
Qed.

End WithRounding.

(** A player with two records, of profits 60 and -20, and no rounding. *)
Lemma interval_brackets_the_win_rate_witness :
  let p :=
    {| StyleBased.uuid := "hero"; StyleBased.style := "tag";
       StyleBased.style_def :=
         {| StyleBased.sd_name := "TAG (Tight-Aggressive)";
            StyleBased.threshold := 55; StyleBased.vpip := 0.25%Q;
            StyleBased.aggression := 0.7%Q |};
       StyleBased.stats :=
         {| StyleBased.hands_played := 2; StyleBased.hands_won := 1;
            StyleBased.total_profit := 40; StyleBased.advisor_calls := 0;
            StyleBased.api_errors := 0; StyleBased.actions := ∅;
            StyleBased.streets_reached := ∅;
            StyleBased.profits_by_street := ∅ |};
       StyleBased.current_hand :=
         {| StyleBased.note_street := None;
            StyleBased.note_stack_before := None |};
       StyleBased.hand_records :=
         [ {| StyleBased.street_reached := "flop";
              StyleBased.stack_before := 1000; StyleBased.stack_after := 1060;
              StyleBased.profit_loss := 60; StyleBased.won := true |};
           {| StyleBased.street_reached := "preflop";
              StyleBased.stack_before := 1060; StyleBased.stack_after := 1040;
              StyleBased.profit_loss := -20; StyleBased.won := false |} ];
       StyleBased.initial_stack := 1000 |} in
  monotone (fun _ x => x) /\ consistent p /\
  exists a,
    analyze_player (fun _ x => x) p = Ret a /\
    a_ci_lower a <= a_bb_per_100 a <= a_ci_upper a.
Proof.
  intros p.
  assert (Hm : monotone (fun _ x => x)) by (intros d x y H; exact H).
  assert (Hc : consistent p) by (split; reflexivity).
  split; [exact Hm|]. split; [exact Hc|].
  destruct (interval_brackets_the_win_rate (fun _ x => x) Hm p Hc)
    as (a & Ea & _ & Hb); [discriminate|].
  exists a. split; assumption.
Defined.

Close Scope R_scope.
End AnalysisProperties.

(* ===================================================================== *)
(** * The books of the Omaha test run *)
(* ===================================================================== *)

Module OmahaBooks.
Import Py Scorer Policy Advisor Omaha OmahaSpec OmahaFacts OmahaRun.
Import OmahaSession Analysis.

Section Frame.
Variable draws : nat -> Q.
Variable advisor : nat -> request -> reply.

(** Any reading [f] of the player that the setters used by [decide] leave
    alone. *)
Context {A : Type} (f : player -> A).
Hypothesis f_actions : forall g p, f (set_actions g p) = f p.
Hypothesis f_streets : forall g p, f (set_streets g p) = f p.
Hypothesis f_vpip : forall n b p, f (set_vpip n b p) = f p.
Hypothesis f_calls : forall g p, f (set_advisor_calls g p) = f p.
Hypothesis f_errors : forall g p, f (set_api_errors g p) = f p.

Ltac frame_leaf :=
  try unfold reads in *; cbn [self] in *;
  repeat match goal with
         | |- context [if vpip_this_hand ?p then _ else _] =>
             destruct (vpip_this_hand p)
         end;
  repeat first [ rewrite f_actions | rewrite f_streets | rewrite f_vpip
               | rewrite f_calls | rewrite f_errors ];
  assumption.

Lemma heuristic_keeps v call pot stk mnr mxr s :
  f (self s) = v ->
  wp (_heuristic draws call pot stk mnr mxr) (reads f v) s.
Proof.
  intros H. unfold _heuristic.
  repeat (wp_step; cbv beta iota); frame_leaf.
Qed.

Lemma style_action_keeps v action sizing call pot stk mnr mxr s :
  f (self s) = v ->
  wp (_style_action draws action sizing call pot stk mnr mxr) (reads f v) s.
Proof.
  intros H. unfold _style_action, raise_to_optimal.
  repeat (wp_step; cbv beta iota); frame_leaf.
Qed.

Lemma preflop_keeps v hole call pot stk mnr mxr num_p hand_num s :
  f (self s) = v ->
  wp (_preflop draws hole call pot stk mnr mxr num_p hand_num) (reads f v) s.
Proof.
  intros H. unfold _preflop, mark_vpip.
  repeat (wp_step; cbv beta iota); frame_leaf.
Qed.

Lemma postflop_keeps v hole board call pot stk mnr mxr street num_p
  hand_num s :
  f (self s) = v ->
  wp (_postflop draws advisor hole board call pot stk mnr mxr street
        num_p hand_num) (reads f v) s.
Proof.
  intros H. unfold _postflop, ask_advisor.
  repeat (first [ apply heuristic_keeps; frame_leaf
                | eapply wp_mono with (Q := reads f v);
                  [| apply style_action_keeps; frame_leaf ];
                  intros [d|e] s' Hr; clear H
                | wp_step ]; cbv beta iota); frame_leaf.
Qed.

Lemma decide_keeps v obs street_idx num_p hand_num s :
  f (self s) = v ->
  wp (decide draws advisor obs street_idx num_p hand_num) (reads f v) s.
Proof.
  intros H. unfold decide.
  repeat (first [ apply preflop_keeps; frame_leaf
                | apply postflop_keeps; frame_leaf
                | wp_step ]; cbv beta iota); frame_leaf.
Qed.

Lemma decisions_keep num_p hand_num pts (vs : list A) t :
  Forall2 (fun v p => f p = v) vs (seats t) ->
  Forall2 (fun v p => f p = v) vs
    (seats (snd (decisions draws advisor num_p hand_num pts t))).
Proof.
  revert t. induction pts as [|pt rest IH]; intros t H; [exact H|].
  cbn [decisions].
  assert (H1 : Forall2 (fun v p => f p = v) vs
                 (seats (snd (decide_at draws advisor num_p hand_num pt t)))).
  { unfold decide_at. destruct pt as [[i obs] street_idx].
    destruct (seats t !! i) as [p|] eqn:Ei; [|exact H].
    destruct (Forall2_lookup_r _ _ _ _ _ H Ei) as (v0 & Ev & Hv).
    pose proof (decide_keeps v0 obs street_idx num_p hand_num
                  {| self := p; rnd := t_rnd t; net := t_net t |} Hv) as W.
    unfold wp, reads in W.
    destruct (decide _ _ _ _ _ _ _) as [r c]. cbn [fst snd seats] in *.
    rewrite <- (list_insert_id vs i v0 Ev).
    apply Forall2_insert; assumption. }
  destruct (decide_at _ _ _ _ _ _) as [[d|e] t']; [|exact H1].
  specialize (IH t' H1).
  destruct (decisions _ _ _ _ _ t') as [[ds|e] t'']; exact IH.
Qed.

Lemma hand_keeps num_p hand_num pts t :
  Forall2 (fun p p' => f p' = f p) (seats t)
    (seats (snd (hand draws advisor num_p hand_num pts t))).
Proof.
  unfold hand.
  assert (H0 : Forall2 (fun v p => f p = v) (f <$> seats t)
                 (seats (reset_flags t))).
  { unfold reset_flags. cbn [seats].
    rewrite Forall2_fmap_l, Forall2_fmap_r.
    apply Forall_Forall2_diag. apply Forall_forall. intros p _.
    cbn. apply f_vpip. }
  pose proof (decisions_keep num_p hand_num pts (f <$> seats t)
                (reset_flags t) H0) as H.
  rewrite Forall2_fmap_l in H.
  eapply Forall2_impl; [exact H|]. intros p p' E. exact E.
Qed.

End Frame.

Section WithWorld.
Variable draws : nat -> Q.
Variable advisor : nat -> request -> reply.

(** X17. A hand changes nothing of a player but the counters of actions,
    streets, voluntary entries, advisor calls and errors: over any
    sequence of decisions, each player keeps its seat index, style,
    style definition, variant, mode and threshold, and the books of hands,
    wins, profit and per-hand profits. *)
Theorem hand_leaves_the_ledger_alone num_p hand_num pts t :
  Forall2 (fun p p' => ledger p' = ledger p) (seats t)
    (seats (snd (hand draws advisor num_p hand_num pts t))).
Proof.
  apply (hand_keeps draws advisor ledger); intros; reflexivity.
Qed.

Lemma enter_tallied pr p : tallied p -> tallied (enter pr p).
Proof.
  intros (Hh & Hp & Hw). unfold tallied, enter, enter_profit, count_hand.
  cbn [hands profit wins per_hand].
  rewrite Hh, Hp, Hw. unfold len.
  rewrite length_app, List.filter_app, length_app.
  unfold Py.sum. rewrite fold_left_app. cbn [fold_left List.filter].
  repeat split; try (cbn [length]; lia).
  destruct (0 <? pr)%Z; cbn [length]; lia.
Qed.

Lemma settle_tallied profits ps :
  (length ps <= length profits)%nat ->
  Forall tallied ps -> Forall tallied (settle profits ps).
Proof.
  revert profits. induction ps as [|p ps IH]; intros profits Hl H;
    [constructor|].
  apply Forall_cons in H as [Hp Hps].
  destruct profits as [|pr prs]; cbn [length] in Hl; [lia|].
  cbn [settle]. apply Forall_cons. split; [apply enter_tallied; exact Hp|].
  apply IH; [lia|exact Hps].
Qed.

Lemma settle_length profits ps : length (settle profits ps) = length ps.
Proof.
  revert profits. induction ps as [|p ps IH]; intros profits; [reflexivity|].
  destruct profits; cbn [settle length]; [reflexivity|].
  rewrite IH. reflexivity.
Qed.

Lemma ledger_tallied p p' : ledger p' = ledger p -> tallied p -> tallied p'.
Proof.
  unfold ledger, tallied. intros E. injection E.
  intros -> -> -> -> _ _ _ _ _ _. auto.
Qed.

Lemma hand_ledgers num_p hands_done pts t :
  Forall2 (fun p p' => ledger p' = ledger p) (seats t)
    (seats (snd (hand draws advisor num_p hands_done pts t))).
Proof.
  apply (hand_keeps draws advisor ledger); intros; reflexivity.
Qed.

Lemma one_hand_length num_p hands_done pts profits t :
  length (seats (one_hand draws advisor num_p hands_done pts profits t))
  = length (seats t).
Proof.
  unfold one_hand.
  pose proof (hand_ledgers num_p hands_done pts t) as Hk.
  apply Forall2_length in Hk.
  destruct (hand draws advisor num_p hands_done pts t) as [r t'].
  cbn [snd] in Hk.
  destruct r as [ds|e]; cbn [seats]; [rewrite settle_length|]; lia.
Qed.

Lemma one_hand_tallied num_p hands_done pts profits t :
  (length (seats t) <= length profits)%nat ->
  Forall tallied (seats t) ->
  Forall tallied
    (seats (one_hand draws advisor num_p hands_done pts profits t)).
Proof.
  intros Hl H. unfold one_hand.
  pose proof (hand_ledgers num_p hands_done pts t) as Hk.
  destruct (hand draws advisor num_p hands_done pts t) as [r t'].
  cbn [snd] in Hk.
  assert (Hlen : length (seats t') = length (seats t))
    by (symmetry; eapply Forall2_length; exact Hk).
  assert (H' : Forall tallied (seats t')).
  { clear r Hl Hlen. revert H.
    induction Hk as [|p p' l l' E _ IH]; intros H; [constructor|].
    apply Forall_cons in H as [Hp Hl].
    apply Forall_cons. split; [eapply ledger_tallied; eassumption|].
    apply IH. exact Hl. }
  destruct r as [ds|e]; [|exact H'].
  cbn [seats]. apply settle_tallied; [lia|exact H'].
Qed.

(** X18. The books of every player agree at every point of the run.  If
    each player's [hands] is the number of entries of its [per_hand], its
    [profit] their sum and its [wins] the number of positive entries, and
    every hand that is settled has a profit for each seat (as the list
    that [play_hand] returns has), then the same holds after any number
    of hands, whether a hand is settled or skipped because a decision
    raised. *)
Theorem run_keeps_the_books_tallied num_p hands_done script t :
  Forall tallied (seats t) ->
  Forall (fun h => (length (seats t) <= length (snd h))%nat) script ->
  Forall tallied
    (seats (run_hands draws advisor num_p hands_done script t)).
Proof.
  revert hands_done t.
  induction script as [|[pts profits] rest IH]; intros hands_done t H Hs;
    [exact H|].
  apply Forall_cons in Hs as [Hl Hs]. cbn [snd] in Hl.
  cbn [run_hands]. apply IH.
  - apply one_hand_tallied; assumption.
  - rewrite one_hand_length. exact Hs.
Qed.

(** A profit list that is shorter than the table breaks the books:
    the loop counts the hand of the first seat without a profit before it
    reads the profit, so that player has one hand more than entries in
    [per_hand], and the players after it are not touched. *)
Lemma short_profits_break_the_books profits ps p rest :
  Forall tallied (ps ++ p :: rest) ->
  length profits = length ps ->
  exists ps' p',
    settle profits (ps ++ p :: rest) = ps' ++ p' :: rest /\
    length ps' = length ps /\
    Forall tallied ps' /\
    hands p' = (len (per_hand p') + 1)%Z /\
    per_hand p' = per_hand p.
Proof.
  revert profits. induction ps as [|q ps IH]; intros profits H Hl.
  - destruct profits; [|discriminate Hl].
    apply Forall_cons in H as [(Hh & _) _].
    exists [], (count_hand p). cbn [settle app count_hand hands per_hand].
    repeat split; [constructor|lia].
  - destruct profits as [|pr prs]; [discriminate Hl|].
    cbn [app] in H. apply Forall_cons in H as [Hq H].
    destruct (IH prs H) as (ps' & p' & E & El & Ht & Hh & Hp);
      [cbn [length] in Hl; lia|].
    exists (enter pr q :: ps'), p'. cbn [settle app]. rewrite E.
    repeat split; try assumption.
    + cbn [length]. lia.
    + apply Forall_cons. split; [apply enter_tallied; exact Hq|exact Ht].
Qed.

End WithWorld.

(** Two new players in heuristic mode, one hand that is settled. *)
Lemma run_keeps_the_books_tallied_witness :
  let advisor := fun (_ : nat) (_ : request) => Failed RequestException in
  let draws := fun n : nat => (inject_Z (Z.of_nat n) / 7)%Q in
  let t := table_of (default [] (players_from 0 ["tag"; "lag"] 4 true)) in
  let obs := fun call =>
    {| o_call := call; o_pot := 12; o_stacks := [200; 188]%Z;
       o_min_raise := 4; o_max_raise := 40;
       o_hole_cards := [Card "Q" "♠"; Card "J" "♠"; Card "9" "♥";
                        Card "8" "♥"];
       o_community_cards := [Card "A" "♠"; Card "K" "♠"; Card "2" "♦"] |} in
  let script := [ ([(0%nat, obs 0%Z, 1%Z); (1%nat, obs 4%Z, 1%Z)],
                   [6; -6]%Z) ] in
  Forall tallied (seats t) /\
  Forall tallied (seats (run_hands draws advisor 2 0 script t)) /\
  length (seats (run_hands draws advisor 2 0 script t)) = 2%nat.
Proof.
  intros advisor draws t obs script.
  assert (H : Forall tallied (seats t)).
  { vm_compute. repeat constructor. }
  split; [exact H|]. split.
  - apply (run_keeps_the_books_tallied draws advisor 2 0 script t H).
    repeat constructor.
  - vm_compute. reflexivity.
Defined.

Section WithRounding.
Variable round_ : nat -> R -> R.
Hypothesis round_monotone : monotone round_.
Open Scope R_scope.

Lemma add_player_tallied a p :
  row_tallied a -> tallied p -> row_tallied (add_player a p).
Proof.
  intros (Hh & Hp & Hw) (Hh' & Hp' & Hw'). unfold row_tallied, add_player.
  cbn [r_hands r_profit r_wins r_per_hand].
  rewrite Hh, Hp, Hw, Hh', Hp', Hw'. unfold len.
  rewrite length_app, List.filter_app, length_app.
  unfold Py.sum. rewrite fold_left_app.
  repeat split; try lia.
  rewrite (SummaryFacts.sum_from (per_hand p)
             (fold_left Z.add (r_per_hand a) 0%Z)).
  reflexivity.
Qed.

Lemma aggregate_tallied style players :
  Forall tallied players -> row_tallied (aggregate style players).
Proof.
  intros H. unfold aggregate.
  assert (H0 : row_tallied empty_row) by (repeat split).
  revert H0. generalize empty_row.
  induction players as [|p ps IH]; intros a Ha; [exact Ha|].
  apply Forall_cons in H as [Hp Hps]. cbn [List.filter].
  destruct (String.eqb (Omaha.style p) style); [|apply IH; assumption].
  cbn [fold_left]. apply IH; [exact Hps|].
  apply add_player_tallied; assumption.
Qed.

(** X19. For players whose books agree, the line that [run_omaha_test]
    reports for a style is never a division by zero: a style without
    hands is skipped, and for a style with hands the reported interval
    brackets the reported win rate, lower bound <= bb100 <= upper bound
    (each rounded to one decimal), where bb100 is the rounded mean of the
    per-hand profits of the players of that style in big blinds of 2
    chips per 100 hands. *)
Theorem style_line_brackets_the_win_rate style players :
  Forall tallied players ->
  (r_hands (aggregate style players) = 0%Z ->
   style_line round_ (aggregate style players) = Ret None) /\
  (r_hands (aggregate style players) <> 0%Z ->
   exists r,
     style_line round_ (aggregate style players) = Ret (Some r) /\
     s_bb100 r
     = round_ 1 (mean_bb100 2 (r_per_hand (aggregate style players))) /\
     s_ci_lower r <= s_bb100 r <= s_ci_upper r).
Proof.
  intros H. pose proof (aggregate_tallied style players H) as (Hh & Hp & _).
  set (a := aggregate style players) in *.
  unfold style_line. cbv zeta.
  split.
  - intros E. rewrite E. reflexivity.
  - intros Hne.
    destruct (r_hands a =? 0)%Z eqn:E; [apply Z.eqb_eq in E; contradiction|].
    assert (Hn : PyR.fl (r_hands a) = INR (length (r_per_hand a))).
    { rewrite Hh. apply AnalysisFacts.fl_len. }
    assert (Hpos : 0 < INR (length (r_per_hand a))).
    { apply lt_0_INR. rewrite Hh in Hne. unfold len in Hne. lia. }
    assert (Hnz : PyR.fl (r_hands a) <> 0) by (rewrite Hn; lra).
    assert (Hnz' : PyR.fl (r_hands a) / 100 <> 0) by (rewrite Hn; lra).
    rewrite (TrajectoryFacts.truediv_ok _ _ Hnz').
    rewrite !(TrajectoryFacts.truediv_ok _ _ Hnz).
    cbn [mbind outcome_bind Py.bind]. rewrite Hn.
    assert (Hmean : PyR.fl (r_profit a) / 2 / (INR (length (r_per_hand a)) / 100)
                    = mean_bb100 2 (r_per_hand a)).
    { unfold mean_bb100, PyR.fl. rewrite Hp. field. lra. }
    destruct (1 <? len (r_per_hand a))%Z eqn:E1.
    + destruct (AnalysisFacts.std_error_steps (r_per_hand a) E1)
        as (m & var & sd & root & se & E2 & Hm & E3 & E4 & Hsd & E5 & E6
            & Hse).
      rewrite E2. cbn [mbind outcome_bind Py.bind]. rewrite E3.
      cbn [mbind outcome_bind Py.bind]. rewrite E4.
      cbn [mbind outcome_bind Py.bind]. rewrite E5.
      cbn [mbind outcome_bind Py.bind]. rewrite E6.
      cbn [mbind outcome_bind Py.bind].
      eexists. split; [reflexivity|].
      cbn [s_bb100 s_ci_lower s_ci_upper fst snd].
      rewrite Hmean. split; [reflexivity|].
      split; apply round_monotone; unfold mean_bb100; rewrite <- Hm; lra.
    + cbn [mbind outcome_bind Py.bind].
      eexists. split; [reflexivity|].
      cbn [s_bb100 s_ci_lower s_ci_upper fst snd].
      rewrite Hmean. split; [reflexivity|]. lra.
Qed.

Close Scope R_scope.
End WithRounding.

(** Two players of the style [tag] with two hands each. *)
Lemma style_line_brackets_the_win_rate_witness :
  let booked := fun i l =>
    fold_left (fun p pr => enter pr p) l
      (default (blank_player i) (new_player i "tag" 4 true)) in
  let players := [booked 0%nat [6; -2]%Z; booked 1%nat [-6; 2]%Z] in
  monotone (fun _ x => x) /\ Forall tallied players /\
  r_hands (aggregate "tag" players) = 4%Z /\
  exists r,
    style_line (fun _ x => x) (aggregate "tag" players) = Ret (Some r) /\
    (s_ci_lower r <= s_bb100 r <= s_ci_upper r)%R.
Proof.
  intros booked players.
  assert (Hm : monotone (fun _ x => x)) by (intros d x y H; exact H).
  assert (H : Forall tallied players).
  { vm_compute. repeat constructor. }
  split; [exact Hm|]. split; [exact H|]. split; [reflexivity|].
  destruct (style_line_brackets_the_win_rate (fun _ x => x) Hm "tag"
              players H) as [_ Hline].
  destruct Hline as (r & Er & _ & Hb); [vm_compute; discriminate|].
  exists r. split; assumption.
Defined.

End OmahaBooks.
(* ===================================================================== *)
(** * Properties of the tracked bot's decisions *)
(* ===================================================================== *)

Module TrajectoryBotFacts.
Import Py TrajectoryBot.
Import StyleBased (valid_action, call_action, raise_action, found, in_list).
Open Scope Q_scope.

Lemma ltb_true a b : ltb a b = true -> a < b.
Proof.
  unfold ltb. rewrite Qlt_alt. destruct (a ?= b); congruence.
Qed.

Lemma ltb_intro a b : a < b -> ltb a b = true.
Proof.
  intros H. unfold ltb. rewrite (proj1 (Qlt_alt a b) H). reflexivity.
Qed.

Lemma ltb_false a b : ltb a b = false -> b <= a.
Proof.
  unfold ltb. intros H. apply Qnot_lt_le. rewrite Qlt_alt.
  destruct (a ?= b); congruence.
Qed.

Lemma fl_le a b : (a <= b)%Z -> fl a <= fl b.
Proof. intros H. unfold fl. rewrite <- Zle_Qle. exact H. Qed.

(** The cap: [min(x, max_r)] is never above [max_r]. *)
Lemma py_min_not_above x max_r : lt (chips max_r) (py_min x (chips max_r)) = false.
Proof.
  unfold py_min, chips.
  destruct (lt (Finite (fl max_r)) x) eqn:E.
  - cbn [lt]. destruct (ltb (fl max_r) (fl max_r)) eqn:E'; [|reflexivity].
    apply ltb_true in E'. exfalso. exact (Qlt_irrefl _ E').
  - exact E.
Qed.

(** The clamp: [max(lo, min(x, hi))] lies in the range, whatever [x]
    is. *)
Lemma clamp_in_range lo x hi :
  (lo <= hi)%Z -> within lo hi (py_max (chips lo) (py_min x (chips hi))).
Proof.
  intros H. apply fl_le in H. unfold py_max, py_min, chips, within.
  destruct x as [q| | |]; cbn [lt].
  - destruct (ltb (fl hi) q) eqn:E1; cbn [lt].
    + destruct (ltb (fl lo) (fl hi)) eqn:E2;
        [split; [exact H|apply Qle_refl]|split; [apply Qle_refl|exact H]].
    + destruct (ltb (fl lo) q) eqn:E2.
      * split; [apply Qlt_le_weak, ltb_true; exact E2
               |apply ltb_false; exact E1].
      * split; [apply Qle_refl|exact H].
  - destruct (ltb (fl lo) (fl hi)) eqn:E2;
      [split; [exact H|apply Qle_refl]|split; [apply Qle_refl|exact H]].
  - split; [apply Qle_refl|exact H].
  - split; [apply Qle_refl|exact H].
Qed.

Lemma within_chips lo hi z : (lo <= z <= hi)%Z -> within lo hi (chips z).
Proof. intros [H1 H2]. split; apply fl_le; assumption. Qed.

Lemma usable_range min_r max_r :
  usable min_r max_r = true -> (0 < min_r <= max_r)%Z.
Proof. unfold usable. lia. Qed.

Lemma fallback_accepted va : accepted va (_fallback va).
Proof.
  unfold _fallback, accepted.
  destruct (call_action va) as [[| |]|] eqn:E; auto.
  right. left. exists 0%Z. split; reflexivity.
Qed.

Lemma call_or_fold_accepted va : accepted va (call_or_fold va).
Proof.
  unfold call_or_fold, accepted.
  destruct (call_action va) as [a|] eqn:E; auto.
  right. left. exists a. split; reflexivity.
Qed.

Lemma call_or_zero_accepted va :
  found (call_action va) = true -> accepted va (call_or_zero va).
Proof.
  unfold call_or_zero, accepted.
  destruct (call_action va) as [a|] eqn:E; [intros _|discriminate].
  right. left. exists a. split; reflexivity.
Qed.

Lemma call_accepted va a :
  call_action va = Some a -> accepted va ("call", chips a).
Proof. intros E. right. left. exists a. split; [exact E|reflexivity]. Qed.

Lemma raise_accepted va min_r max_r x :
  raise_action va = Some (min_r, max_r) ->
  within min_r max_r x -> accepted va ("raise", x).
Proof.
  intros E H. right. right. exists min_r, max_r, x.
  split; [exact E|]. split; [reflexivity|exact H].
Qed.

Lemma preflop_action_accepted strategy draw va :
  found (call_action va) = true ->
  accepted va (_preflop_action strategy draw va).
Proof.
  intros Hc. unfold _preflop_action.
  pose proof (call_or_zero_accepted va Hc) as Hz.
  destruct (call_action va) as [a|] eqn:Ea; [|discriminate].
  assert (Hcall : accepted va ("call", chips a))
    by (apply call_accepted; exact Ea).
  assert (Hfold : accepted va ("fold", chips 0)) by (left; reflexivity).
  assert (H0 : a = 0%Z -> accepted va ("call", chips 0)).
  { intros ->. exact Hcall. }
  destruct a as [|a|a]; [apply H0; reflexivity| |].
  all: destruct (String.eqb strategy "MANIAC");
    [destruct (raise_action va) as [[mn mx]|] eqn:Er; [|exact Hz];
     destruct (usable mn mx) eqn:Eu; [|exact Hz];
     apply usable_range in Eu;
     apply (raise_accepted va mn mx); [exact Er|];
     apply within_chips; lia|].
  all: destruct (String.eqb strategy "NIT");
    [match goal with |- context [(?x <=? 10)%Z] =>
       destruct (x <=? 10)%Z end; assumption|].
  all: destruct (String.eqb strategy "FISH"); [exact Hz|].
  all: destruct (String.eqb strategy "LAG");
    [destruct (raise_action va) as [[mn mx]|] eqn:Er; [|exact Hz];
     destruct (ltb draw 0.4 && usable mn mx) eqn:Eu; [|exact Hz];
     apply andb_prop in Eu as [_ Eu]; apply usable_range in Eu;
     apply (raise_accepted va mn mx); [exact Er|];
     apply within_chips; lia|].
  all: match goal with |- context [(?x <=? 30)%Z] =>
         destruct (x <=? 30)%Z end; assumption.
Qed.

Lemma execute_accepted action s va d :
  _execute action s va = Ret d -> accepted va d.
Proof.
  unfold _execute.
  destruct (String.eqb action "fold"); [intros [= <-]; left; reflexivity|].
  destruct (in_list action ["call"; "check"]);
    [intros [= <-]; apply call_or_fold_accepted|].
  destruct (in_list action ["raise"; "bet"]);
    [|intros [= <-]; left; reflexivity].
  destruct (raise_action va) as [[mn mx]|] eqn:Er;
    [|intros [= <-]; apply call_or_fold_accepted].
  destruct (usable mn mx) eqn:Eu;
    [|intros [= <-]; apply call_or_fold_accepted].
  apply usable_range in Eu.
  destruct (get_optimal s mn) as [opt|e]; [|discriminate].
  cbn [mbind outcome_bind Py.bind]. intros [= <-].
  apply (raise_accepted va mn mx); [exact Er|].
  apply clamp_in_range. lia.
Qed.

(** Whether a number lies in a range can be told. *)
Lemma within_dec lo hi x : within lo hi x \/ ~ within lo hi x.
Proof.
  destruct x as [q| | |]; cbn [within]; try (right; tauto).
  destruct (Qlt_le_dec q (fl lo)) as [H|H].
  - right. intros [H1 _]. exact (Qlt_not_le _ _ H H1).
  - destruct (Qlt_le_dec (fl hi) q) as [H'|H'].
    + right. intros [_ H2]. exact (Qlt_not_le _ _ H' H2).
    + left. split; assumption.
Qed.

(** What [_apply_strategy] returns is accepted, unless it is the raise of
    the strategy MANIAC, which is capped from above only. *)
Lemma apply_strategy_cases strategy draw action conf s va d :
  _apply_strategy strategy draw action conf s va = Ret d ->
  accepted va d \/
  (strategy = "MANIAC" /\
   exists min_r max_r x,
     raise_action va = Some (min_r, max_r) /\ (0 < min_r <= max_r)%Z /\
     d = ("raise", x) /\ lt (chips max_r) x = false /\
     ~ within min_r max_r x).
Proof.
  unfold _apply_strategy.
  pose proof (execute_accepted action s va d) as Hx.
  destruct (String.eqb strategy "MANIAC") eqn:Es.
  { apply String.eqb_eq in Es.
    destruct (raise_action va) as [[mn mx]|] eqn:Er; [|auto].
    destruct (ltb draw 0.7 && usable mn mx) eqn:Eu; [|auto].
    apply andb_prop in Eu as [_ Eu]. apply usable_range in Eu.
    destruct (get_optimal s mn) as [opt|e]; [|discriminate].
    cbn [mbind outcome_bind Py.bind]. intros [= <-].
    destruct (within_dec mn mx (py_min opt (chips mx))) as [Hw|Hw].
    - left. apply (raise_accepted va mn mx); [exact Er|exact Hw].
    - right. split; [exact Es|]. exists mn, mx, (py_min opt (chips mx)).
      split; [first [exact Er|reflexivity]|]. split; [exact Eu|].
      split; [reflexivity|].
      split; [apply py_min_not_above|exact Hw]. }
  destruct (String.eqb strategy "FISH").
  { destruct (call_action va) as [a|] eqn:Ea; [|auto].
    destruct (in_list action ["raise"; "bet"]); [|auto].
    intros [= <-]. left. apply call_accepted. exact Ea. }
  destruct (String.eqb strategy "NIT").
  { destruct (lt conf (Finite 0.7)); [|auto].
    destruct (call_action va) as [[| |]|] eqn:Ea; intros [= <-]; left;
      try (left; reflexivity).
    apply (call_accepted va 0). exact Ea. }
  destruct (String.eqb strategy "LAG").
  { destruct (raise_action va) as [[mn mx]|] eqn:Er; [|auto].
    destruct (String.eqb action "call" && ltb draw 0.4 && usable mn mx)
      eqn:Eu; [|auto].
    apply andb_prop in Eu as [_ Eu]. apply usable_range in Eu.
    intros [= <-]. left. apply (raise_accepted va mn mx); [exact Er|].
    apply within_chips. lia. }
  auto.
Qed.

Close Scope Q_scope.
End TrajectoryBotFacts.

Module TrajectoryBotProperties.
Import Py TrajectoryBot TrajectoryBotFacts.
Import StyleBased (valid_action, ValidFold, ValidCall, ValidRaise,
                   call_action, raise_action, found, in_list).
Open Scope Q_scope.

(** X20. When the engine offers a call, [declare_action] of the tracked
    bot always makes a decision, whatever the advisor replies, infinities
    and NaN included.  The decision is a fold, the call at the offered
    amount, or a raise that is never above the offered maximum.  Before
    the flop, after a failed exchange with the advisor, and for every
    strategy but MANIAC, a raise is a number within the offered range;
    the strategy MANIAC returns the advisor's size capped at the maximum,
    which can be below the minimum or NaN. *)
Theorem tracked_bot_decision_is_accepted strategy draw va board exchange :
  found (call_action va) = true ->
  let d := declare_action strategy draw va board exchange in
  (accepted va d \/
   exists min_r max_r x,
     raise_action va = Some (min_r, max_r) /\ (0 < min_r <= max_r)%Z /\
     d = ("raise", x) /\ lt (chips max_r) x = false /\
     ~ within min_r max_r x) /\
  (strategy <> "MANIAC" \/ (board < 3)%Z \/ exchange = None ->
   accepted va d).
Proof.
  intros Hc d. subst d. unfold declare_action.
  destruct (board <? 3)%Z eqn:Eb.
  { pose proof (preflop_action_accepted strategy draw va Hc). auto. }
  destruct exchange as [a|]; [|pose proof (fallback_accepted va); auto].
  pose proof (apply_strategy_cases strategy draw (adv_action a)
                (adv_confidence a) (adv_sizing a) va) as H.
  destruct (_apply_strategy strategy draw (adv_action a) (adv_confidence a)
              (adv_sizing a) va) as [d|e];
    [|pose proof (fallback_accepted va); auto].
  destruct (H d eq_refl) as [Ha|(Es & mn & mx & x & H1 & H2 & H3 & H4 & H5)].
  - auto.
  - split.
    + right. exists mn, mx, x. auto.
    + intros [Hn|[Hb|Hx]]; [contradiction|lia|discriminate].
Qed.

Lemma tracked_bot_decision_is_accepted_witness :
  let va := [ValidFold; ValidCall 20; ValidRaise 40 400] in
  let a := {| adv_action := "raise"; adv_confidence := Finite 0.8;
              adv_sizing := Dict (Number NaN) |} in
  found (call_action va) = true /\
  declare_action "TAG" 0.5 va 3 (Some a) = ("raise", chips 40) /\
  accepted va (declare_action "TAG" 0.5 va 3 (Some a)).
Proof.
  intros va a. split; [reflexivity|]. split; [reflexivity|].
  apply (tracked_bot_decision_is_accepted "TAG" 0.5 va 3 (Some a) eq_refl).
  left. discriminate.
Defined.

(** X21. The strategy MANIAC can raise below the minimum that the engine
    offers: after the flop, with a draw below 0.7 and a usable raise
    range, it raises to the advisor's optimal size capped at the maximum,
    so an optimal size below the minimum is returned as it is, and the
    decision is not one the engine offers. *)
Theorem maniac_raises_below_the_minimum draw va board action conf q
  min_r max_r :
  (3 <= board)%Z ->
  draw < 0.7 ->
  raise_action va = Some (min_r, max_r) ->
  (0 < min_r <= max_r)%Z ->
  q < fl min_r ->
  let a := {| adv_action := action; adv_confidence := conf;
              adv_sizing := Dict (Number (Finite q)) |} in
  declare_action "MANIAC" draw va board (Some a) = ("raise", Finite q) /\
  ~ accepted va (declare_action "MANIAC" draw va board (Some a)).
Proof.
  intros Hb Hd Er Hr Hq a.
  assert (E : declare_action "MANIAC" draw va board (Some a)
              = ("raise", Finite q)).
  { unfold declare_action.
    destruct (board <? 3)%Z eqn:Eb; [lia|].
    unfold _apply_strategy. cbn [String.eqb Ascii.eqb Bool.eqb].
    rewrite Er.
    assert (E1 : ltb draw 0.7 = true) by (apply ltb_intro; exact Hd).
    assert (E2 : usable min_r max_r = true) by (unfold usable; lia).
    rewrite E1, E2. cbn [andb adv_sizing a get_optimal mbind outcome_bind
                         Py.bind].
    unfold py_min, chips. cbn [lt].
    destruct (ltb (fl max_r) q) eqn:E3; [|reflexivity].
    apply ltb_true in E3. exfalso.
    assert (fl min_r <= fl max_r) by (apply fl_le; lia).
    apply (Qlt_irrefl q).
    eapply Qlt_trans; [exact Hq|].
    eapply Qle_lt_trans; [eassumption|exact E3]. }
  split; [exact E|]. rewrite E.
  intros [H|[(amount & _ & H)|(mn & mx & x & Er' & H & Hw)]];
    try discriminate.
  rewrite Er in Er'. injection Er' as <- <-. injection H as <-.
  destruct Hw as [Hlo _].
  apply (Qlt_irrefl q). eapply Qlt_le_trans; eassumption.
Qed.

Lemma maniac_raises_below_the_minimum_witness :
  let va := [ValidFold; ValidCall 20; ValidRaise 40 400] in
  let a := {| adv_action := "call"; adv_confidence := Finite 0.5;
              adv_sizing := Dict (Number (Finite 15)) |} in
  declare_action "MANIAC" 0.25 va 3 (Some a) = ("raise", Finite 15) /\
  ~ accepted va (declare_action "MANIAC" 0.25 va 3 (Some a)).
Proof.
  intros va a.
  apply (maniac_raises_below_the_minimum 0.25 va 3 "call" (Finite 0.5) 15
           40 400).
  - lia.
  - reflexivity.
  - reflexivity.
  - lia.
  - reflexivity.
Defined.

Close Scope Q_scope.
End TrajectoryBotProperties.

(* ===================================================================== *)
(** * Properties of the trajectory metrics and of the classification *)
(* ===================================================================== *)

Module TrajectoryReportFacts.
Import Py Trajectory TrajectoryFacts TrajectoryReport.

(** ** Running maxima and minima *)

Lemma fold_max_init l : forall x, (x <= fold_left Z.max l x)%Z.
Proof.
  induction l as [|y l IH]; intros x; cbn [fold_left]; [lia|].
  specialize (IH (Z.max x y)). lia.
Qed.

Lemma fold_min_init l : forall x, (fold_left Z.min l x <= x)%Z.
Proof.
  induction l as [|y l IH]; intros x; cbn [fold_left]; [lia|].
  specialize (IH (Z.min x y)). lia.
Qed.

Lemma fold_max_bound l : forall x,
  Forall (fun s => (s <= fold_left Z.max l x)%Z) l.
Proof.
  induction l as [|y l IH]; intros x; cbn [fold_left]; constructor.
  - pose proof (fold_max_init l (Z.max x y)). lia.
  - apply IH.
Qed.

Lemma fold_min_bound l : forall x,
  Forall (fun s => (fold_left Z.min l x <= s)%Z) l.
Proof.
  induction l as [|y l IH]; intros x; cbn [fold_left]; constructor.
  - pose proof (fold_min_init l (Z.min x y)). lia.
  - apply IH.
Qed.

Lemma fold_max_in l : forall x,
  fold_left Z.max l x = x \/ In (fold_left Z.max l x) l.
Proof.
  induction l as [|y l IH]; intros x; cbn [fold_left]; [left; reflexivity|].
  destruct (IH (Z.max x y)) as [E|H]; [|right; right; exact H].
  rewrite E. destruct (Z.max_spec x y) as [[_ ->]|[_ ->]];
    [right; left; reflexivity|left; reflexivity].
Qed.

Lemma fold_min_in l : forall x,
  fold_left Z.min l x = x \/ In (fold_left Z.min l x) l.
Proof.
  induction l as [|y l IH]; intros x; cbn [fold_left]; [left; reflexivity|].
  destruct (IH (Z.min x y)) as [E|H]; [|right; right; exact H].
  rewrite E. destruct (Z.min_spec x y) as [[_ ->]|[_ ->]];
    [left; reflexivity|right; left; reflexivity].
Qed.

Lemma fold_max_from l : forall a b,
  fold_left Z.max l (Z.max a b) = Z.max a (fold_left Z.max l b).
Proof.
  induction l as [|y l IH]; intros a b; cbn [fold_left]; [reflexivity|].
  rewrite <- Z.max_assoc. apply IH.
Qed.

Lemma last_cons_default (t : list Z) : forall x d,
  List.last (x :: t) d = List.last t x.
Proof.
  induction t as [|y t IH]; intros x d; [reflexivity|].
  change (List.last (x :: y :: t) d) with (List.last (y :: t) d).
  rewrite (IH y d), (IH y x). reflexivity.
Qed.

Lemma last_in (t : list Z) : forall x, In (List.last t x) (x :: t).
Proof.
  induction t as [|y t IH]; intros x; [left; reflexivity|].
  right. rewrite last_cons_default. apply IH.
Qed.

(** ** The drawdown loop *)

Lemma drawdown_step_max pk dd s :
  drawdown_step (pk, dd) s = (Z.max pk s, Z.max dd (Z.max pk s - s))%Z.
Proof.
  unfold drawdown_step.
  destruct (pk <? s)%Z eqn:E1;
    [apply Z.ltb_lt in E1; rewrite (Z.max_r pk s) by lia
    |apply Z.ltb_ge in E1; rewrite (Z.max_l pk s) by lia].
  all: match goal with |- context [(?a <? ?b)%Z] =>
         destruct (a <? b)%Z eqn:E2 end;
    [apply Z.ltb_lt in E2|apply Z.ltb_ge in E2]; f_equal; lia.
Qed.

(** The loop ends with the running peak; its drawdown is at least the
    fall from that peak to the last stack, and at most the fall from the
    peak to any lower bound of the stacks. *)
Lemma drawdown_loop l : forall pk dd,
  let r := fold_left drawdown_step l (pk, dd) in
  fst r = fold_left Z.max l pk /\
  (dd <= snd r)%Z /\
  (forall m, Forall (fun s => (m <= s)%Z) l ->
             (snd r <= Z.max dd (fst r - m))%Z) /\
  (l <> [] -> (fst r - List.last l 0 <= snd r)%Z).
Proof.
  induction l as [|s l IH]; intros pk dd; cbn zeta.
  - cbn [fold_left fst snd]. repeat split; try lia. congruence.
  - cbn [fold_left]. rewrite drawdown_step_max.
    destruct (IH (Z.max pk s) (Z.max dd (Z.max pk s - s))%Z)
      as (H1 & H2 & H3 & H4).
    cbv zeta in H1, H2, H3, H4.
    set (r := fold_left drawdown_step l
                (Z.max pk s, Z.max dd (Z.max pk s - s)%Z)) in *.
    repeat split.
    + exact H1.
    + lia.
    + intros m Hm. apply Forall_cons in Hm as [Hs Hm].
      specialize (H3 m Hm).
      pose proof (fold_max_init l (Z.max pk s)). rewrite <- H1 in H. lia.
    + intros _. rewrite last_cons_default.
      destruct l as [|y l].
      * cbn [List.last]. subst r. cbn [fold_left fst snd]. lia.
      * rewrite (last_cons_default l y s).
        rewrite <- (last_cons_default l y 0%Z).
        apply H4. discriminate.
Qed.

(** ** The streak loop *)

Lemma positives_cons x l :
  positives (x :: l) = ((if (0 <? x)%Z then 1 else 0) + positives l)%Z.
Proof.
  unfold positives, len. cbn [List.filter].
  destruct (0 <? x)%Z; cbn [length]; lia.
Qed.

Lemma negatives_cons x l :
  negatives (x :: l) = ((if (x <? 0)%Z then 1 else 0) + negatives l)%Z.
Proof.
  unfold negatives, len. cbn [List.filter].
  destruct (x <? 0)%Z; cbn [length]; lia.
Qed.

Lemma positives_nonneg l : (0 <= positives l)%Z.
Proof. unfold positives, len. lia. Qed.

Lemma negatives_nonneg l : (0 <= negatives l)%Z.
Proof. unfold negatives, len. lia. Qed.

Lemma streak_step_inv w0 l0 st p n x :
  streak_inv w0 l0 st p n ->
  streak_inv w0 l0 (streak_step st x)
    (p + (if (0 <? x)%Z then 1 else 0))
    (n + (if (x <? 0)%Z then 1 else 0)).
Proof.
  unfold streak_inv, streak_step.
  intros (Hp & Hn & Hw & Hl & Hmw & Hml & Hpw & Hnl & Hc).
  destruct (0 <? x)%Z eqn:E1.
  - apply Z.ltb_lt in E1.
    assert (E2 : (x <? 0)%Z = false) by (apply Z.ltb_ge; lia).
    rewrite E2.
    destruct (is_winning st) as [[|]|];
      cbn [current_streak is_winning max_win max_lose won lost];
      repeat split; lia.
  - destruct (x <? 0)%Z eqn:E2.
    + destruct (is_winning st) as [[|]|];
        cbn [current_streak is_winning max_win max_lose won lost];
        repeat split; lia.
    + rewrite !Z.add_0_r. repeat split; try lia. exact Hc.
Qed.

Lemma streak_loop w0 l0 l : forall st p n,
  streak_inv w0 l0 st p n ->
  streak_inv w0 l0 (fold_left streak_step l st)
    (p + positives l) (n + negatives l).
Proof.
  induction l as [|x l IH]; intros st p n H; cbn [fold_left].
  - change (positives []) with 0%Z. change (negatives []) with 0%Z.
    rewrite !Z.add_0_r. exact H.
  - rewrite positives_cons, negatives_cons, !Z.add_assoc.
    apply IH. apply streak_step_inv. exact H.
Qed.

Lemma streak_scan_inv w0 l0 l :
  streak_inv w0 l0 (streak_scan w0 l0 l) (positives l) (negatives l).
Proof.
  unfold streak_scan.
  pose proof (streak_loop w0 l0 l
                {| current_streak := 0; is_winning := None; max_win := 0;
                   max_lose := 0; won := w0; lost := l0 |} 0 0) as H.
  cbn [Z.add] in H. apply H.
  unfold streak_inv.
  cbn [current_streak is_winning max_win max_lose won lost].
  repeat split; lia.
Qed.

Lemma streak_step_shape st st' x :
  streak_shape st = streak_shape st' ->
  streak_shape (streak_step st x) = streak_shape (streak_step st' x).
Proof.
  unfold streak_shape, streak_step. intros [= E1 E2 E3 E4].
  rewrite E1, E2, E3, E4.
  destruct (0 <? x)%Z; [destruct (is_winning st') as [[|]|]; reflexivity|].
  destruct (x <? 0)%Z; [destruct (is_winning st') as [[|]|]; reflexivity|].
  congruence.
Qed.

Lemma streak_loop_shape l : forall st st',
  streak_shape st = streak_shape st' ->
  streak_shape (fold_left streak_step l st)
  = streak_shape (fold_left streak_step l st').
Proof.
  induction l as [|x l IH]; intros st st' H; [exact H|].
  cbn [fold_left]. apply IH. apply streak_step_shape. exact H.
Qed.

Lemma streak_scan_shape w l w' l' results :
  streak_shape (streak_scan w l results)
  = streak_shape (streak_scan w' l' results).
Proof. apply streak_loop_shape. reflexivity. Qed.

(** ** The call in closed form *)

Open Scope R_scope.

Lemma pct_closed peak max_dd :
  (if (0 <? peak)%Z
   then q ← PyR.truediv (PyR.fl max_dd) (PyR.fl peak); Ret (q * 100)
   else Ret 0) = Ret (pct_of peak max_dd).
Proof.
  unfold pct_of. destruct (0 <? peak)%Z eqn:E; [|reflexivity].
  apply Z.ltb_lt in E. rewrite truediv_ok; [reflexivity|].
  unfold PyR.fl. apply not_0_IZR. lia.
Qed.

Lemma vol_closed (results : list Z) old :
  (if (1 <? len results)%Z
   then
     mean ← PyR.truediv (PyR.fl (Py.sum results)) (PyR.fl (len results));
     variance ← PyR.truediv (PyR.sum_sq_dev results mean)
                            (PyR.fl (len results));
     PyR.math_sqrt variance
   else Ret old) = Ret (vol_of results old).
Proof.
  unfold vol_of. destruct (1 <? len results)%Z eqn:E; [|reflexivity].
  apply Z.ltb_lt in E.
  assert (Hne : results <> []) by (intros ->; cbv in E; discriminate).
  pose proof (fl_len_pos results Hne) as Hpos.
  rewrite truediv_ok by lra. cbn [mbind outcome_bind Py.bind].
  rewrite truediv_ok by lra. cbn [mbind outcome_bind Py.bind].
  rewrite math_sqrt_ok; [reflexivity|].
  apply Rmult_le_pos; [apply sum_sq_dev_nonneg|].
  left. now apply Rinv_0_lt_compat.
Qed.

Lemma sharpe_closed (results : list Z) total vol old :
  (if Rlt_dec 0 vol
   then if (0 <? len results)%Z
        then
          avg_profit ← PyR.truediv (PyR.fl total) (PyR.fl (len results));
          PyR.truediv avg_profit vol
        else Ret old
   else Ret old) = Ret (sharpe_of results total vol old).
Proof.
  unfold sharpe_of. destruct (Rlt_dec 0 vol) as [Hv|Hv]; [|reflexivity].
  destruct (0 <? len results)%Z eqn:E; [|reflexivity].
  apply Z.ltb_lt in E.
  assert (Hne : results <> []) by (intros ->; cbv in E; discriminate).
  pose proof (fl_len_pos results Hne) as Hpos.
  rewrite truediv_ok by lra. cbn [mbind outcome_bind Py.bind].
  rewrite truediv_ok by lra. reflexivity.
Qed.

Lemma compute_metrics_closed self :
  stack_history self <> [] -> compute_metrics self = Ret (computed self).
Proof.
  intros Hne. unfold compute_metrics, computed.
  destruct (stack_history self) as [|x t] eqn:Es; [congruence|].
  cbn [last_of max_of min_of mbind outcome_bind Py.bind tl hd].
  rewrite last_cons_default.
  destruct (drawdown_scan (initial_stack self) (x :: t)) as [peak max_dd].
  rewrite pct_closed. cbn [mbind outcome_bind Py.bind].
  rewrite vol_closed. cbn [mbind outcome_bind Py.bind].
  rewrite sharpe_closed. cbn [mbind outcome_bind Py.bind].
  reflexivity.
Qed.

Lemma vol_of_again results old :
  vol_of results (vol_of results old) = vol_of results old.
Proof. unfold vol_of. destruct (1 <? len results)%Z; reflexivity. Qed.

Lemma sharpe_of_again results total vol old :
  sharpe_of results total vol (sharpe_of results total vol old)
  = sharpe_of results total vol old.
Proof.
  unfold sharpe_of. destruct (Rlt_dec 0 vol); [|reflexivity].
  destruct (0 <? len results)%Z; reflexivity.
Qed.

Close Scope R_scope.
End TrajectoryReportFacts.

Module TrajectoryReportProperties.
Import Py Trajectory TrajectoryFacts TrajectoryReport TrajectoryReportFacts.

(** X22. On a stack history that is not empty [compute_metrics] returns
    metrics that fit together: the final, the peak and the minimum stack
    are entries of the history, every entry lies between the minimum and
    the peak, the total profit is the final stack minus the initial one,
    and the maximum drawdown is at least the fall from the running peak
    (the larger of the initial stack and the peak stack) to the final
    stack and at most the fall from it to the minimum stack.  The
    drawdown percentage is never negative, and is at most 100 when no
    stack of the history is negative. *)
Theorem metrics_fit_together self :
  stack_history self <> [] ->
  exists t',
    compute_metrics self = Ret t' /\
    In (final_stack t') (stack_history self) /\
    In (peak_stack t') (stack_history self) /\
    In (min_stack t') (stack_history self) /\
    Forall (fun s => (min_stack t' <= s <= peak_stack t')%Z)
      (stack_history self) /\
    total_profit t' = (final_stack t' - initial_stack self)%Z /\
    (0 <= max_drawdown t')%Z /\
    (Z.max (initial_stack self) (peak_stack t') - final_stack t'
     <= max_drawdown t'
     <= Z.max (initial_stack self) (peak_stack t') - min_stack t')%Z /\
    (0 <= max_drawdown_pct t')%R /\
    ((0 <= min_stack t')%Z -> (max_drawdown_pct t' <= 100)%R).
Proof.
  intros Hne. exists (computed self).
  split; [apply compute_metrics_closed; exact Hne|].
  unfold computed.
  cbn [final_stack peak_stack min_stack total_profit max_drawdown
       max_drawdown_pct].
  destruct (stack_history self) as [|x t]; [congruence|]. clear Hne.
  cbn [tl hd]. rewrite last_cons_default.
  set (pk := fold_left Z.max t x). set (mn := fold_left Z.min t x).
  assert (Hall : Forall (fun s => (mn <= s <= pk)%Z) (x :: t)).
  { constructor.
    - pose proof (fold_max_init t x). pose proof (fold_min_init t x).
      subst pk mn. lia.
    - pose proof (fold_max_bound t x) as H1.
      pose proof (fold_min_bound t x) as H2.
      rewrite List.Forall_forall in *. intros s Hs.
      specialize (H1 s Hs). specialize (H2 s Hs). subst pk mn. lia. }
  assert (Hlast : In (List.last t x) (x :: t)) by apply last_in.
  assert (Hfin : (mn <= List.last t x <= pk)%Z).
  { rewrite List.Forall_forall in Hall. apply Hall. exact Hlast. }
  destruct (drawdown_loop (x :: t) (initial_stack self) 0)
    as (H1 & H2 & H3 & H4).
  cbv zeta in H1, H2, H3, H4. fold (drawdown_scan (initial_stack self) (x :: t))
    in H1, H2, H3, H4.
  set (r := drawdown_scan (initial_stack self) (x :: t)) in *.
  assert (Hpk : fst r = Z.max (initial_stack self) pk).
  { rewrite H1. cbn [fold_left]. apply fold_max_from. }
  assert (Hlo : (fst r - List.last t x <= snd r)%Z).
  { rewrite <- (last_cons_default t x 0%Z). apply H4. discriminate. }
  assert (Hhi : (snd r <= fst r - mn)%Z).
  { assert (Hm : Forall (fun s => (mn <= s)%Z) (x :: t)).
    { eapply List.Forall_impl; [|exact Hall]. cbv beta. intros; lia. }
    specialize (H3 mn Hm). lia. }
  repeat split.
  - exact Hlast.
  - destruct (fold_max_in t x) as [E|H]; fold pk in E || fold pk in H;
      [rewrite E; left; reflexivity|right; exact H].
  - destruct (fold_min_in t x) as [E|H]; fold mn in E || fold mn in H;
      [rewrite E; left; reflexivity|right; exact H].
  - exact Hall.
  - exact H2.
  - rewrite <- Hpk. exact Hlo.
  - rewrite <- Hpk. exact Hhi.
  - unfold pct_of. destruct (0 <? fst r)%Z eqn:E; [|lra].
    apply Z.ltb_lt in E. apply IZR_lt in E. apply IZR_le in H2.
    apply Rmult_le_pos; [|lra].
    apply Rmult_le_pos; [exact H2|]. left. apply Rinv_0_lt_compat. exact E.
  - intros Hmin. unfold pct_of. destruct (0 <? fst r)%Z eqn:E; [|lra].
    apply Z.ltb_lt in E.
    assert (Hle : (snd r <= fst r)%Z) by lia.
    apply IZR_lt in E. apply IZR_le in Hle.
    assert (IZR (snd r) / IZR (fst r) <= 1)%R; [|lra].
    apply (Rmult_le_reg_r (IZR (fst r))); [exact E|].
    unfold Rdiv. rewrite Rmult_assoc, Rinv_l by lra. lra.
Qed.

Lemma metrics_fit_together_witness :
  exists t',
    compute_metrics
      (recorded "TAG_1" "TAG" 1000 [900; 1300; 700]%Z [-100; 300; -300]%Z
                [-100; 400; -600]%Z) = Ret t' /\
    (final_stack t', peak_stack t', min_stack t', max_drawdown t')
    = (700, 1300, 700, 600)%Z /\
    (max_drawdown_pct t' <= 100)%R.
Proof.
  destruct (metrics_fit_together
              (recorded "TAG_1" "TAG" 1000 [900; 1300; 700]%Z
                 [-100; 300; -300]%Z [-100; 400; -600]%Z))
    as (t' & E & _ & _ & _ & _ & _ & _ & _ & _ & Hpct); [discriminate|].
  exists t'. split; [exact E|].
  rewrite compute_metrics_closed in E by discriminate.
  injection E as <-. split; [reflexivity|].
  apply Hpct. cbn. lia.
Defined.

(** X23. On a stack history that is not empty [compute_metrics] adds to
    [hands_won] the number of positive hand results and to [hands_lost]
    the number of negative ones (results of 0 are not counted); the
    longest winning streak is at most the number of positive results and
    is 0 only when there is none, and likewise for the losing streak. *)
Theorem streaks_are_bounded_by_the_counts self :
  stack_history self <> [] ->
  exists t',
    compute_metrics self = Ret t' /\
    hands_won t' = (hands_won self + positives (hand_results self))%Z /\
    hands_lost t' = (hands_lost self + negatives (hand_results self))%Z /\
    (0 <= longest_win_streak t' <= positives (hand_results self))%Z /\
    (0 <= longest_lose_streak t' <= negatives (hand_results self))%Z /\
    (longest_win_streak t' = 0%Z <-> positives (hand_results self) = 0%Z) /\
    (longest_lose_streak t' = 0%Z <-> negatives (hand_results self) = 0%Z).
Proof.
  intros Hne. exists (computed self).
  split; [apply compute_metrics_closed; exact Hne|].
  unfold computed.
  cbn [hands_won hands_lost longest_win_streak longest_lose_streak].
  destruct (streak_scan_inv (hands_won self) (hands_lost self)
              (hand_results self))
    as (Hp & Hn & Hw & Hl & Hmw & Hml & Hpw & Hnl & _).
  repeat split; try lia.
Qed.

Lemma streaks_are_bounded_by_the_counts_witness :
  exists t',
    compute_metrics
      (recorded "LAG_2" "LAG" 1000 [1100; 1250; 1250; 900]%Z
                [100; 250; 250; -100]%Z [100; 150; 0; -350]%Z) = Ret t' /\
    (hands_won t', hands_lost t', longest_win_streak t',
     longest_lose_streak t') = (2, 1, 2, 1)%Z.
Proof.
  destruct (streaks_are_bounded_by_the_counts
              (recorded "LAG_2" "LAG" 1000 [1100; 1250; 1250; 900]%Z
                 [100; 250; 250; -100]%Z [100; 150; 0; -350]%Z))
    as (t' & E & _); [discriminate|].
  exists t'. split; [exact E|].
  rewrite compute_metrics_closed in E by discriminate.
  injection E as <-. reflexivity.
Defined.

(** X24. [compute_metrics] is not idempotent.  A second call on the same
    object returns, reads the same histories and assigns every metric
    the value it already has, except for [hands_won] and [hands_lost],
    to which the positive and the negative hand results are added once
    more. *)
Theorem second_call_counts_the_hands_again self :
  stack_history self <> [] ->
  exists t1 t2,
    compute_metrics self = Ret t1 /\
    compute_metrics t1 = Ret t2 /\
    histories t2 = histories t1 /\
    metrics t2 = metrics t1 /\
    hands_won t2 = (hands_won t1 + positives (hand_results self))%Z /\
    hands_lost t2 = (hands_lost t1 + negatives (hand_results self))%Z.
Proof.
  intros Hne. exists (computed self), (computed (computed self)).
  split; [apply compute_metrics_closed; exact Hne|].
  split; [apply compute_metrics_closed; exact Hne|].
  split; [reflexivity|].
  split.
  - unfold metrics.
    assert (Hs : forall w l,
      (max_win (streak_scan w l (hand_results self)),
       max_lose (streak_scan w l (hand_results self)))
      = (max_win (streak_scan (hands_won self) (hands_lost self)
                    (hand_results self)),
         max_lose (streak_scan (hands_won self) (hands_lost self)
                     (hand_results self)))).
    { intros w l.
      pose proof (streak_scan_shape w l (hands_won self) (hands_lost self)
                    (hand_results self)) as H.
      unfold streak_shape in H. congruence. }
    unfold computed at 1 3 5 7 9 11 13 15 17 19.
    cbn [final_stack total_profit peak_stack min_stack max_drawdown
         max_drawdown_pct volatility sharpe_ratio longest_win_streak
         longest_lose_streak].
    cbn [computed stack_history hand_results initial_stack volatility
         sharpe_ratio hands_won hands_lost].
    rewrite vol_of_again, sharpe_of_again.
    match goal with
    | |- context [max_win (streak_scan ?w ?l _)] =>
        pose proof (Hs w l) as [= -> ->]
    end.
    reflexivity.
  - pose proof (streak_scan_inv (hands_won (computed self))
                  (hands_lost (computed self))
                  (hand_results (computed self)))
      as (_ & _ & Hw & Hl & _).
    split; [exact Hw|exact Hl].
Qed.

Lemma second_call_counts_the_hands_again_witness :
  exists t1 t2,
    compute_metrics
      (recorded "FISH_3" "FISH" 1000 [1100; 900]%Z [100; -100]%Z
                [100; -200]%Z) = Ret t1 /\
    compute_metrics t1 = Ret t2 /\
    (hands_won t1, hands_lost t1) = (1, 1)%Z /\
    (hands_won t2, hands_lost t2) = (2, 2)%Z /\
    metrics t2 = metrics t1.
Proof.
  destruct (second_call_counts_the_hands_again
              (recorded "FISH_3" "FISH" 1000 [1100; 900]%Z [100; -100]%Z
                 [100; -200]%Z))
    as (t1 & t2 & E1 & E2 & _ & Hm & Hw & Hl); [discriminate|].
  exists t1, t2. split; [exact E1|]. split; [exact E2|].
  rewrite compute_metrics_closed in E1 by discriminate.
  injection E1 as <-.
  split; [reflexivity|]. split; [|exact Hm].
  rewrite Hw, Hl. reflexivity.
Defined.

Open Scope R_scope.

Lemma dd_ratio_returns traj : exists r, dd_ratio traj = Ret r.
Proof.
  unfold dd_ratio. destruct (0 <? peak_stack traj)%Z eqn:E;
    [|eexists; reflexivity].
  apply Z.ltb_lt in E. rewrite truediv_ok; [eexists; reflexivity|].
  unfold PyR.fl. apply not_0_IZR. lia.
Qed.

Lemma classify_cases traj :
  exists label,
    classify_trajectory traj = Ret label /\
    (((total_profit traj <= 0)%Z /\ In label decline_labels) \/
     ((0 < total_profit traj)%Z /\ In label winner_labels)).
Proof.
  unfold classify_trajectory.
  destruct (total_profit traj <=? 0)%Z eqn:E.
  - apply Z.leb_le in E.
    destruct (Rlt_dec 500 (volatility traj)); eexists;
      (split; [reflexivity|]); left; (split; [exact E|]);
      unfold decline_labels; cbn [In]; auto.
  - apply Z.leb_gt in E.
    destruct (dd_ratio_returns traj) as (r & ->).
    cbn [mbind outcome_bind Py.bind].
    destruct (Rlt_dec r 0.2), (Rlt_dec (volatility traj) 300),
      (Rlt_dec 0.5 r), (Rlt_dec 0.1 (sharpe_ratio traj));
      eexists; (split; [reflexivity|]); right; (split; [exact E|]);
      unfold winner_labels; cbn [In]; auto.
Qed.

(** X25. [classify_trajectory] never divides by zero and sorts every
    trajectory into one of six labels: one of the two decline labels
    exactly when the total profit is 0 or less, one of the four winner
    labels otherwise.  A player without a recorded hand, whose metrics
    [compute_metrics] leaves at their defaults, is a steady decline; and
    after [compute_metrics] on a history that is not empty the label is a
    decline label exactly when the last stack is not above the initial
    stack. *)
Theorem classification_follows_the_profit :
  (forall traj, exists label,
      classify_trajectory traj = Ret label /\
      In label (decline_labels ++ winner_labels) /\
      (In label decline_labels <-> (total_profit traj <= 0)%Z)) /\
  (forall nm strat initial profits results,
      exists t',
        compute_metrics (recorded nm strat initial [] profits results)
        = Ret t' /\
        classify_trajectory t' = Ret "Steady decline") /\
  (forall self, stack_history self <> [] ->
      exists t' label,
        compute_metrics self = Ret t' /\
        classify_trajectory t' = Ret label /\
        (In label decline_labels
         <-> (List.last (stack_history self) 0 <= initial_stack self)%Z)).
Proof.
  assert (Hsplit : forall traj, exists label,
      classify_trajectory traj = Ret label /\
      In label (decline_labels ++ winner_labels) /\
      (In label decline_labels <-> (total_profit traj <= 0)%Z)).
  { intros traj.
    destruct (classify_cases traj) as (label & E & [[Hp Hl]|[Hp Hl]]);
      exists label; (split; [exact E|]).
    - split; [apply in_or_app; left; exact Hl|]. tauto.
    - split; [apply in_or_app; right; exact Hl|].
      split; [|lia]. intros Hd. exfalso.
      unfold winner_labels, decline_labels in *. cbn [In] in Hl, Hd.
      destruct Hl as [<-|[<-|[<-|[<-|[]]]]];
        destruct Hd as [Hd|[Hd|[]]]; discriminate Hd. }
  split; [exact Hsplit|]. split.
  - intros nm strat initial profits results. eexists.
    split; [reflexivity|].
    unfold classify_trajectory. cbn [recorded total_profit volatility].
    cbn [Z.leb Z.compare]. destruct (Rlt_dec 500 0); [lra|reflexivity].
  - intros self Hne. exists (computed self).
    destruct (Hsplit (computed self)) as (label & E & _ & H).
    exists label. split; [apply compute_metrics_closed; exact Hne|].
    split; [exact E|]. rewrite H.
    unfold computed. cbn [total_profit]. lia.
Qed.

Close Scope R_scope.
End TrajectoryReportProperties.

(* ===================================================================== *)
(** * Properties of the per-strategy results *)
(* ===================================================================== *)

Module StrategyStatsFacts.
Import Py StrategyStats.

Lemma track_counters st l :
  let st' := fold_left track l st in
  hands st' = hands st /\ wins st' = wins st /\
  total_profit st' = total_profit st /\ showdowns st' = showdowns st /\
  showdown_wins st' = showdown_wins st.
Proof.
  revert st. induction l as [|a l IH]; intros st; cbn zeta;
    [repeat split|].
  cbn [fold_left]. specialize (IH (track st a)). cbn zeta in IH.
  exact IH.
Qed.

Lemma count_counted st l p :
  counted st l -> counted (count st p) (l ++ [p]).
Proof.
  unfold counted, count, number_of, len.
  intros (H1 & H2 & H3 & H4 & H5).
  match goal with
  | |- context [fold_left track ?l ?s] =>
      destruct (track_counters s l) as (E1 & E2 & E3 & E4 & E5)
  end.
  cbv zeta in E1, E2, E3, E4, E5.
  rewrite E1, E2, E3, E4, E5.
  cbn [hands wins total_profit showdowns showdown_wins].
  rewrite H1, H2, H3, H4, H5.
  rewrite !List.filter_app, !length_app, fmap_app, SummaryFacts.sum_app.
  cbn [List.filter fmap list_fmap].
  change (Py.sum [stack_change p]) with (0 + stack_change p)%Z.
  destruct (won_hand p), (went_to_showdown p); cbn [andb length];
    repeat split; lia.
Qed.

Lemma counted_fresh : counted fresh [].
Proof. repeat split. Qed.

(** The entry of a strategy after the loop over a list of players: the
    entry it had, with the players of the strategy counted in order. *)
Lemma tally_lookup s l : forall m,
  fold_left tally l m !! s
  = match List.filter (fun p => String.eqb (strategy p) s) l with
    | [] => m !! s
    | ps => Some (fold_left count ps (default fresh (m !! s)))
    end.
Proof.
  induction l as [|p l IH]; intros m; [reflexivity|].
  cbn [fold_left List.filter]. rewrite IH. unfold tally.
  destruct (String.eqb (strategy p) s) eqn:E.
  - apply String.eqb_eq in E. subst s. rewrite lookup_insert_eq.
    cbn [default fold_left].
    destruct (List.filter _ l); reflexivity.
  - apply String.eqb_neq in E. rewrite lookup_insert_ne by exact E.
    reflexivity.
Qed.

Lemma strategy_stats_flat hs :
  strategy_stats hs = fold_left tally (hs ≫= players) ∅.
Proof.
  unfold strategy_stats. symmetry. apply SummaryFacts.fold_left_bind.
Qed.

Lemma fold_count_counted ps : forall st l,
  counted st l -> counted (fold_left count ps st) (l ++ ps).
Proof.
  induction ps as [|p ps IH]; intros st l H; cbn [fold_left].
  - rewrite app_nil_r. exact H.
  - replace (l ++ p :: ps) with ((l ++ [p]) ++ ps)
      by (rewrite <- app_assoc; reflexivity).
    apply IH. apply count_counted. exact H.
Qed.

(** An entry exists exactly for the strategies that were seated, and its
    counters are those of the seated players. *)
Lemma stats_of_seated hs s :
  match strategy_stats hs !! s with
  | None => seated s hs = []
  | Some st => seated s hs <> [] /\ counted st (seated s hs)
  end.
Proof.
  rewrite strategy_stats_flat, tally_lookup. fold (seated s hs).
  destruct (seated s hs) as [|p ps] eqn:E; [rewrite lookup_empty; reflexivity|].
  split; [discriminate|].
  rewrite lookup_empty. cbn [default].
  apply (fold_count_counted (p :: ps) fresh []). apply counted_fresh.
Qed.

Lemma number_of_bounds f (l : list PlayerHandResult) :
  (0 <= number_of f l <= len l)%Z.
Proof.
  unfold number_of, len. pose proof (List.filter_length_le f l). lia.
Qed.

Lemma number_of_both f g (l : list PlayerHandResult) :
  (number_of (fun p => f p && g p) l <= number_of f l)%Z.
Proof.
  unfold number_of, len. induction l as [|p l IH]; [reflexivity|].
  cbn [List.filter]. destruct (f p), (g p); cbn [andb length]; lia.
Qed.

Lemma number_of_both_r f g (l : list PlayerHandResult) :
  (number_of (fun p => f p && g p) l <= number_of g l)%Z.
Proof.
  unfold number_of, len. induction l as [|p l IH]; [reflexivity|].
  cbn [List.filter]. destruct (f p), (g p); cbn [andb length]; lia.
Qed.

Open Scope Q_scope.

Lemma percent_of a b :
  (0 <= a <= b)%Z ->
  exists q, percent a b = Ret q /\ 0 <= q <= 100 /\
            ((0 < b)%Z -> q == fl a / fl b * 100) /\
            ((b = 0)%Z -> q = 0).
Proof.
  intros H. unfold percent. destruct (0 <? b)%Z eqn:E.
  - apply Z.ltb_lt in E.
    assert (Hb : 0 < fl b) by (unfold fl; rewrite <- (Zlt_Qlt 0); exact E).
    assert (Ha : 0 <= fl a) by (unfold fl; rewrite <- (Zle_Qle 0); lia).
    assert (Hab : fl a <= fl b) by (unfold fl; rewrite <- Zle_Qle; lia).
    unfold truediv.
    destruct (Qeq_bool (fl b) 0) eqn:E0.
    { apply Qeq_bool_iff in E0. rewrite E0 in Hb.
      exfalso. exact (Qlt_irrefl 0 Hb). }
    cbn [mbind outcome_bind Py.bind].
    eexists. split; [reflexivity|].
    assert (H1 : 0 <= fl a / fl b).
    { apply Qle_shift_div_l; [exact Hb|]. rewrite Qmult_0_l. exact Ha. }
    assert (H2 : fl a / fl b <= 1).
    { apply Qle_shift_div_r; [exact Hb|]. rewrite Qmult_1_l. exact Hab. }
    split; [|split; [intros _; reflexivity|intros ->; discriminate E]].
    split.
    + apply Qmult_le_0_compat; [exact H1|discriminate].
    + apply Qle_trans with (1 * 100); [|discriminate].
      apply Qmult_le_compat_r; [exact H2|discriminate].
  - exists 0. split; [reflexivity|].
    split; [split; discriminate|].
    split; [intros Hb; apply Z.ltb_ge in E; lia|reflexivity].
Qed.

Close Scope Q_scope.
End StrategyStatsFacts.

Module StrategyStatsProperties.
Import Py StrategyStats StrategyStatsFacts.

(** X26. [strategy_stats] has an entry exactly for the strategies of which
    a player sat in a recorded hand.  The entry counts one hand per such
    player and hand, sums their stack changes, and counts the wins, the
    showdowns and the showdowns won among them; so every entry has at
    least one hand, wins and showdowns are at most the hands, and the
    showdowns won are at most the showdowns and at most the wins. *)
Theorem strategy_stats_count_the_seated hs s :
  match strategy_stats hs !! s with
  | None => seated s hs = []
  | Some st =>
      counted st (seated s hs) /\
      (1 <= hands st)%Z /\
      (0 <= wins st <= hands st)%Z /\
      (0 <= showdowns st <= hands st)%Z /\
      (0 <= showdown_wins st <= showdowns st)%Z /\
      (showdown_wins st <= wins st)%Z
  end.
Proof.
  pose proof (stats_of_seated hs s) as H.
  destruct (strategy_stats hs !! s) as [st|]; [|exact H].
  destruct H as (Hne & Hc). split; [exact Hc|].
  destruct Hc as (H1 & H2 & H3 & H4 & H5).
  rewrite H1, H2, H4, H5.
  pose proof (number_of_bounds won_hand (seated s hs)).
  pose proof (number_of_bounds went_to_showdown (seated s hs)).
  pose proof (number_of_bounds
                (fun p => went_to_showdown p && won_hand p) (seated s hs)).
  pose proof (number_of_both went_to_showdown won_hand (seated s hs)).
  pose proof (number_of_both_r went_to_showdown won_hand (seated s hs)).
  assert (1 <= len (seated s hs))%Z.
  { unfold len. destruct (seated s hs); [congruence|cbn [length]; lia]. }
  repeat split; lia.
Qed.

Open Scope Q_scope.

(** X27. For every entry of [strategy_stats] the conversion to
    [strategy_results] returns, without a division by zero, and its rates
    are percentages: win rate, went-to-showdown rate and won-at-showdown
    rate lie between 0 and 100.  As an entry has at least one hand, the
    win rate is [wins / hands * 100] and the alternative 0 of the guard
    on the hands is never taken; a strategy that never reached a showdown
    has a won-at-showdown rate of 0. *)
Theorem strategy_results_are_percentages hs s st :
  strategy_stats hs !! s = Some st ->
  exists r,
    convert st = Ret r /\
    0 <= win_rate r <= 100 /\
    0 <= wtsd r <= 100 /\
    0 <= wsd r <= 100 /\
    win_rate r == fl (wins st) / fl (hands st) * 100 /\
    wtsd r == fl (showdowns st) / fl (hands st) * 100 /\
    avg_profit_per_hand r == fl (total_profit st) / fl (hands st) /\
    bb_100 r == fl (total_profit st) / 20 / (fl (hands st) / 100) /\
    (showdowns st = 0%Z -> wsd r = 0).
Proof.
  intros E. pose proof (stats_of_seated hs s) as H. rewrite E in H.
  destruct H as (Hne & H1 & H2 & H3 & H4 & H5).
  pose proof (number_of_bounds won_hand (seated s hs)) as B1.
  pose proof (number_of_bounds went_to_showdown (seated s hs)) as B2.
  pose proof (number_of_bounds
                (fun p => went_to_showdown p && won_hand p) (seated s hs))
    as B3.
  pose proof (number_of_both went_to_showdown won_hand (seated s hs)) as B4.
  assert (Hpos : (1 <= hands st)%Z).
  { rewrite H1. unfold len.
    destruct (seated s hs); [congruence|cbn [length]; lia]. }
  destruct (percent_of (wins st) (hands st)) as (wr & Ewr & Rwr & Vwr & _);
    [lia|].
  destruct (percent_of (showdowns st) (hands st))
    as (wt & Ewt & Rwt & Vwt & _); [lia|].
  destruct (percent_of (showdown_wins st) (showdowns st))
    as (ws & Ews & Rws & _ & Zws); [lia|].
  unfold convert. rewrite Ewr. cbn [mbind outcome_bind Py.bind].
  assert (E0 : (0 <? hands st)%Z = true) by (apply Z.ltb_lt; lia).
  rewrite E0.
  assert (Hn : ~ fl (hands st) == 0).
  { unfold fl, Qeq. cbn. lia. }
  assert (Hn' : ~ fl (hands st) / 100 == 0).
  { intros Hq. apply Hn.
    assert (Hx : fl (hands st) == fl (hands st) / 100 * 100) by field.
    rewrite Hx, Hq. reflexivity. }
  rewrite (SampleSizeClaims.truediv_nonzero _ _ Hn).
  cbn [mbind outcome_bind Py.bind].
  rewrite (SampleSizeClaims.truediv_nonzero (fl (total_profit st)) 20)
    by discriminate.
  cbn [mbind outcome_bind Py.bind].
  rewrite (SampleSizeClaims.truediv_nonzero (fl (hands st)) 100)
    by discriminate.
  cbn [mbind outcome_bind Py.bind].
  rewrite (SampleSizeClaims.truediv_nonzero _ _ Hn').
  cbn [mbind outcome_bind Py.bind].
  rewrite Ewt. cbn [mbind outcome_bind Py.bind].
  rewrite Ews. cbn [mbind outcome_bind Py.bind].
  eexists. split; [reflexivity|].
  cbn [win_rate wtsd wsd avg_profit_per_hand bb_100].
  split; [exact Rwr|]. split; [exact Rwt|]. split; [exact Rws|].
  split; [apply Vwr; lia|]. split; [apply Vwt; lia|].
  split; [reflexivity|]. split; [reflexivity|exact Zws].
Qed.

Lemma strategy_results_are_percentages_witness :
  let seat n s chg sd won :=
    {| name := n; strategy := s; stack_change := chg;
       actions := [ {| action := "call"; followed_advisor := Some true |} ];
       went_to_showdown := sd; won_hand := won;
       folded_street := if sd then None else Some "flop" |} in
  let hs := [ {| players := [seat "TAG_1" "TAG" 40%Z true true;
                             seat "LAG_2" "LAG" (-40)%Z true false] |};
              {| players := [seat "TAG_1" "TAG" (-10)%Z false false;
                             seat "LAG_2" "LAG" 10%Z true true] |} ] in
  exists st r,
    strategy_stats hs !! "TAG" = Some st /\
    convert st = Ret r /\
    (hands st, wins st, showdowns st, total_profit st) = (2, 1, 1, 30)%Z /\
    win_rate r == 50 /\ wsd r == 100.
Proof.
  intros seat hs.
  destruct (strategy_stats hs !! "TAG") as [st|] eqn:E;
    [|vm_compute in E; discriminate E].
  destruct (strategy_results_are_percentages hs "TAG" st E)
    as (r & Er & _).
  exists st, r. split; [reflexivity|]. split; [exact Er|].
  vm_compute in E. injection E as <-.
  vm_compute in Er. injection Er as <-.
  split; [reflexivity|]. split; reflexivity.
Defined.

Close Scope Q_scope.
End StrategyStatsProperties.

(* ===================================================================== *)
(** * Edge behaviour of the sample-size computation *)
(* ===================================================================== *)

Module SampleSizeProperties.
Import Py Py64 SampleSize.

Lemma two_is_finite : of_int 2 = S754_finite false 4503599627370496 (-51).
Proof. vm_compute. reflexivity. Qed.

(** The sign given to a rounded result does not change its magnitude. *)
Lemma round_abs s s' m e l :
  SFabs (binary_round_aux prec emax s m e l)
  = SFabs (binary_round_aux prec emax s' m e l).
Proof.
  unfold binary_round_aux.
  destruct (shr_fexp prec emax m e l) as [mrs1 e1].
  destruct (shr_fexp prec emax _ e1 loc_Exact) as [mrs2 e2].
  destruct (shr_m mrs2); [reflexivity| |reflexivity].
  destruct (Z.leb e2 (emax - prec)); reflexivity.
Qed.

Lemma quotient_opp_abs a b :
  SFabs (quotient a (SFopp b)) = SFabs (quotient a b).
Proof.
  unfold quotient.
  destruct a as [sa|sa| |sa ma ea], b as [sb|sb| |sb mb eb];
    try reflexivity.
  cbn [SFopp SFdiv].
  destruct (SFdiv_core_binary prec emax (Z.pos ma) ea (Z.pos mb) eb)
    as [[mz ez] lz].
  apply round_abs.
Qed.

(** The square depends on the magnitude only. *)
Lemma pow2_abs sq x : pow2 sq x = pow2 sq (SFabs x).
Proof. destruct x; reflexivity. Qed.

Lemma pow2_raises sq x e : pow2 sq x = Raise e -> e = OverflowError.
Proof.
  unfold pow2. destruct x; try discriminate.
  destruct (sq _); try discriminate. intros [= <-]. reflexivity.
Qed.

Lemma ceil_raises x e :
  ceil x = Raise e -> e = ValueError \/ e = OverflowError.
Proof.
  unfold ceil. destruct x; try discriminate; intros [= <-]; auto.
Qed.

Lemma pow2_not_negative sq x r :
  within_one_ulp sq -> pow2 sq x = Ret r ->
  SFltb r (S754_zero false) = false.
Proof.
  intros Hsq. unfold pow2. destruct x as [s|s| |s m e].
  - intros [= <-]. reflexivity.
  - intros [= <-]. reflexivity.
  - intros [= <-]. reflexivity.
  - cbn [SFabs]. destruct (Hsq false m e) as (_ & _ & Hn). cbv zeta in Hn.
    destruct (sq (S754_finite false m e)); try discriminate;
      intros [= <-]; exact Hn.
Qed.

Lemma ceil_of_double_not_negative r n :
  SFltb r (S754_zero false) = false ->
  ceil (mul (of_int 2) r) = Ret n -> (0 <= n)%Z.
Proof.
  rewrite two_is_finite. intros Hr.
  assert (Hpos : forall m e,
            (0 <= Qceiling (value (S754_finite false m e)))%Z).
  { intros m e. change 0%Z with (Qceiling 0). apply Qceiling_resp_le.
    unfold value. cbn [cond_Zopp].
    apply Qmult_le_0_compat; [|apply Qpower_0_le; discriminate].
    unfold Qle. cbn. lia. }
  destruct r as [s|s| |s m e].
  - cbn. intros [= <-]. reflexivity.
  - destruct s; discriminate.
  - discriminate.
  - destruct s; [discriminate Hr|].
    unfold mul, SFmul, binary_round_aux. cbn [xorb].
    destruct (shr_fexp prec emax _ _ loc_Exact) as [mrs1 e1].
    destruct (shr_fexp prec emax _ e1 loc_Exact) as [mrs2 e2].
    destruct (shr_m mrs2); [cbn; intros [= <-]; reflexivity| |discriminate].
    destruct (Z.leb e2 (emax - prec)); [|discriminate].
    unfold ceil. intros [= <-]. apply Hpos.
Qed.

(** The sum of the two z-values is a finite float, whatever the confidence
    and the power are. *)
Lemma z_sum_finite confidence power :
  exists s m e,
    add (if eqb confidence (decimal 95 100) then decimal 196 100
         else if eqb confidence (decimal 99 100) then decimal 258 100
              else decimal 1645 1000)
        (if eqb power (decimal 80 100) then decimal 84 100
         else if eqb power (decimal 90 100) then decimal 128 100
              else decimal 52 100)
    = S754_finite s m e.
Proof.
  destruct (eqb confidence (decimal 95 100)),
    (eqb confidence (decimal 99 100)), (eqb power (decimal 80 100)),
    (eqb power (decimal 90 100));
    do 3 eexists; vm_compute; reflexivity.
Qed.

Section WithLibrary.
Variable sq : float -> float.
Hypothesis sq_close : within_one_ulp sq.

(** X28. [calculate_sample_size_needed] raises ZeroDivisionError exactly
    when the expected effect is a zero; any other exception is an
    OverflowError or a ValueError.  When it returns, the number of hands is
    not negative; it is 0 for a standard deviation of 0 (and an effect that
    is neither a zero nor NaN); and it does not depend on the sign of the
    effect.  A confidence other than 0.95 and 0.99 is not rejected: all
    such values, NaN among them, give the same result. *)
Theorem sample_size_edge_cases :
  (forall effect sd confidence power,
      is_zero effect = true ->
      calculate_sample_size_needed sq effect sd confidence power
      = Raise ZeroDivisionError) /\
  (forall effect sd confidence power,
      is_zero effect = false ->
      (forall e,
         calculate_sample_size_needed sq effect sd confidence power
         = Raise e -> e = OverflowError \/ e = ValueError) /\
      (forall n,
         calculate_sample_size_needed sq effect sd confidence power
         = Ret n -> (0 <= n)%Z) /\
      (is_zero sd = true -> is_nan effect = false ->
       calculate_sample_size_needed sq effect sd confidence power
       = Ret 0%Z) /\
      calculate_sample_size_needed sq (SFopp effect) sd confidence power
      = calculate_sample_size_needed sq effect sd confidence power) /\
  (forall effect sd confidence confidence' power,
      eqb confidence (decimal 95 100) = false ->
      eqb confidence (decimal 99 100) = false ->
      eqb confidence' (decimal 95 100) = false ->
      eqb confidence' (decimal 99 100) = false ->
      calculate_sample_size_needed sq effect sd confidence power
      = calculate_sample_size_needed sq effect sd confidence' power).
Proof.
  split; [|split].
  - intros effect sd confidence power Hz.
    unfold calculate_sample_size_needed, truediv. cbv zeta.
    rewrite Hz. reflexivity.
  - intros effect sd confidence power Hz.
    unfold calculate_sample_size_needed. cbv zeta.
    destruct (z_sum_finite confidence power) as (zs & zm & ze & Ez).
    rewrite Ez. clear Ez.
    set (a := mul (S754_finite zs zm ze) sd).
    assert (Eopp : truediv a (SFopp effect) = Ret (quotient a (SFopp effect))).
    { unfold truediv. destruct effect; try discriminate Hz; reflexivity. }
    assert (Eeff : truediv a effect = Ret (quotient a effect)).
    { unfold truediv. rewrite Hz. reflexivity. }
    rewrite Eopp, Eeff.
    cbn [mbind outcome_bind Py.bind].
    split; [|split; [|split]].
    + intros e. destruct (pow2 sq (quotient a effect)) as [r|e'] eqn:Ep;
        cbn [mbind outcome_bind Py.bind].
      * intros H. apply ceil_raises in H. tauto.
      * intros [= <-]. left. eapply pow2_raises. exact Ep.
    + intros n. destruct (pow2 sq (quotient a effect)) as [r|e'] eqn:Ep;
        cbn [mbind outcome_bind Py.bind]; [|discriminate].
      apply ceil_of_double_not_negative.
      eapply pow2_not_negative; [exact sq_close|exact Ep].
    + intros Hsd Hnan. subst a.
      destruct sd as [ss|ss| |ss ms es]; try discriminate Hsd.
      destruct effect as [se|se| |se me ee];
        try discriminate Hz; try discriminate Hnan;
        cbn [mul SFmul quotient SFdiv pow2 mbind outcome_bind Py.bind];
        rewrite two_is_finite; reflexivity.
    + rewrite (pow2_abs sq (quotient a (SFopp effect))), quotient_opp_abs,
        <- pow2_abs.
      reflexivity.
  - intros effect sd confidence confidence' power H1 H2 H3 H4.
    unfold calculate_sample_size_needed. cbv zeta.
    rewrite H1, H2, H3, H4. reflexivity.
Qed.

End WithLibrary.

(** With a library that rounds the square to the nearest float: a
    negative effect, and a confidence that the code does not know. *)
Lemma sample_size_edge_cases_witness :
  within_one_ulp nearest_square /\
  calculate_sample_size_needed nearest_square (of_int 0) (of_int 100)
    (decimal 95 100) (decimal 80 100) = Raise ZeroDivisionError /\
  calculate_sample_size_needed nearest_square (of_int (-5)) (of_int 100)
    (decimal 95 100) (decimal 80 100) = Ret 6272%Z /\
  calculate_sample_size_needed nearest_square (of_int 5) (of_int 100)
    (decimal 999 1000) (decimal 80 100)
  = calculate_sample_size_needed nearest_square (of_int 5) (of_int 100)
      (decimal 90 100) (decimal 80 100).
Proof.
  pose proof SampleSizeClaims.nearest_square_close as Hc.
  destruct (sample_size_edge_cases nearest_square Hc) as (H1 & H2 & H3).
  split; [exact Hc|]. split; [apply H1; reflexivity|]. split.
  - destruct (H2 (of_int 5) (of_int 100) (decimal 95 100) (decimal 80 100)
                eq_refl) as (_ & _ & _ & Hs).
    change (of_int (-5)) with (SFopp (of_int 5)). rewrite Hs.
    vm_compute. reflexivity.
  - apply H3; vm_compute; reflexivity.
Defined.

End SampleSizeProperties.

(* ===================================================================== *)
(** * Properties of what the tracked bots record *)
(* ===================================================================== *)

Module TrajectoryLogFacts.
Import Py Trajectory TrajectoryLog.
Import StyleBased (seat, seat_uuid, seat_name, seat_stack, seat_state).

Lemma record_hand_in_step s p t : in_step t -> in_step (record_hand s p t).
Proof.
  unfold in_step, record_hand. intros [H1 H2].
  cbn [profit_history stack_history hand_results initial_stack].
  rewrite fmap_app, H1, !length_app, H2. split; reflexivity.
Qed.

Lemma no_repeat_snoc l x :
  no_repeat l -> last l <> Some x -> no_repeat (l ++ [x]).
Proof.
  induction l as [|a l IH]; intros H Hl; [exact I|].
  destruct l as [|b l].
  - cbn. split; [|exact I]. intros ->. apply Hl. reflexivity.
  - destruct H as [Hab H]. cbn [app]. split; [exact Hab|].
    apply IH; [exact H|]. rewrite last_cons_cons in Hl. exact Hl.
Qed.

Lemma start_orderly round_count seats b sh :
  orderly sh ->
  orderly (snd (receive_round_start_message round_count seats (b, sh))) /\
  same_players sh
    (snd (receive_round_start_message round_count seats (b, sh))).
Proof.
  intros H. split; [exact H|]. intros n. reflexivity.
Qed.

Lemma result_orderly winners pot seats b sh :
  orderly sh ->
  orderly (snd (receive_round_result_message winners pot seats (b, sh))) /\
  same_players sh
    (snd (receive_round_result_message winners pot seats (b, sh))).
Proof.
  intros [H1 H2]. unfold receive_round_result_message, orderly, same_players.
  cbn [snd trajectories hand_snapshots hand_num].
  split; [split|].
  - destruct (named (my_name b)) as [n|]; [|exact H1].
    destruct (trajectories sh !! n) as [traj|] eqn:E; [|exact H1].
    apply map_Forall_insert_2; [|exact H1].
    apply record_hand_in_step. exact (H1 n traj E).
  - destruct (last (hand_snapshots sh)) as [l|] eqn:E.
    + destruct (hand_num l =? current_hand_num sh)%Z eqn:En; [exact H2|].
      rewrite fmap_app. apply no_repeat_snoc; [exact H2|].
      rewrite fmap_last, E. cbn [fmap option_fmap option_map hand_num].
      intros [= Hn]. apply Z.eqb_neq in En. contradiction.
    + rewrite fmap_app. apply no_repeat_snoc; [exact H2|].
      rewrite fmap_last, E. discriminate.
  - intros n. destruct (named (my_name b)) as [k|]; [|reflexivity].
    destruct (trajectories sh !! k) as [traj|] eqn:E; [|reflexivity].
    destruct (decide (k = n)) as [->|Hne].
    + rewrite lookup_insert_eq, E. reflexivity.
    + rewrite lookup_insert_ne by exact Hne. reflexivity.
Qed.

Lemma deliver_orderly m bots sh :
  orderly sh ->
  orderly (snd (deliver (bots, sh) m)) /\
  same_players sh (snd (deliver (bots, sh) m)).
Proof.
  intros H. unfold deliver.
  destruct (bots !! match m with
                    | RoundStart i _ _ | RoundResult i _ _ _ => i
                    end) as [b|];
    [|split; [exact H|intros n; reflexivity]].
  destruct m as [i rc seats|i winners pot seats].
  - pose proof (start_orderly rc seats b sh H) as Hs.
    destruct (receive_round_start_message rc seats (b, sh)). exact Hs.
  - pose proof (result_orderly winners pot seats b sh H) as Hs.
    destruct (receive_round_result_message winners pot seats (b, sh)).
    exact Hs.
Qed.

Lemma session_orderly msgs : forall bots sh,
  orderly sh ->
  orderly (snd (session msgs (bots, sh))) /\
  same_players sh (snd (session msgs (bots, sh))).
Proof.
  induction msgs as [|m msgs IH]; intros bots sh H.
  - split; [exact H|intros n; reflexivity].
  - unfold session. cbn [fold_left].
    destruct (deliver_orderly m bots sh H) as [H1 H2].
    destruct (deliver (bots, sh) m) as [bots' sh'] eqn:E. cbn [snd] in H1, H2.
    destruct (IH bots' sh' H1) as [H3 H4]. split; [exact H3|].
    intros n. unfold session in H4. rewrite (H4 n). apply H2.
Qed.

Lemma last_default (l : list Z) d :
  l <> [] -> last l = Some (List.last l d).
Proof.
  induction l as [|a l IH]; [congruence|]. intros _.
  destruct l as [|b l]; [reflexivity|].
  rewrite last_cons_cons.
  change (List.last (a :: b :: l) d) with (List.last (b :: l) d).
  apply IH. discriminate.
Qed.

End TrajectoryLogFacts.

Module TrajectoryLogProperties.
Import Py Trajectory TrajectoryLog TrajectoryLogFacts.
Import StyleBased (seat, seat_uuid, seat_name, seat_stack, seat_state).

(** X29. Whatever round-start and round-result messages the bots of a
    table receive, in whatever order, the shared store stays orderly: in
    every trajectory the profit history is the stack history minus the
    initial stack, with one hand result per stack; the store tracks the
    same names with the same initial stacks; and no hand number is stored
    twice in a row among the snapshots.  So when [compute_metrics] runs
    on a trajectory with a recorded hand, the total profit it computes is
    the last entry of the profit history. *)
Theorem session_keeps_the_store_orderly msgs bots sh :
  orderly sh ->
  let sh' := snd (session msgs (bots, sh)) in
  orderly sh' /\
  same_players sh sh' /\
  (forall n t, trajectories sh' !! n = Some t -> stack_history t <> [] ->
     exists t',
       compute_metrics t = Ret t' /\
       last (profit_history t) = Some (total_profit t')).
Proof.
  intros H sh'.
  destruct (session_orderly msgs bots sh H) as [H1 H2].
  fold sh' in H1, H2. split; [exact H1|]. split; [exact H2|].
  intros n t E Hne. destruct H1 as [H1 _].
  destruct (H1 n t E) as [Hp _].
  exists (TrajectoryReport.computed t).
  split; [apply TrajectoryReportFacts.compute_metrics_closed; exact Hne|].
  rewrite Hp, fmap_last, (last_default _ 0%Z Hne). reflexivity.
Qed.

Lemma session_keeps_the_store_orderly_witness :
  let seats a b :=
    [ {| seat_uuid := "u1"; seat_name := "TAG_1"; seat_stack := a;
         seat_state := "participating" |};
      {| seat_uuid := "u2"; seat_name := "LAG_2"; seat_stack := b;
         seat_state := "participating" |} ] in
  let bots := [ {| uuid := "u1"; my_name := None; prev_stack := 0 |};
                {| uuid := "u2"; my_name := None; prev_stack := 0 |} ] in
  let sh :=
    {| trajectories :=
         <["TAG_1" := recorded "TAG_1" "TAG" 1000 [] [] []]>
           (<["LAG_2" := recorded "LAG_2" "LAG" 1000 [] [] []]> ∅);
       hand_snapshots := []; current_hand_num := 0 |} in
  let msgs :=
    [ RoundStart 0 1 (seats 1000 1000)%Z; RoundStart 1 1 (seats 1000 1000)%Z;
      RoundResult 0 [Some "TAG_1"] 80 (seats 1040 960)%Z;
      RoundResult 1 [Some "TAG_1"] 80 (seats 1040 960)%Z ] in
  orderly sh /\
  orderly (snd (session msgs (bots, sh))) /\
  (hand_num <$> hand_snapshots (snd (session msgs (bots, sh)))) = [1%Z] /\
  (profit_history <$> trajectories (snd (session msgs (bots, sh))) !! "LAG_2")
  = Some [(-40)%Z].
Proof.
  intros seats bots sh msgs.
  assert (H : orderly sh).
  { split; [|exact I].
    apply map_Forall_insert_2; [split; reflexivity|].
    apply map_Forall_insert_2; [split; reflexivity|].
    apply map_Forall_empty. }
  split; [exact H|].
  split; [exact (proj1 (session_keeps_the_store_orderly msgs bots sh H))|].
  split; vm_compute; reflexivity.
Defined.

End TrajectoryLogProperties.

(* ===================================================================== *)
(** * The action and street counters of the Omaha player *)
(* ===================================================================== *)

Module OmahaCounters.
Import Py Scorer Policy Advisor Omaha OmahaSpec OmahaFacts OmahaSession.

Section WithWorld.
Variable draws : nat -> Q.
Variable advisor : nat -> request -> reply.

Ltac acted_leaf :=
  unfold acted, tried in *;
  cbn [self] in *;
  repeat match goal with
         | |- context [if vpip_this_hand ?p then _ else _] =>
             destruct (vpip_this_hand p)
         end;
  cbn [self actions set_actions set_streets set_vpip set_advisor_calls
       set_api_errors fst] in *;
  first [ assumption | congruence | left; congruence | right; congruence ].

Lemma heuristic_acted a0 call pot stk mnr mxr s :
  actions (self s) = a0 ->
  wp (_heuristic draws call pot stk mnr mxr) (acted a0) s.
Proof.
  intros H. unfold _heuristic.
  repeat (wp_step; cbv beta iota); acted_leaf.
Qed.

Lemma preflop_acted a0 hole call pot stk mnr mxr num_p hand_num s :
  actions (self s) = a0 ->
  wp (_preflop draws hole call pot stk mnr mxr num_p hand_num) (acted a0) s.
Proof.
  intros H. unfold _preflop, mark_vpip.
  repeat (wp_step; cbv beta iota); acted_leaf.
Qed.

(** The advisor's action is counted when it is returned; when the
    conversion of the size raises, the raise has been counted already. *)
Lemma style_action_acted a0 action sizing call pot stk mnr mxr s :
  actions (self s) = a0 ->
  wp (_style_action draws action sizing call pot stk mnr mxr)
     (fun r s' => match r with
                  | Ret d => actions (self s') = incr (fst d) a0
                  | Raise _ => tried a0 s'
                  end) s.
Proof.
  intros H. unfold _style_action, raise_to_optimal.
  repeat (wp_step; cbv beta iota); acted_leaf.
Qed.

Lemma ask_advisor_acted a0 hole board call pot stk mnr mxr street num_p
  hand_num s :
  actions (self s) = a0 ->
  wp (ask_advisor draws advisor hole board call pot stk mnr mxr street
        num_p hand_num)
     (fun r s' => match r with
                  | Ret (Some d) => actions (self s') = incr (fst d) a0
                  | Ret None => actions (self s') = a0
                  | Raise _ => tried a0 s'
                  end) s.
Proof.
  intros H. unfold ask_advisor.
  repeat (first [ eapply wp_mono;
                  [|apply (style_action_acted a0); acted_leaf];
                  intros [d|e] s' Hr
                | wp_step ]; cbv beta iota); acted_leaf.
Qed.

Lemma postflop_acted a0 hole board call pot stk mnr mxr street num_p
  hand_num s :
  actions (self s) = a0 ->
  wp (_postflop draws advisor hole board call pot stk mnr mxr street
        num_p hand_num)
     (fun r s' => acted a0 r s' \/ acted (incr "raise" a0) r s') s.
Proof.
  intros H. unfold _postflop.
  apply wp_bind, wp_get_self.
  destruct (fast_mode (self s));
    [eapply wp_mono; [|apply (heuristic_acted a0); exact H]; auto|].
  apply wp_bind, wp_try.
  eapply wp_mono; [|apply (ask_advisor_acted a0); exact H].
  intros [[d|]|e] s' Hr.
  - apply wp_ret. left. exact Hr.
  - eapply wp_mono; [|apply (heuristic_acted a0); exact Hr]. auto.
  - apply wp_bind, wp_modify, wp_ret.
    destruct Hr as [Hr|Hr].
    + eapply wp_mono; [|apply (heuristic_acted a0); exact Hr]. auto.
    + eapply wp_mono; [|apply (heuristic_acted (incr "raise" a0)); exact Hr].
      auto.
Qed.

Lemma postflop_fast_acted a0 hole board call pot stk mnr mxr street num_p
  hand_num s :
  fast_mode (self s) = true ->
  actions (self s) = a0 ->
  wp (_postflop draws advisor hole board call pot stk mnr mxr street
        num_p hand_num) (acted a0) s.
Proof.
  intros Hf H. unfold _postflop.
  apply wp_bind, wp_get_self. rewrite Hf.
  apply heuristic_acted. exact H.
Qed.

End WithWorld.

(** X30. [decide] counts the street once, whether it returns or raises.
    It counts the action it returns; before the flop and in heuristic
    mode that is all it counts, and nothing when it raises.  With the
    advisor, a raise is counted before the advised size is converted: if
    the conversion fails, the decision falls to the heuristic and is
    counted as well, so that two actions are on the books for one
    decision. *)
Theorem decisions_are_counted :
  (forall draws advisor obs street_idx num_p hand_num s,
     let r := decide draws advisor obs street_idx num_p hand_num s in
     streets (self (snd r))
     = incr (default "preflop" (STREET_NAMES street_idx))
            (streets (self s)) /\
     (acted (actions (self s)) (fst r) (snd r) \/
      acted (incr "raise" (actions (self s))) (fst r) (snd r)) /\
     (fast_mode (self s) = true \/ street_idx = 0%Z ->
      acted (actions (self s)) (fst r) (snd r))) /\
  (exists draws advisor obs street_idx num_p hand_num s d,
     let r := decide draws advisor obs street_idx num_p hand_num s in
     actions (self s) = ∅ /\
     fst r = Ret d /\ fst d = "call" /\
     actions (self (snd r)) = incr "call" (incr "raise" ∅)).
Proof.
  split.
  - intros draws advisor obs street_idx num_p hand_num s r. subst r.
    change (wp (decide draws advisor obs street_idx num_p hand_num)
              (fun r s' =>
                 streets (self s')
                 = incr (default "preflop" (STREET_NAMES street_idx))
                        (streets (self s)) /\
                 (acted (actions (self s)) r s' \/
                  acted (incr "raise" (actions (self s))) r s') /\
                 (fast_mode (self s) = true \/ street_idx = 0%Z ->
                  acted (actions (self s)) r s')) s).
    unfold decide.
    apply wp_bind, wp_get_self. apply wp_bind, wp_modify. apply wp_bind.
    set (street := default "preflop" (STREET_NAMES street_idx)).
    set (s1 := {| self := set_streets (incr street) (self s);
                  rnd := rnd s; net := net s |}).
    assert (Ha : actions (self s1) = actions (self s)) by reflexivity.
    assert (Hf : fast_mode (self s1) = fast_mode (self s)) by reflexivity.
    destruct (o_stacks obs !! idx (self s)) as [stk|];
      [apply wp_ret
      |apply wp_raise; split; [reflexivity|]; split; [left|intros _];
       exact Ha].
    unfold wp. split; [|split].
    + destruct (street_idx =? 0)%Z.
      * apply (OmahaBooks.preflop_keeps draws streets); intros; reflexivity.
      * apply (OmahaBooks.postflop_keeps draws advisor streets);
          intros; reflexivity.
    + destruct (street_idx =? 0)%Z.
      * left. apply (preflop_acted draws (actions (self s))). exact Ha.
      * apply (postflop_acted draws advisor (actions (self s))). exact Ha.
    + intros Hc. destruct (street_idx =? 0)%Z eqn:E.
      * apply (preflop_acted draws (actions (self s))). exact Ha.
      * destruct Hc as [Hc|Hc]; [|apply Z.eqb_neq in E; contradiction].
        apply (postflop_fast_acted draws advisor (actions (self s)));
          [rewrite Hf; exact Hc|exact Ha].
  - exists (fun _ => 0.9%Q),
           (fun _ _ => Advice "raise" (SizingDict OptInvalid)),
           {| o_call := 10; o_pot := 40; o_stacks := [200; 190]%Z;
              o_min_raise := 20; o_max_raise := 200;
              o_hole_cards := [Card "A" "♠"; Card "K" "♠"; Card "Q" "♥";
                               Card "J" "♥"];
              o_community_cards := [Card "2" "♣"; Card "7" "♦";
                                    Card "9" "♠"] |},
           1%Z, 2%Z, 0%Z,
           {| self := default (blank_player 0) (new_player 0 "tag" 4 false);
              rnd := 0; net := 0 |},
           ("call", 10%Z).
    cbv zeta. split; [reflexivity|]. split; [vm_compute; reflexivity|].
    split; [reflexivity|]. vm_compute. reflexivity.
Qed.

End OmahaCounters.
